(** * A shallow embedding of the DRM mode-setting core (linux-core/drm_crtc.c)

    Kernel objects (outputs, CRTCs, framebuffers, properties) are modelled
    as a heap: a list of object pointers (the kernel's [list_head] chains)
    and a total function from pointer to object record, so that aliasing
    and in-place updates read as in the C code.  Driver callbacks are
    section variables: every theorem holds for all drivers.  Callbacks that
    touch only hardware are recorded in an event trace. *)

From Stdlib Require Import ZArith List String Bool Lia.
Import ListNotations.
Open Scope Z_scope.

(** ** Constants *)

Definition EINVAL : Z := 22.
Definition ENOMEM : Z := 12.
Definition ENOSPC : Z := 28.
Definition EAGAIN : Z := 11.

(** Mode-type bits, as defined by the DRM mode header next to drm_crtc.c. *)
Definition DRM_MODE_TYPE_BUILTIN : Z := Z.shiftl 1 0.
Definition DRM_MODE_TYPE_PREFERRED : Z := Z.shiftl 1 3.
Definition DRM_MODE_TYPE_DEFAULT : Z := Z.shiftl 1 4.
Definition DRM_MODE_TYPE_USERDEF : Z := Z.shiftl 1 5.
Definition DRM_MODE_TYPE_DRIVER : Z := Z.shiftl 1 6.

(** Sync-polarity and scan flags of a mode. *)
Definition V_PHSYNC : Z := Z.shiftl 1 0.
Definition V_NHSYNC : Z := Z.shiftl 1 1.
Definition V_PVSYNC : Z := Z.shiftl 1 2.
Definition V_NVSYNC : Z := Z.shiftl 1 3.
Definition V_INTERLACE : Z := Z.shiftl 1 4.
Definition V_DBLSCAN : Z := Z.shiftl 1 5.

(** Property flag bits (DRM header). *)
Definition DRM_MODE_PROP_PENDING : Z := Z.shiftl 1 0.
Definition DRM_MODE_PROP_RANGE : Z := Z.shiftl 1 1.
Definition DRM_MODE_PROP_IMMUTABLE : Z := Z.shiftl 1 2.
Definition DRM_MODE_PROP_ENUM : Z := Z.shiftl 1 3.
Definition DRM_MODE_PROP_BLOB : Z := Z.shiftl 1 4.

Definition DRM_PROP_NAME_LEN : nat := 32.
Definition DRM_OUTPUT_MAX_PROPERTY : nat := 16.
Definition DPMSModeOff : Z := 3.

Definition has_flag (flags bit : Z) : bool := negb (Z.land flags bit =? 0).

(** ** Display modes *)

Inductive drm_mode_status :=
| MODE_OK
| MODE_UNVERIFIED
| MODE_BAD
| MODE_ERROR
| MODE_VIRTUAL_X
| MODE_VIRTUAL_Y
| MODE_REJECTED (reason : Z).

Definition mode_status_is_ok (s : drm_mode_status) : bool :=
  match s with MODE_OK => true | _ => false end.

Record drm_display_mode := mkMode {
  mode_name : string;
  mode_status : drm_mode_status;
  mode_type : Z;
  clock : Z;
  hdisplay : Z; hsync_start : Z; hsync_end : Z; htotal : Z; hskew : Z;
  vdisplay : Z; vsync_start : Z; vsync_end : Z; vtotal : Z; vscan : Z;
  vrefresh : Z;
  mode_flags : Z }.

(** The [DRM_MODE] initializer macro: status 0 (MODE_OK), vrefresh 0. *)
Definition DRM_MODE (nm : string) (t c hd hss hse ht hsk vd vss vse vt vs f : Z)
  : drm_display_mode :=
  mkMode nm MODE_OK t c hd hss hse ht hsk vd vss vse vt vs 0 f.

Definition set_mode_status (s : drm_mode_status) (m : drm_display_mode) :=
  mkMode (mode_name m) s (mode_type m) (clock m)
    (hdisplay m) (hsync_start m) (hsync_end m) (htotal m) (hskew m)
    (vdisplay m) (vsync_start m) (vsync_end m) (vtotal m) (vscan m)
    (vrefresh m) (mode_flags m).

Definition set_mode_vrefresh (r : Z) (m : drm_display_mode) :=
  mkMode (mode_name m) (mode_status m) (mode_type m) (clock m)
    (hdisplay m) (hsync_start m) (hsync_end m) (htotal m) (hskew m)
    (vdisplay m) (vsync_start m) (vsync_end m) (vtotal m) (vscan m)
    r (mode_flags m).

(** Modelled from the spec: [drm_mode_equal] (drm_modes.c, not in src/),
    "full timing-field equality, not just name". *)
Definition drm_mode_equal (a b : drm_display_mode) : bool :=
  (clock a =? clock b) && (hdisplay a =? hdisplay b)
  && (hsync_start a =? hsync_start b) && (hsync_end a =? hsync_end b)
  && (htotal a =? htotal b) && (hskew a =? hskew b)
  && (vdisplay a =? vdisplay b) && (vsync_start a =? vsync_start b)
  && (vsync_end a =? vsync_end b) && (vtotal a =? vtotal b)
  && (vscan a =? vscan b) && (mode_flags a =? mode_flags b).

(** Modelled from the spec: [drm_mode_duplicate] (drm_modes.c) copies the
    mode; the record carries no mode identifier, so the copy is the value. *)
Definition drm_mode_duplicate (m : drm_display_mode) : drm_display_mode := m.

(** [std_mode[0]]: detailed mode for a standard 640x480@60Hz monitor. *)
Definition std_mode0 : drm_display_mode :=
  DRM_MODE "640x480" DRM_MODE_TYPE_DEFAULT 25200 640 656
    752 800 0 480 490 492 525 0
    (Z.lor V_NHSYNC V_NVSYNC).

(** ** The identifier registry (the kernel idr used as [crtc_idr])

    The idr allocator's [idr_get_new_above] hands out the lowest free id
    that is at least the starting id and at most [MAX_ID]; [idr_remove]
    drops the id; [idr_find] looks it up.  The registry is an association
    list from id to object. *)

Module Idr.
Section Idr.
Variable A : Type.

Definition MAX_ID : Z := 2147483647.

Definition idr := list (Z * A).

Fixpoint idr_find (l : idr) (id : Z) : option A :=
  match l with
  | [] => None
  | (k, p) :: l' => if k =? id then Some p else idr_find l' id
  end.

Definition idr_ids (l : idr) : list Z := map fst l.

Fixpoint idr_lowest_free (l : idr) (fuel : nat) (n : Z) : option Z :=
  match fuel with
  | O => None
  | S fuel' =>
      if n >? MAX_ID then None
      else match idr_find l n with
           | Some _ => idr_lowest_free l fuel' (n + 1)
           | None => Some n
           end
  end.

(** Returns the error code (0 on success), the id written to [*id], and
    the new registry.  On failure [*id] is left untouched. *)
Definition idr_get_new_above (l : idr) (ptr : A) (starting_id : Z) (id0 : Z)
  : Z * Z * idr :=
  match idr_lowest_free l (S (List.length l)) starting_id with
  | Some n => (0, n, (n, ptr) :: l)
  | None => (- ENOSPC, id0, l)
  end.

Definition idr_remove (l : idr) (id : Z) : idr :=
  filter (fun e => negb (fst e =? id)) l.

(** [drm_idr_get]: [pre_get_ok] is the outcome of [idr_pre_get] (memory
    preallocation); when it is false the function returns 0.  The
    [-EAGAIN] retry only happens when preallocation was consumed, which the
    registry model never needs. *)
Definition drm_idr_get (pre_get_ok : bool) (l : idr) (ptr : A) : Z * idr :=
  let new_id := 0 in
  if negb pre_get_ok then (0, l)
  else let '(_, new_id', l') := idr_get_new_above l ptr 1 new_id in
       (new_id', l').

Definition drm_idr_put (l : idr) (id : Z) : idr := idr_remove l id.

(** A run of allocate/release requests from the empty registry. *)
Inductive idr_op :=
| OpGet (pre_get_ok : bool) (ptr : A)
| OpPut (id : Z).

Fixpoint idr_run (l : idr) (ops : list idr_op) : idr * list Z :=
  match ops with
  | [] => (l, [])
  | OpGet ok p :: ops' =>
      let '(id, l1) := drm_idr_get ok l p in
      let '(l2, ids) := idr_run l1 ops' in (l2, id :: ids)
  | OpPut id :: ops' => idr_run (drm_idr_put l id) ops'
  end.

End Idr.
End Idr.

(** ** Kernel objects *)

Inductive output_status :=
| output_status_connected
| output_status_disconnected
| output_status_unknown.

Definition output_status_eqb (a b : output_status) : bool :=
  match a, b with
  | output_status_connected, output_status_connected
  | output_status_disconnected, output_status_disconnected
  | output_status_unknown, output_status_unknown => true
  | _, _ => false
  end.

Definition ptr_eqb (a b : option nat) : bool :=
  match a, b with
  | None, None => true
  | Some x, Some y => Nat.eqb x y
  | _, _ => false
  end.

(** [struct drm_output]; [output_crtc] is the [crtc] pointer (NULL = None). *)
Record drm_output := mkOutput {
  output_id : Z;
  output_status_of : output_status;
  output_crtc : option nat;
  output_modes : list drm_display_mode;
  output_probed_modes : list drm_display_mode;
  output_possible_crtcs : Z;
  output_possible_clones : Z;
  output_initial_x : Z;
  output_initial_y : Z;
  output_property_ids : list Z;
  output_property_values : list N }.

Definition set_output_crtc (c : option nat) (o : drm_output) : drm_output :=
  mkOutput (output_id o) (output_status_of o) c (output_modes o)
    (output_probed_modes o) (output_possible_crtcs o) (output_possible_clones o)
    (output_initial_x o) (output_initial_y o)
    (output_property_ids o) (output_property_values o).

Definition set_output_status (s : output_status) (o : drm_output) : drm_output :=
  mkOutput (output_id o) s (output_crtc o) (output_modes o)
    (output_probed_modes o) (output_possible_crtcs o) (output_possible_clones o)
    (output_initial_x o) (output_initial_y o)
    (output_property_ids o) (output_property_values o).

Definition set_output_mode_lists (ms ps : list drm_display_mode) (o : drm_output)
  : drm_output :=
  mkOutput (output_id o) (output_status_of o) (output_crtc o) ms ps
    (output_possible_crtcs o) (output_possible_clones o)
    (output_initial_x o) (output_initial_y o)
    (output_property_ids o) (output_property_values o).

Definition set_output_initial (x y : Z) (o : drm_output) : drm_output :=
  mkOutput (output_id o) (output_status_of o) (output_crtc o) (output_modes o)
    (output_probed_modes o) (output_possible_crtcs o) (output_possible_clones o)
    x y (output_property_ids o) (output_property_values o).

(** [struct drm_crtc]; [crtc_fb] is the [fb] pointer. *)
Record drm_crtc := mkCrtc {
  crtc_id : Z;
  crtc_enabled : bool;
  crtc_mode : drm_display_mode;
  crtc_x : Z;
  crtc_y : Z;
  crtc_fb : option nat;
  crtc_desired_mode : option drm_display_mode;
  crtc_desired_x : Z;
  crtc_desired_y : Z }.

Definition set_crtc_enabled (b : bool) (c : drm_crtc) : drm_crtc :=
  mkCrtc (crtc_id c) b (crtc_mode c) (crtc_x c) (crtc_y c) (crtc_fb c)
    (crtc_desired_mode c) (crtc_desired_x c) (crtc_desired_y c).

Definition set_crtc_mode_xy (m : drm_display_mode) (x y : Z) (c : drm_crtc)
  : drm_crtc :=
  mkCrtc (crtc_id c) (crtc_enabled c) m x y (crtc_fb c)
    (crtc_desired_mode c) (crtc_desired_x c) (crtc_desired_y c).

Definition set_crtc_fb (fb : option nat) (c : drm_crtc) : drm_crtc :=
  mkCrtc (crtc_id c) (crtc_enabled c) (crtc_mode c) (crtc_x c) (crtc_y c) fb
    (crtc_desired_mode c) (crtc_desired_x c) (crtc_desired_y c).

Definition set_crtc_desired (m : option drm_display_mode) (x y : Z) (c : drm_crtc)
  : drm_crtc :=
  mkCrtc (crtc_id c) (crtc_enabled c) (crtc_mode c) (crtc_x c) (crtc_y c)
    (crtc_fb c) m x y.

(** [struct drm_property_enum] and [struct drm_property]; [num_values] is
    the length of [prop_values]. *)
Record drm_property_enum := mkEnum {
  enum_value : N;
  enum_name : string }.

Record drm_property := mkProperty {
  prop_id : Z;
  prop_flags : Z;
  prop_values : list N;
  prop_enum_blob_list : list drm_property_enum }.

(** What the shared [crtc_idr] maps an id to. *)
Inductive drm_obj :=
| ObjCrtc (c : nat)
| ObjOutput (o : nat)
| ObjFb (fb : nat)
| ObjProperty (p : nat)
| ObjMode.

(** Callbacks into the driver, with the object they are called on. *)
Inductive event :=
| Ev_output_mode_fixup (o : nat) (ok : bool)
| Ev_crtc_mode_fixup (c : nat) (ok : bool)
| Ev_output_prepare (o : nat)
| Ev_crtc_prepare (c : nat)
| Ev_crtc_mode_set (c : nat) (m adj : drm_display_mode) (x y : Z)
| Ev_output_mode_set (o : nat) (m adj : drm_display_mode)
| Ev_crtc_commit (c : nat)
| Ev_output_commit (o : nat)
| Ev_crtc_mode_set_base (c : nat) (x y : Z)
| Ev_output_dpms (o : nat) (level : Z)
| Ev_crtc_dpms (c : nat) (level : Z)
| Ev_output_set_property (o p : nat) (value : N).

(** [dev->mode_config] as a heap of objects. *)
Record dev := mkDev {
  crtc_list : list nat;
  crtcs : nat -> drm_crtc;
  output_list : list nat;
  outputs : nat -> drm_output;
  fb_list : list nat;
  fb_ids : nat -> Z;
  num_fb : Z;
  crtc_idr : Idr.idr drm_obj;
  props : nat -> drm_property;
  trace : list event }.

Definition heap_upd {T} (h : nat -> T) (p : nat) (v : T) : nat -> T :=
  fun q => if Nat.eqb q p then v else h q.

Definition dev_upd_crtc (c : nat) (f : drm_crtc -> drm_crtc) (d : dev) : dev :=
  mkDev (crtc_list d) (heap_upd (crtcs d) c (f (crtcs d c))) (output_list d)
    (outputs d) (fb_list d) (fb_ids d) (num_fb d) (crtc_idr d) (props d) (trace d).

Definition dev_upd_output (o : nat) (f : drm_output -> drm_output) (d : dev) : dev :=
  mkDev (crtc_list d) (crtcs d) (output_list d)
    (heap_upd (outputs d) o (f (outputs d o)))
    (fb_list d) (fb_ids d) (num_fb d) (crtc_idr d) (props d) (trace d).

Definition dev_log (e : event) (d : dev) : dev :=
  mkDev (crtc_list d) (crtcs d) (output_list d) (outputs d)
    (fb_list d) (fb_ids d) (num_fb d) (crtc_idr d) (props d) (trace d ++ [e]).

Definition with_trace (d : dev) (t : list event) : dev :=
  mkDev (crtc_list d) (crtcs d) (output_list d) (outputs d)
    (fb_list d) (fb_ids d) (num_fb d) (crtc_idr d) (props d) t.

(** ** A state monad over the device *)

Definition M (A : Type) : Type := dev -> A * dev.
Definition ret {A} (a : A) : M A := fun d => (a, d).
Definition bind {A B} (m : M A) (k : A -> M B) : M B :=
  fun d => let '(a, d') := m d in k a d'.
Notation "x <- m ;; k" := (bind m (fun x => k))
  (at level 61, m at next level, right associativity).
Notation "m ;;; k" := (bind m (fun _ => k))
  (at level 61, right associativity).
Definition get : M dev := fun d => (d, d).
Definition modify (f : dev -> dev) : M unit := fun d => (tt, f d).
Definition log (e : event) : M unit := modify (dev_log e).
Definition get_crtc (c : nat) : M drm_crtc := fun d => (crtcs d c, d).
Definition get_output (o : nat) : M drm_output := fun d => (outputs d o, d).
Definition upd_crtc (c : nat) (f : drm_crtc -> drm_crtc) : M unit :=
  modify (dev_upd_crtc c f).
Definition upd_output (o : nat) (f : drm_output -> drm_output) : M unit :=
  modify (dev_upd_output o f).

(** The driver function tables ([output->funcs], [crtc->funcs]), indexed by
    the object they belong to.  Callbacks that return nothing the core
    reads are not fields: their calls are the events of the trace. *)
Record drm_funcs := mkFuncs {
  detect : nat -> output_status;
  (** modes the driver adds with [drm_mode_probed_add], in call order, and
      the count [get_modes] returns *)
  get_modes : nat -> list drm_display_mode * Z;
  mode_valid : nat -> drm_display_mode -> drm_mode_status;
  output_mode_fixup :
    nat -> drm_display_mode -> drm_display_mode -> bool * drm_display_mode;
  output_set_property : nat -> option (nat -> N -> Z);
  crtc_mode_fixup :
    nat -> drm_display_mode -> drm_display_mode -> bool * drm_display_mode;
  crtc_has_mode_set_base : nat -> bool }.

(** ** Framebuffers *)

(** [list_del] of a node of a kernel list: the node is unlinked. *)
Fixpoint list_del (p : nat) (l : list nat) : list nat :=
  match l with
  | [] => []
  | q :: l' => if Nat.eqb q p then l' else q :: list_del p l'
  end.

(** /* remove from any CRTC */ *)
Fixpoint fb_remove_from_crtcs (fb : nat) (cs : list nat) (d : dev) : dev :=
  match cs with
  | [] => d
  | c :: cs' =>
      let d' := if ptr_eqb (crtc_fb (crtcs d c)) (Some fb)
                then dev_upd_crtc c (set_crtc_fb None) d else d in
      fb_remove_from_crtcs fb cs' d'
  end.

(** [drm_idr_put(dev, fb->id); list_del(&fb->head); num_fb--]. *)
Definition fb_release (fb : nat) (d : dev) : dev :=
  mkDev (crtc_list d) (crtcs d) (output_list d) (outputs d)
    (list_del fb (fb_list d)) (fb_ids d) (num_fb d - 1)
    (Idr.drm_idr_put drm_obj (crtc_idr d) (fb_ids d fb)) (props d) (trace d).

Definition drm_framebuffer_destroy (fb : nat) (d : dev) : dev :=
  let d := fb_remove_from_crtcs fb (crtc_list d) d in
  fb_release fb d.

(** ** Properties *)

(** [strncpy(name, src, DRM_PROP_NAME_LEN); name[DRM_PROP_NAME_LEN-1] = 0]. *)
Definition prop_name_copy (name : string) : string :=
  substring 0 (DRM_PROP_NAME_LEN - 1) name.

(** [property->values[index] = value]; an index past the array is outside
    what the C code defines and leaves the model's array unchanged. *)
Fixpoint list_set {T} (l : list T) (i : nat) (v : T) : list T :=
  match l, i with
  | [], _ => []
  | _ :: l', O => v :: l'
  | x :: l', S i' => x :: list_set l' i' v
  end.

Fixpoint enum_rename (value : N) (name : string) (l : list drm_property_enum)
  : option (list drm_property_enum) :=
  match l with
  | [] => None
  | e :: l' =>
      if N.eqb (enum_value e) value
      then Some (mkEnum (enum_value e) (prop_name_copy name) :: l')
      else option_map (cons e) (enum_rename value name l')
  end.

(** [drm_property_add_enum]; [alloc_ok] is the outcome of the [kzalloc] of
    the new entry. *)
Definition drm_property_add_enum (alloc_ok : bool) (p : drm_property)
  (index : nat) (value : N) (name : string) : Z * drm_property :=
  if negb (has_flag (prop_flags p) DRM_MODE_PROP_ENUM) then (- EINVAL, p)
  else
    match enum_rename value name (prop_enum_blob_list p) with
    | Some l' => (0, mkProperty (prop_id p) (prop_flags p) (prop_values p) l')
    | None =>
        if negb alloc_ok then (- ENOMEM, p)
        else (0, mkProperty (prop_id p) (prop_flags p)
                   (list_set (prop_values p) index value)
                   (prop_enum_blob_list p ++ [mkEnum value (prop_name_copy name)]))
    end.

(** The argument of the set-property ioctl. *)
Record drm_mode_output_set_property := mkSetProp {
  req_output_id : Z;
  req_prop_id : Z;
  req_value : N }.

Definition nth_u64 (l : list N) (i : nat) : N := nth i l 0%N.

Fixpoint index_of_id (l : list Z) (id : Z) (i : nat) (max : nat) : nat :=
  match max with
  | O => i
  | S max' =>
      if Z.eqb (nth i l 0) id then i else index_of_id l id (S i) max'
  end.

Section PropertyIoctl.
Variable F : drm_funcs.

(** [drm_mode_output_property_set_ioctl]; an [idr_find] that yields an
    object of another kind is treated as not found. *)
Definition drm_mode_output_property_set_ioctl (r : drm_mode_output_set_property)
  : M Z :=
  d <- get ;;
  let ret_ := - EINVAL in
  match Idr.idr_find drm_obj (crtc_idr d) (req_output_id r) with
  | Some (ObjOutput o) =>
    let output := outputs d o in
    if negb (output_id output =? req_output_id r) then ret ret_ else
    let i := index_of_id (output_property_ids output) (req_prop_id r) 0
               DRM_OUTPUT_MAX_PROPERTY in
    if Nat.eqb i DRM_OUTPUT_MAX_PROPERTY then ret ret_ else
    match Idr.idr_find drm_obj (crtc_idr d) (req_prop_id r) with
    | Some (ObjProperty pp) =>
      let property := props d pp in
      if negb (prop_id property =? req_prop_id r) then ret ret_ else
      if has_flag (prop_flags property) DRM_MODE_PROP_IMMUTABLE then ret ret_ else
      let valid :=
        if has_flag (prop_flags property) DRM_MODE_PROP_RANGE then
          negb (N.ltb (req_value r) (nth_u64 (prop_values property) 0))
          && negb (N.ltb (nth_u64 (prop_values property) 1) (req_value r))
        else existsb (fun v => N.eqb v (req_value r)) (prop_values property) in
      if negb valid then ret ret_ else
      match output_set_property F o with
      | Some set_property =>
          log (Ev_output_set_property o pp (req_value r)) ;;;
          ret (set_property pp (req_value r))
      | None => ret ret_
      end
    | _ => ret ret_
    end
  | _ => ret ret_
  end.

End PropertyIoctl.

(** ** Mode setting *)

Section ModeSet.
Variable F : drm_funcs.

(** [drm_crtc_in_use]: some output's [crtc] pointer is [crtc]. *)
Definition drm_crtc_in_use (c : nat) : M bool :=
  d <- get ;;
  ret (existsb (fun o => ptr_eqb (output_crtc (outputs d o)) (Some c))
         (output_list d)).

(** [list_for_each_entry(output, ...) if (output->crtc == crtc) f(output)]. *)
Fixpoint for_each_output_on (c : nat) (f : nat -> event) (os : list nat) : M unit :=
  match os with
  | [] => ret tt
  | o :: os' =>
      out <- get_output o ;;
      (if ptr_eqb (output_crtc out) (Some c) then log (f o) else ret tt) ;;;
      for_each_output_on c f os'
  end.

(** The output fixup loop: stops at the first output that rejects. *)
Fixpoint outputs_mode_fixup (c : nat) (mode adjusted : drm_display_mode)
  (os : list nat) : M (bool * drm_display_mode) :=
  match os with
  | [] => ret (true, adjusted)
  | o :: os' =>
      out <- get_output o ;;
      if ptr_eqb (output_crtc out) (Some c) then
        let '(ok, adjusted') := output_mode_fixup F o mode adjusted in
        log (Ev_output_mode_fixup o ok) ;;;
        if ok then outputs_mode_fixup c mode adjusted' os'
        else ret (false, adjusted')
      else outputs_mode_fixup c mode adjusted os'
  end.

(** From the fixup calls to the output commits; returns [ret]. *)
Definition set_mode_sequence (c : nat) (mode adjusted : drm_display_mode) (x y : Z)
  : M bool :=
  d <- get ;;
  r1 <- outputs_mode_fixup c mode adjusted (output_list d) ;;
  let '(ok1, adjusted1) := r1 in
  if negb ok1 then ret false else
  let '(ok2, adjusted2) := crtc_mode_fixup F c mode adjusted1 in
  log (Ev_crtc_mode_fixup c ok2) ;;;
  if negb ok2 then ret false else
  for_each_output_on c Ev_output_prepare (output_list d) ;;;
  log (Ev_crtc_prepare c) ;;;
  log (Ev_crtc_mode_set c mode adjusted2 x y) ;;;
  for_each_output_on c (fun o => Ev_output_mode_set o mode adjusted2)
    (output_list d) ;;;
  log (Ev_crtc_commit c) ;;;
  for_each_output_on c Ev_output_commit (output_list d) ;;;
  ret true.

Definition drm_crtc_set_mode (c : nat) (mode : drm_display_mode) (x y : Z) : M bool :=
  let adjusted_mode := drm_mode_duplicate mode in
  in_use <- drm_crtc_in_use c ;;
  upd_crtc c (set_crtc_enabled in_use) ;;;
  if negb in_use then ret true else
  cr <- get_crtc c ;;
  let saved_mode := crtc_mode cr in
  let saved_x := crtc_x cr in
  let saved_y := crtc_y cr in
  upd_crtc c (set_crtc_mode_xy mode x y) ;;;
  r <- (if drm_mode_equal saved_mode mode
           && negb ((saved_x =? x) && (saved_y =? y))
        then log (Ev_crtc_mode_set_base c x y) ;;; ret true
        else set_mode_sequence c mode adjusted_mode x y) ;;
  (if r then ret tt else upd_crtc c (set_crtc_mode_xy saved_mode saved_x saved_y)) ;;;
  ret r.

(** [drm_disable_unused_functions]. *)
Fixpoint dpms_off_outputs (os : list nat) : M unit :=
  match os with
  | [] => ret tt
  | o :: os' =>
      out <- get_output o ;;
      (if ptr_eqb (output_crtc out) None then log (Ev_output_dpms o DPMSModeOff)
       else ret tt) ;;;
      dpms_off_outputs os'
  end.

Fixpoint dpms_off_crtcs (cs : list nat) : M unit :=
  match cs with
  | [] => ret tt
  | c :: cs' =>
      cr <- get_crtc c ;;
      (if crtc_enabled cr then ret tt else log (Ev_crtc_dpms c DPMSModeOff)) ;;;
      dpms_off_crtcs cs'
  end.

Definition drm_disable_unused_functions : M unit :=
  d <- get ;;
  dpms_off_outputs (output_list d) ;;;
  dpms_off_crtcs (crtc_list d).

(** [struct drm_mode_set]; [set_outputs] is [outputs[0..num_outputs-1]]. *)
Record drm_mode_set := mkModeSet {
  set_crtc : option nat;
  set_fb : option nat;
  set_x : Z;
  set_y : Z;
  set_mode : option drm_display_mode;
  set_outputs : list nat }.

(** The binding loop of [drm_crtc_set_config]: saves each output's [crtc]
    into [save_crtcs] and rebinds it; returns the saved pointers and the
    updated [changed]. *)
Fixpoint set_config_bind (c : nat) (outs : list nat) (changed : bool)
  (os : list nat) : M (list (option nat) * bool) :=
  match os with
  | [] => ret ([], changed)
  | o :: os' =>
      out <- get_output o ;;
      let saved := output_crtc out in
      let new_crtc0 := if ptr_eqb saved (Some c) then None else saved in
      let new_crtc := if existsb (Nat.eqb o) outs then Some c else new_crtc0 in
      (if ptr_eqb new_crtc saved then ret tt
       else upd_output o (set_output_crtc new_crtc)) ;;;
      r <- set_config_bind c outs (changed || negb (ptr_eqb new_crtc saved)) os' ;;
      let '(save_crtcs, changed') := r in
      ret (saved :: save_crtcs, changed')
  end.

(** [output->crtc = save_crtcs[count++]] over the output list. *)
Fixpoint restore_output_crtcs (save_crtcs : list (option nat)) (os : list nat)
  : M unit :=
  match os, save_crtcs with
  | o :: os', s :: ss => upd_output o (set_output_crtc s) ;;; restore_output_crtcs ss os'
  | _, _ => ret tt
  end.

(** [drm_crtc_set_config]; [None] stands for a NULL [set] or [set->crtc].
    [alloc_ok] is the outcome of the [kzalloc] of [save_crtcs]. *)
Definition drm_crtc_set_config (alloc_ok : bool) (set : option drm_mode_set) : M Z :=
  match set with
  | None => ret (- EINVAL)
  | Some s =>
    match set_crtc s with
    | None => ret (- EINVAL)
    | Some c =>
      cr <- get_crtc c ;;
      let save_enabled := crtc_enabled cr in
      if negb alloc_ok then ret (- ENOMEM) else
      let flip_or_move :=
        negb (ptr_eqb (crtc_fb cr) (set_fb s))
        || negb ((set_x s =? crtc_x cr) && (set_y s =? crtc_y cr)) in
      let changed :=
        match set_mode s with
        | Some m => negb (drm_mode_equal m (crtc_mode cr))
        | None => false
        end in
      d <- get ;;
      r <- set_config_bind c (set_outputs s) changed (output_list d) ;;
      let '(save_crtcs, changed) := r in
      let changed := changed || (flip_or_move && negb (crtc_has_mode_set_base F c)) in
      if changed then
        upd_crtc c (set_crtc_fb (set_fb s)) ;;;
        upd_crtc c (set_crtc_enabled (match set_mode s with Some _ => true | None => false end)) ;;;
        match set_mode s with
        | Some m =>
            ok <- drm_crtc_set_mode c m (set_x s) (set_y s) ;;
            if negb ok then
              upd_crtc c (set_crtc_enabled save_enabled) ;;;
              d' <- get ;;
              restore_output_crtcs save_crtcs (output_list d') ;;;
              ret (- EINVAL)
            else
              upd_crtc c (set_crtc_desired (Some m) (set_x s) (set_y s)) ;;;
              drm_disable_unused_functions ;;;
              ret 0
        | None => drm_disable_unused_functions ;;; ret 0
        end
      else if flip_or_move then
        cr' <- get_crtc c ;;
        (if ptr_eqb (crtc_fb cr') (set_fb s) then ret tt
         else upd_crtc c (set_crtc_fb (set_fb s))) ;;;
        log (Ev_crtc_mode_set_base c (set_x s) (set_y s)) ;;;
        ret 0
      else ret 0
    end
  end.

End ModeSet.

(** Kinds of recorded callbacks. *)
Definition is_fixup (e : event) : bool :=
  match e with
  | Ev_output_mode_fixup _ _ | Ev_crtc_mode_fixup _ _ => true
  | _ => false
  end.

Definition fixup_reject (e : event) : bool :=
  match e with
  | Ev_output_mode_fixup _ false | Ev_crtc_mode_fixup _ false => true
  | _ => false
  end.

Definition is_prepare_mode_set_commit (e : event) : bool :=
  match e with
  | Ev_output_prepare _ | Ev_crtc_prepare _
  | Ev_crtc_mode_set _ _ _ _ _ | Ev_output_mode_set _ _ _
  | Ev_crtc_commit _ | Ev_output_commit _ => true
  | _ => false
  end.

(** [d'] is [d] with only CRTC [c] replaced by [cr] and [evs] recorded. *)
Definition crtc_step (d d' : dev) (c : nat) (cr : drm_crtc) (evs : list event)
  : Prop :=
  crtc_list d' = crtc_list d /\ output_list d' = output_list d /\
  outputs d' = outputs d /\ fb_list d' = fb_list d /\
  crtc_idr d' = crtc_idr d /\ props d' = props d /\
  (forall c', c' <> c -> crtcs d' c' = crtcs d c') /\
  crtcs d' c = cr /\ trace d' = trace d ++ evs.

(** ** The CRTC assignment heuristic *)

(** The choice of [des_mode] before the CRTC scan: the first mode flagged
    preferred, else (/* No preferred mode, let's just select the first
    available */) the first mode. *)
Definition drm_pick_des_mode (modes : list drm_display_mode)
  : option drm_display_mode :=
  match find (fun m => has_flag (mode_type m) DRM_MODE_TYPE_PREFERRED) modes with
  | Some m => Some m
  | None => match modes with m :: _ => Some m | [] => None end
  end.

(** /* Find out if crtc has been assigned before */ *)
Definition crtc_assigned_elsewhere (d : dev) (out : drm_output) (c : nat) : bool :=
  existsb (fun oe => negb (output_id out =? output_id (outputs d oe))
                     && ptr_eqb (output_crtc (outputs d oe)) (Some c))
    (output_list d).

(** The clone search: the first [modes] of [output] (outer loop over the
    other outputs, then over [output]'s modes, then over theirs) equal to a
    mode of another output that shares a clone bit and sits on [c]. *)
Fixpoint clone_search (d : dev) (out : drm_output) (c : nat) (os : list nat)
  : option drm_display_mode :=
  match os with
  | [] => None
  | oe :: os' =>
      let oeq := outputs d oe in
      if output_id out =? output_id oeq then clone_search d out c os'
      else
        match find (fun m =>
                 existsb (fun me =>
                     drm_mode_equal m me
                     && negb (Z.land (output_possible_clones out)
                                     (output_possible_clones oeq) =? 0)
                     && ptr_eqb (output_crtc oeq) (Some c))
                   (output_modes oeq))
               (output_modes out) with
        | Some m => Some m
        | None => clone_search d out c os'
        end
  end.

(** The scan over [crtc_list] with its index [c]. *)
Fixpoint pick_scan (d : dev) (o : nat) (des_mode : drm_display_mode)
  (idx : Z) (cs : list nat) : dev :=
  match cs with
  | [] => d
  | crtc :: cs' =>
      let out := outputs d o in
      if Z.land (output_possible_crtcs out) (Z.shiftl 1 idx) =? 0 then
        pick_scan d o des_mode (idx + 1) cs'
      else if crtc_assigned_elsewhere d out crtc then
        pick_scan d o des_mode (idx + 1) cs'
      else
        let des_mode := match clone_search d out crtc (output_list d) with
                        | Some m => m | None => des_mode end in
        (* Found a CRTC to attach to, do it ! *)
        let d := dev_upd_output o (set_output_crtc (Some crtc)) d in
        let d := dev_upd_crtc crtc (fun cr =>
                   set_crtc_desired (Some des_mode) (crtc_desired_x cr)
                     (crtc_desired_y cr) cr) d in
        dev_upd_output o (set_output_initial 0 0) d
  end.

(** The body of the loop of [drm_pick_crtcs] for one output, after
    [output->crtc = NULL]. *)
Definition pick_output_body (d : dev) (o : nat) : dev :=
  let out := outputs d o in
  if negb (output_status_eqb (output_status_of out) output_status_connected) then d
  else match output_modes out with
  | [] => d
  | _ :: _ =>
      match drm_pick_des_mode (output_modes out) with
      | Some des_mode => pick_scan d o des_mode (-1 + 1) (crtc_list d)
      | None => d
      end
  end.

Definition pick_output (d : dev) (o : nat) : dev :=
  pick_output_body (dev_upd_output o (set_output_crtc None) d) o.

Definition drm_pick_crtcs (d : dev) : dev :=
  fold_left pick_output (output_list d) d.

(** ** Mode probing *)

(** Modelled from the spec: [drm_mode_output_list_update] (drm_modes.c):
    merges [probed] into [usable] keyed by full timing equality; a probed
    mode equal to a usable one hands over its status and is dropped, any
    other is moved to the tail of [usable]; [probed] ends empty. *)
Fixpoint mode_list_merge (modes probed : list drm_display_mode)
  : list drm_display_mode :=
  match probed with
  | [] => modes
  | pm :: probed' =>
      let modes' :=
        if existsb (drm_mode_equal pm) modes then
          (fix upd (l : list drm_display_mode) :=
             match l with
             | [] => []
             | m :: l' => if drm_mode_equal pm m
                          then set_mode_status (mode_status pm) m :: l'
                          else m :: upd l'
             end) modes
        else modes ++ [pm] in
      mode_list_merge modes' probed'
  end.

Definition drm_mode_output_list_update (out : drm_output) : drm_output :=
  set_output_mode_lists
    (mode_list_merge (output_modes out) (output_probed_modes out)) [] out.

(** Modelled from the spec: [drm_mode_validate_size] (drm_modes.c),
    "size-bound filtering": a mode wider or taller than the bound is marked
    not ok. *)
Definition drm_mode_validate_size (maxX maxY : Z) (modes : list drm_display_mode)
  : list drm_display_mode :=
  map (fun m =>
         if (0 <? maxX) && (maxX <? hdisplay m) then set_mode_status MODE_VIRTUAL_X m
         else if (0 <? maxY) && (maxY <? vdisplay m) then set_mode_status MODE_VIRTUAL_Y m
         else m) modes.

(** Modelled from the spec: [drm_mode_prune_invalid] (drm_modes.c) drops
    every mode not marked ok. *)
Definition drm_mode_prune_invalid (modes : list drm_display_mode)
  : list drm_display_mode :=
  filter (fun m => mode_status_is_ok (mode_status m)) modes.

(** Modelled from the spec: [drm_mode_list_concat(head, new)] (drm_modes.c)
    moves every entry of [head] to the tail of [new]. *)
Definition drm_mode_list_concat (head new : list drm_display_mode)
  : list drm_display_mode * list drm_display_mode := ([], new ++ head).

(** Modelled from the spec: [drm_mode_vrefresh] (drm_modes.c) derives the
    refresh rate (Hz) from the timing fields unless already set. *)
Definition drm_mode_vrefresh (m : drm_display_mode) : Z :=
  if 0 <? vrefresh m then vrefresh m
  else if (0 <? htotal m) && (0 <? vtotal m) then
    let r := clock m * 1000 / (htotal m * vtotal m) in
    let r := if has_flag (mode_flags m) V_INTERLACE then r * 2 else r in
    let r := if has_flag (mode_flags m) V_DBLSCAN then r / 2 else r in
    if 1 <? vscan m then r / vscan m else r
  else 0.

(** Modelled from the spec: the order of [drm_mode_sort] (drm_modes.c):
    width, then height, then refresh descending, then preferred first; it
    is a stable sort (insertion keeps equal keys in list order). *)
Definition mode_before (a b : drm_display_mode) : bool :=
  (hdisplay a <? hdisplay b)
  || ((hdisplay a =? hdisplay b)
      && ((vdisplay a <? vdisplay b)
          || ((vdisplay a =? vdisplay b)
              && ((drm_mode_vrefresh b <? drm_mode_vrefresh a)
                  || ((drm_mode_vrefresh a =? drm_mode_vrefresh b)
                      && has_flag (mode_type a) DRM_MODE_TYPE_PREFERRED
                      && negb (has_flag (mode_type b) DRM_MODE_TYPE_PREFERRED)))))).

Fixpoint mode_insert (m : drm_display_mode) (l : list drm_display_mode) :=
  match l with
  | [] => [m]
  | x :: l' => if mode_before m x then m :: l else x :: mode_insert m l'
  end.

Fixpoint drm_mode_sort (l : list drm_display_mode) : list drm_display_mode :=
  match l with
  | [] => []
  | m :: l' => mode_insert m (drm_mode_sort l')
  end.

Section Probe.
Variable F : drm_funcs.

(** [drm_crtc_probe_single_output_modes] up to [drm_mode_prune_invalid]
    for a connected output: detection, [get_modes] (each
    [drm_mode_probed_add] is a [list_add] at the head of [probed_modes]),
    the list update, size validation, [mode_valid], pruning. *)
Definition probe_validate (o : nat) (maxX maxY : Z) (out : drm_output) : drm_output :=
  let '(added, ret_) := get_modes F o in
  let out := set_output_mode_lists (output_modes out)
               (rev added ++ output_probed_modes out) out in
  let out := if negb (ret_ =? 0) then drm_mode_output_list_update out else out in
  let modes := output_modes out in
  let modes := if negb (maxX =? 0) && negb (maxY =? 0)
               then drm_mode_validate_size maxX maxY modes else modes in
  let modes := map (fun m => if mode_status_is_ok (mode_status m)
                             then set_mode_status (mode_valid F o m) m else m) modes in
  let modes := drm_mode_prune_invalid modes in
  set_output_mode_lists modes (output_probed_modes out) out.

(** The rest: the standard-mode fallback, the sort and the refresh rates
    ([drm_mode_set_crtcinfo] only fills CRTC timing fields, which the mode
    record does not carry). *)
Definition probe_finish (out : drm_output) : drm_output :=
  let out :=
    match output_modes out with
    | [] =>
        let stdmode := drm_mode_duplicate std_mode0 in
        let probed := stdmode :: output_probed_modes out in
        let '(probed', modes') := drm_mode_list_concat probed (output_modes out) in
        set_output_mode_lists modes' probed' out
    | _ :: _ => out
    end in
  let modes := drm_mode_sort (output_modes out) in
  let modes := map (fun m => set_mode_vrefresh (drm_mode_vrefresh m) m) modes in
  set_output_mode_lists modes (output_probed_modes out) out.

Definition drm_crtc_probe_single_output_modes (o : nat) (maxX maxY : Z) (d : dev)
  : dev :=
  let out := outputs d o in
  (* set all modes to the unverified state *)
  let out := set_output_mode_lists
               (map (set_mode_status MODE_UNVERIFIED) (output_modes out))
               (output_probed_modes out) out in
  let out := set_output_status (detect F o) out in
  if output_status_eqb (output_status_of out) output_status_disconnected
  then dev_upd_output o (fun _ => out) d
  else dev_upd_output o (fun _ => probe_finish (probe_validate o maxX maxY out)) d.

(** [drm_crtc_probe_output_modes]: probes every output of the list. *)
Fixpoint probe_outputs (os : list nat) (maxX maxY : Z) (d : dev) : dev :=
  match os with
  | [] => d
  | o :: os' => probe_outputs os' maxX maxY (drm_crtc_probe_single_output_modes o maxX maxY d)
  end.

Definition drm_crtc_probe_output_modes (d : dev) (maxX maxY : Z) : dev :=
  probe_outputs (output_list d) maxX maxY d.

End Probe.

(** ** Output property slots *)

Definition set_output_props (ids : list Z) (vals : list N) (o : drm_output)
  : drm_output :=
  mkOutput (output_id o) (output_status_of o) (output_crtc o) (output_modes o)
    (output_probed_modes o) (output_possible_crtcs o) (output_possible_clones o)
    (output_initial_x o) (output_initial_y o) ids vals.

(** [drm_output_attach_property]: the first slot whose id is 0 takes the
    property.  [property_ids] and [property_values] are the two arrays of
    [DRM_OUTPUT_MAX_PROPERTY] entries of [struct drm_output]. *)
Definition drm_output_attach_property (output : drm_output) (property : drm_property)
  (init_val : N) : Z * drm_output :=
  let i := index_of_id (output_property_ids output) 0 0 DRM_OUTPUT_MAX_PROPERTY in
  if Nat.eqb i DRM_OUTPUT_MAX_PROPERTY then (- EINVAL, output)
  else (0, set_output_props
             (list_set (output_property_ids output) i (prop_id property))
             (list_set (output_property_values output) i init_val) output).

Definition drm_output_property_set_value (output : drm_output) (property : drm_property)
  (value : N) : Z * drm_output :=
  let i := index_of_id (output_property_ids output) (prop_id property) 0
             DRM_OUTPUT_MAX_PROPERTY in
  if Nat.eqb i DRM_OUTPUT_MAX_PROPERTY then (- EINVAL, output)
  else (0, set_output_props (output_property_ids output)
             (list_set (output_property_values output) i value) output).

(** [drm_output_property_get_value]; [val] is [*val] on entry, written
    only when the property is found. *)
Definition drm_output_property_get_value (output : drm_output) (property : drm_property)
  (val : N) : Z * N :=
  let i := index_of_id (output_property_ids output) (prop_id property) 0
             DRM_OUTPUT_MAX_PROPERTY in
  let val := if Nat.eqb i DRM_OUTPUT_MAX_PROPERTY then val
             else nth_u64 (output_property_values output) i in
  if Nat.eqb i DRM_OUTPUT_MAX_PROPERTY then (- EINVAL, val) else (0, val).

(** ** User-space mode descriptions *)

Definition DRM_DISPLAY_MODE_LEN : nat := 32.

(** [struct drm_mode_modeinfo] (drm.h): [clock], [vrefresh], [flags] and
    [type] are 32-bit unsigned, the horizontal and vertical timings 16-bit
    unsigned; [struct drm_display_mode] holds [int]s and an unsigned
    [flags]. *)
Record drm_mode_modeinfo := mkModeinfo {
  umode_clock : Z;
  umode_hdisplay : Z;
  umode_hsync_start : Z;
  umode_hsync_end : Z;
  umode_htotal : Z;
  umode_hskew : Z;
  umode_vdisplay : Z;
  umode_vsync_start : Z;
  umode_vsync_end : Z;
  umode_vtotal : Z;
  umode_vscan : Z;
  umode_vrefresh : Z;
  umode_flags : Z;
  umode_type : Z;
  umode_name : string }.

(** C's integer conversions: to an unsigned type of [w] bits (modulo
    [2^w]), and from a 32-bit unsigned value to [int]. *)
Definition to_u16 (v : Z) : Z := v mod 2 ^ 16.
Definition to_u32 (v : Z) : Z := v mod 2 ^ 32.
Definition to_s32 (v : Z) : Z :=
  let u := v mod 2 ^ 32 in if u <? 2 ^ 31 then u else u - 2 ^ 32.

(** [strncpy(out->name, in->name, DRM_DISPLAY_MODE_LEN);
    out->name[DRM_DISPLAY_MODE_LEN-1] = 0]. *)
Definition mode_name_copy (name : string) : string :=
  substring 0 (DRM_DISPLAY_MODE_LEN - 1) name.

Definition drm_crtc_convert_to_umode (in_ : drm_display_mode) : drm_mode_modeinfo :=
  mkModeinfo (to_u32 (clock in_)) (to_u16 (hdisplay in_)) (to_u16 (hsync_start in_))
    (to_u16 (hsync_end in_)) (to_u16 (htotal in_)) (to_u16 (hskew in_))
    (to_u16 (vdisplay in_)) (to_u16 (vsync_start in_)) (to_u16 (vsync_end in_))
    (to_u16 (vtotal in_)) (to_u16 (vscan in_)) (to_u32 (vrefresh in_))
    (to_u32 (mode_flags in_)) (to_u32 (mode_type in_)) (mode_name_copy (mode_name in_)).

(** [drm_crtc_convert_umode(out, in)]: every field of [out] but its status
    is overwritten. *)
Definition drm_crtc_convert_umode (out : drm_display_mode) (in_ : drm_mode_modeinfo)
  : drm_display_mode :=
  mkMode (mode_name_copy (umode_name in_)) (mode_status out) (to_s32 (umode_type in_))
    (to_s32 (umode_clock in_)) (umode_hdisplay in_) (umode_hsync_start in_)
    (umode_hsync_end in_) (umode_htotal in_) (umode_hskew in_) (umode_vdisplay in_)
    (umode_vsync_start in_) (umode_vsync_end in_) (umode_vtotal in_) (umode_vscan in_)
    (to_s32 (umode_vrefresh in_)) (umode_flags in_).

(** ** Framebuffer objects and their ioctls *)

(** [drm_framebuffer_create]: [alloc_ok] is the outcome of the [kzalloc],
    [fb] the address it returns, [pre_get_ok] the one of [idr_pre_get]. *)
Definition drm_framebuffer_create (alloc_ok pre_get_ok : bool) (fb : nat) (d : dev)
  : option nat * dev :=
  if negb alloc_ok then (None, d) else
  let '(id, idr') := Idr.drm_idr_get drm_obj pre_get_ok (crtc_idr d) (ObjFb fb) in
  (Some fb, mkDev (crtc_list d) (crtcs d) (output_list d) (outputs d)
              (fb :: fb_list d) (heap_upd (fb_ids d) fb id) (num_fb d + 1) idr'
              (props d) (trace d)).

Fixpoint crtc_from_fb_scan (d : dev) (fb : nat) (cs : list nat) : option nat :=
  match cs with
  | [] => None
  | c :: cs' => if ptr_eqb (crtc_fb (crtcs d c)) (Some fb) then Some c
                else crtc_from_fb_scan d fb cs'
  end.

(** [drm_crtc_from_fb]. *)
Definition drm_crtc_from_fb (d : dev) (fb : nat) : option nat :=
  crtc_from_fb_scan d fb (crtc_list d).

(** [drm_mode_rmfb]; [fbs] is the file's [file_priv->fbs] list, returned
    updated.  An [idr_find] that yields another kind of object is treated
    as not found. *)
Definition drm_mode_rmfb (fbs : list nat) (id : Z) : M (Z * list nat) :=
  d <- get ;;
  match Idr.idr_find drm_obj (crtc_idr d) id with
  | Some (ObjFb fb) =>
      if negb (id =? fb_ids d fb) then ret (- EINVAL, fbs) else
      let found := existsb (Nat.eqb fb) fbs in
      if negb found then ret (- EINVAL, fbs) else
      modify (drm_framebuffer_destroy fb) ;;;
      ret (0, list_del fb fbs)
  | _ => ret (- EINVAL, fbs)
  end.

Fixpoint fb_release_all (fbs : list nat) : M unit :=
  match fbs with
  | [] => ret tt
  | fb :: fbs' => modify (drm_framebuffer_destroy fb) ;;; fb_release_all fbs'
  end.

(** [drm_fb_release]: destroys every framebuffer of the file; the file's
    list ends empty. *)
Definition drm_fb_release (fbs : list nat) : M (list nat) :=
  fb_release_all fbs ;;; ret [].

(** ** Reading back a CRTC *)




(** ** The cursor ioctl *)

Definition EFAULT : Z := 14.

(** An entry of [dev->object_hash]: whether its [type] is
    [drm_buffer_type], and the buffer object it embeds. *)
Record drm_user_object := mkUserObject {
  uo_is_buffer : bool;
  uo_bo : nat }.

Fixpoint drm_ht_find_item (ht : list (Z * drm_user_object)) (key : Z)
  : option drm_user_object :=
  match ht with
  | [] => None
  | (k, uo) :: ht' => if k =? key then Some uo else drm_ht_find_item ht' key
  end.

(** [drm_get_buffer_object]: the error code and [*bo]. *)
Definition drm_get_buffer_object (ht : list (Z * drm_user_object)) (handle : Z)
  : Z * option nat :=
  match drm_ht_find_item ht handle with
  | None => (- EINVAL, None)
  | Some uo => if negb (uo_is_buffer uo) then (- EINVAL, None) else (0, Some (uo_bo uo))
  end.

(** [struct drm_mode_cursor]. *)
Record drm_mode_cursor := mkCursorReq {
  cur_flags : Z;
  cur_crtc : Z;
  cur_x : Z;
  cur_y : Z;
  cur_width : Z;
  cur_height : Z;
  cur_handle : Z }.

(** The optional cursor hooks of a CRTC's [funcs], as the value they
    return, and the calls made to them. *)
Record drm_crtc_cursor_funcs := mkCursorFuncs {
  cursor_set : option (nat -> option nat -> Z -> Z -> Z);
  cursor_move : option (nat -> Z -> Z -> Z) }.

Inductive cursor_call :=
| Call_cursor_set (c : nat) (bo : option nat) (width height : Z)
| Call_cursor_move (c : nat) (x y : Z).

Section CursorIoctl.
(** [crtc->funcs] of each CRTC, [dev->object_hash], and the two request
    bits [DRM_MODE_CURSOR_BO] and [DRM_MODE_CURSOR_MOVE] of the user-space
    header. *)
Variable CF : nat -> drm_crtc_cursor_funcs.
Variable object_hash : list (Z * drm_user_object).
Variables DRM_MODE_CURSOR_BO DRM_MODE_CURSOR_MOVE : Z.

Definition cursor_move_step (c : nat) (req : drm_mode_cursor) (ret : Z)
  (calls : list cursor_call) : Z * list cursor_call :=
  if has_flag (cur_flags req) DRM_MODE_CURSOR_MOVE then
    match cursor_move (CF c) with
    | Some f => (f c (cur_x req) (cur_y req),
                 calls ++ [Call_cursor_move c (cur_x req) (cur_y req)])
    | None => (- EFAULT, calls)
    end
  else (ret, calls).

Definition cursor_on_crtc (c : nat) (req : drm_mode_cursor) : Z * list cursor_call :=
  let ret := 0 in
  if has_flag (cur_flags req) DRM_MODE_CURSOR_BO then
    let '(ret, bo) := if negb (cur_handle req =? 0)
                      then drm_get_buffer_object object_hash (cur_handle req)
                      else (ret, None) in
    if negb (ret =? 0) then (- EINVAL, []) else
    match cursor_set (CF c) with
    | Some f => cursor_move_step c req (f c bo (cur_width req) (cur_height req))
                  [Call_cursor_set c bo (cur_width req) (cur_height req)]
    | None => (- EFAULT, [])
    end
  else cursor_move_step c req ret [].

(** [drm_mode_cursor_ioctl]: the return value and the hooks called. *)
Definition drm_mode_cursor_ioctl (d : dev) (req : drm_mode_cursor) : Z * list cursor_call :=
  if cur_flags req =? 0 then (- EINVAL, []) else
  match Idr.idr_find drm_obj (crtc_idr d) (cur_crtc req) with
  | Some (ObjCrtc c) =>
      if negb (crtc_id (crtcs d c) =? cur_crtc req) then (- EINVAL, [])
      else cursor_on_crtc c req
  | _ => (- EINVAL, [])
  end.

End CursorIoctl.

(** ** Copying to user space *)

(** A store into a user-space array: the array's pointer, the element
    index and the value ([put_user] of a 32- or 64-bit value, or
    [copy_to_user] of one [struct drm_mode_modeinfo]). *)
Inductive user_write :=
| W_u32 (ptr idx : Z) (v : Z)
| W_u64 (ptr idx : Z) (v : N)
| W_umode (ptr idx : Z) (m : drm_mode_modeinfo).

(** The fields of [struct drm_mode_card_res] that hold counts and array
    pointers (the size limits copied from [mode_config] are not part of
    the device model). *)
Record drm_mode_card_res := mkCardRes {
  count_fbs : Z;
  count_crtcs : Z;
  count_outputs : Z;
  fb_id_ptr : Z;
  crtc_id_ptr : Z;
  output_id_ptr : Z }.

(** The fields of [struct drm_mode_get_output] that the device model
    carries (type, type id, physical size and subpixel order are not). *)
Record drm_mode_get_output := mkGetOutput {
  go_output : Z;
  go_connection : output_status;
  go_crtc : Z;
  go_crtcs : Z;
  go_clones : Z;
  go_count_modes : Z;
  go_modes_ptr : Z;
  go_count_props : Z;
  go_props_ptr : Z;
  go_prop_values_ptr : Z }.

Section UserCopy.
(** Whether element [idx] of the user array at [ptr] can be written;
    [put_user] and [copy_to_user] fail on the others. *)
Variable put_ok : Z -> Z -> bool.

(** [list_for_each_entry(...) { if (put_user(id, ptr + copied)) { ret =
    -EFAULT; goto out; } copied++; }]: whether every store succeeded, and
    the stores made. *)
Fixpoint put_ids (ptr copied : Z) (ids : list Z) : bool * list user_write :=
  match ids with
  | [] => (true, [])
  | id :: ids' =>
      if put_ok ptr copied then
        let '(ok, w) := put_ids ptr (copied + 1) ids' in (ok, W_u32 ptr copied id :: w)
      else (false, [])
  end.

(** [drm_mode_getresources]: the return value, the updated request and
    the stores into user memory. *)
Definition drm_mode_getresources (d : dev) (card_res : drm_mode_card_res)
  : Z * drm_mode_card_res * list user_write :=
  let fb_count := Z.of_nat (List.length (fb_list d)) in
  let crtc_count := Z.of_nat (List.length (crtc_list d)) in
  let output_count := Z.of_nat (List.length (output_list d)) in
  let '(ok1, w1) :=
    if fb_count <=? count_fbs card_res
    then put_ids (fb_id_ptr card_res) 0 (map (fb_ids d) (fb_list d)) else (true, []) in
  if negb ok1 then (- EFAULT, card_res, w1) else
  let card_res := mkCardRes fb_count (count_crtcs card_res) (count_outputs card_res)
                    (fb_id_ptr card_res) (crtc_id_ptr card_res) (output_id_ptr card_res) in
  let '(ok2, w2) :=
    if crtc_count <=? count_crtcs card_res
    then put_ids (crtc_id_ptr card_res) 0
           (map (fun c => crtc_id (crtcs d c)) (crtc_list d)) else (true, []) in
  if negb ok2 then (- EFAULT, card_res, w1 ++ w2) else
  let card_res := mkCardRes (count_fbs card_res) crtc_count (count_outputs card_res)
                    (fb_id_ptr card_res) (crtc_id_ptr card_res) (output_id_ptr card_res) in
  let '(ok3, w3) :=
    if output_count <=? count_outputs card_res
    then put_ids (output_id_ptr card_res) 0
           (map (fun o => output_id (outputs d o)) (output_list d)) else (true, []) in
  if negb ok3 then (- EFAULT, card_res, w1 ++ w2 ++ w3) else
  let card_res := mkCardRes (count_fbs card_res) (count_crtcs card_res) output_count
                    (fb_id_ptr card_res) (crtc_id_ptr card_res) (output_id_ptr card_res) in
  (0, card_res, w1 ++ w2 ++ w3).

(** The mode copy loop of [drm_mode_getoutput]. *)
Fixpoint copy_umodes (ptr copied : Z) (modes : list drm_display_mode)
  : bool * list user_write :=
  match modes with
  | [] => (true, [])
  | m :: modes' =>
      if put_ok ptr copied then
        let '(ok, w) := copy_umodes ptr (copied + 1) modes' in
        (ok, W_umode ptr copied (drm_crtc_convert_to_umode m) :: w)
      else (false, [])
  end.

(** The property copy loop: [property_ids[i]] and [property_values[i]] of
    every slot [i] whose id is nonzero. *)
Fixpoint copy_props (props_ptr values_ptr copied : Z) (slots : list nat)
  (ids : list Z) (vals : list N) : bool * list user_write :=
  match slots with
  | [] => (true, [])
  | i :: slots' =>
      if negb (nth i ids 0 =? 0) then
        if negb (put_ok props_ptr copied) then (false, []) else
        if negb (put_ok values_ptr copied) then (false, [W_u32 props_ptr copied (nth i ids 0)])
        else
        let '(ok, w) := copy_props props_ptr values_ptr (copied + 1) slots' ids vals in
        (ok, W_u32 props_ptr copied (nth i ids 0) :: W_u64 values_ptr copied (nth_u64 vals i) :: w)
      else copy_props props_ptr values_ptr copied slots' ids vals
  end.

Definition props_count (ids : list Z) : Z :=
  Z.of_nat (List.length
    (filter (fun i => negb (nth i ids 0 =? 0)) (seq 0 DRM_OUTPUT_MAX_PROPERTY))).

(** [drm_mode_getoutput]; [max_width] and [max_height] are
    [dev->mode_config]'s, passed to the prober. An [idr_find] that yields
    another kind of object is treated as not found. *)
Definition drm_mode_getoutput (F : drm_funcs) (max_width max_height : Z)
  (out_resp : drm_mode_get_output) : M (Z * drm_mode_get_output * list user_write) :=
  d <- get ;;
  match Idr.idr_find drm_obj (crtc_idr d) (go_output out_resp) with
  | Some (ObjOutput o) =>
      if negb (output_id (outputs d o) =? go_output out_resp)
      then ret (- EINVAL, out_resp, []) else
      let mode_count := Z.of_nat (List.length (output_modes (outputs d o))) in
      let props_count := props_count (output_property_ids (outputs d o)) in
      (if go_count_modes out_resp =? 0
       then modify (drm_crtc_probe_single_output_modes F o max_width max_height)
       else ret tt) ;;;
      d <- get ;;
      let output := outputs d o in
      let crtc := match output_crtc output with
                  | Some c => crtc_id (crtcs d c) | None => 0 end in
      let out_resp :=
        mkGetOutput (go_output out_resp) (output_status_of output) crtc
          (output_possible_crtcs output) (output_possible_clones output)
          (go_count_modes out_resp) (go_modes_ptr out_resp) (go_count_props out_resp)
          (go_props_ptr out_resp) (go_prop_values_ptr out_resp) in
      let '(ok1, w1) :=
        if (mode_count <=? go_count_modes out_resp) && negb (mode_count =? 0)
        then copy_umodes (go_modes_ptr out_resp) 0 (output_modes output)
        else (true, []) in
      if negb ok1 then ret (- EFAULT, out_resp, w1) else
      let out_resp :=
        mkGetOutput (go_output out_resp) (go_connection out_resp) (go_crtc out_resp)
          (go_crtcs out_resp) (go_clones out_resp) mode_count (go_modes_ptr out_resp)
          (go_count_props out_resp) (go_props_ptr out_resp) (go_prop_values_ptr out_resp) in
      let '(ok2, w2) :=
        if (props_count <=? go_count_props out_resp) && negb (props_count =? 0)
        then copy_props (go_props_ptr out_resp) (go_prop_values_ptr out_resp) 0
               (seq 0 DRM_OUTPUT_MAX_PROPERTY)
               (output_property_ids output) (output_property_values output)
        else (true, []) in
      if negb ok2 then ret (- EFAULT, out_resp, w1 ++ w2) else
      let out_resp :=
        mkGetOutput (go_output out_resp) (go_connection out_resp) (go_crtc out_resp)
          (go_crtcs out_resp) (go_clones out_resp) (go_count_modes out_resp)
          (go_modes_ptr out_resp) props_count (go_props_ptr out_resp)
          (go_prop_values_ptr out_resp) in
      ret (0, out_resp, w1 ++ w2)
  | _ => ret (- EINVAL, out_resp, [])
  end.

End UserCopy.

(** ** Concrete configurations *)

Module Examples.

Definition blank_mode : drm_display_mode :=
  DRM_MODE "" 0 0 0 0 0 0 0 0 0 0 0 0 0.

Definition blank_crtc : drm_crtc :=
  mkCrtc 0 false blank_mode 0 0 None None 0 0.

Definition blank_output : drm_output :=
  mkOutput 0 output_status_disconnected None [] [] 0 0 0 0 [] [].

Definition blank_property : drm_property := mkProperty 0 0 [] [].

(** Two CRTCs scanning out framebuffers 10 and 11. *)
Definition fb_dev : dev :=
  mkDev [0; 1]%nat
    (fun c => if Nat.eqb c 0 then set_crtc_fb (Some 10%nat) blank_crtc
              else set_crtc_fb (Some 11%nat) blank_crtc)
    [] (fun _ => blank_output) [10; 11]%nat Z.of_nat 2
    [(10, ObjFb 10); (11, ObjFb 11)] (fun _ => blank_property) [].

(** Output 0 (id 1) carrying property 0 (id 2) with the given flags and
    values. *)
Definition prop_dev (flags : Z) (values : list N) : dev :=
  mkDev [] (fun _ => blank_crtc) [0%nat]
    (fun _ => mkOutput 1 output_status_connected None [] [] 0 0 0 0 [2] [0%N])
    [] (fun _ => 0) 0 [(1, ObjOutput 0); (2, ObjProperty 0)]
    (fun _ => mkProperty 2 flags values []) [].

(** A driver whose callbacks accept everything, except the fixups named by
    [reject_output] and [reject_crtc]. *)
Definition funcs_ex (reject_output reject_crtc : nat -> bool)
  (set_prop : option (nat -> N -> Z)) : drm_funcs :=
  mkFuncs (fun _ => output_status_connected) (fun _ => ([], 0))
    (fun _ _ => MODE_OK)
    (fun o _ adj => (negb (reject_output o), adj))
    (fun _ => set_prop)
    (fun c _ adj => (negb (reject_crtc c), adj))
    (fun _ => true).

(** Output 0 bound to CRTC 0 (which shows [blank_mode] at (0, 0)). *)
Definition modeset_dev : dev :=
  mkDev [0%nat] (fun _ => blank_crtc) [0%nat]
    (fun _ => set_output_crtc (Some 0%nat) blank_output)
    [] (fun _ => 0) 0 [] (fun _ => blank_property) [].

(** Output 0 bound to no CRTC. *)
Definition idle_dev : dev :=
  mkDev [0%nat] (fun _ => blank_crtc) [0%nat] (fun _ => blank_output)
    [] (fun _ => 0) 0 [] (fun _ => blank_property) [].

Definition mode_1024 : drm_display_mode :=
  DRM_MODE "1024x768" DRM_MODE_TYPE_DRIVER 65000 1024 1048 1184 1344 0
    768 771 777 806 0 (Z.lor V_NHSYNC V_NVSYNC).

Definition mode_1920 : drm_display_mode :=
  DRM_MODE "1920x1080" DRM_MODE_TYPE_PREFERRED 148500 1920 2008 2052 2200 0
    1080 1084 1089 1125 0 (Z.lor V_PHSYNC V_PVSYNC).

Definition mode_1280 : drm_display_mode :=
  DRM_MODE "1280x720" DRM_MODE_TYPE_DRIVER 74250 1280 1390 1430 1650 0
    720 725 730 750 0 (Z.lor V_PHSYNC V_PVSYNC).

(** O1 (pointer 0, id 1): connected, possible CRTCs 0b11, modes
    1920x1080 (preferred) and 1280x720; O2 (pointer 1, id 2):
    disconnected, left bound to CRTC 1 from an earlier configuration;
    CRTCs C0 and C1. *)
Definition pick_dev : dev :=
  mkDev [0; 1]%nat (fun _ => blank_crtc) [0; 1]%nat
    (fun o => if Nat.eqb o 0
              then mkOutput 1 output_status_connected None [mode_1920; mode_1280]
                     [] 3 0 0 0 [] []
              else mkOutput 2 output_status_disconnected (Some 1%nat) [] [] 3 0 0 0
                     [] [])
    [] (fun _ => 0) 0 [] (fun _ => blank_property) [].

(** An output with sixteen property slots: slot 0 holds property id 5
    (value 7), the others are free; and one whose slots hold ids 1..16. *)
Definition slot_output : drm_output :=
  set_output_props (5 :: repeat 0 15) (7%N :: repeat 0%N 15) blank_output.

Definition full_output : drm_output :=
  set_output_props (map Z.of_nat (seq 1 16)) (repeat 0%N 16) blank_output.

Definition prop5 : drm_property := mkProperty 5 DRM_MODE_PROP_RANGE [0%N; 10%N] [].
Definition prop9 : drm_property := mkProperty 9 DRM_MODE_PROP_RANGE [0%N; 10%N] [].

(** A user-space description of a 1024x768 mode. *)
Definition umode_1024 : drm_mode_modeinfo :=
  mkModeinfo 65000 1024 1048 1184 1344 0 768 771 777 806 0 60
    (Z.lor V_NHSYNC V_NVSYNC) DRM_MODE_TYPE_USERDEF "1024x768".


(** CRTC 0 (id 1) enabled on [mode_1024], showing framebuffer 10 (id 3);
    outputs 0 and 2 of three are bound to it. *)
Definition crtc_dev : dev :=
  mkDev [0%nat] (fun _ => mkCrtc 1 true mode_1024 8 16 (Some 10%nat) None 0 0)
    [0; 1; 2]%nat
    (fun o => if Nat.eqb o 1 then blank_output else set_output_crtc (Some 0%nat) blank_output)
    [10%nat] (fun _ => 3) 1 [(1, ObjCrtc 0); (3, ObjFb 10)]
    (fun _ => blank_property) [].


(** A buffer object (handle 7) and an object of another type (handle 8). *)
Definition cursor_hash : list (Z * drm_user_object) :=
  [(7, mkUserObject true 40); (8, mkUserObject false 41)].

Definition cursor_funcs_ex : drm_crtc_cursor_funcs :=
  mkCursorFuncs (Some (fun _ _ _ _ => - EINVAL)) (Some (fun _ _ _ => 0)).


(** Output 0 (id 2), of unknown status, with the standard mode in its
    list. *)
Definition probe_dev : dev :=
  mkDev [0%nat] (fun _ => blank_crtc) [0%nat]
    (fun _ => mkOutput 2 output_status_unknown None [std_mode0] [] 0 0 0 0 [] [])
    [] (fun _ => 0) 0 [(2, ObjOutput 0)] (fun _ => blank_property) [].

End Examples.

(** * Properties of the embedding *)

Module IdrFacts.
Import Idr.
Section IdrFacts.
Variable A : Type.

Lemma idr_find_None_iff (l : idr A) (id : Z) :
  idr_find A l id = None <-> ~ In id (idr_ids A l).
Proof.
  induction l as [|[k p] l IH]; simpl.
  - tauto.
  - destruct (Z.eqb_spec k id) as [->|Hne].
    + split; [discriminate | tauto].
    + rewrite IH. intuition.
Qed.

Lemma idr_lowest_free_spec (l : idr A) fuel n m :
  idr_lowest_free A l fuel n = Some m -> n <= m /\ idr_find A l m = None.
Proof.
  revert n; induction fuel as [|fuel IH]; intros n H; simpl in H.
  - discriminate.
  - destruct (n >? MAX_ID); [discriminate|].
    destruct (idr_find A l n) eqn:E.
    + apply IH in H as [H1 H2]. split; [lia | exact H2].
    + injection H as <-. split; [lia | exact E].
Qed.

Lemma drm_idr_get_cases ok (l : idr A) p :
  drm_idr_get A ok l p = (0, l) \/
  exists n, drm_idr_get A ok l p = (n, (n, p) :: l) /\ 1 <= n /\
            idr_find A l n = None.
Proof.
  unfold drm_idr_get, idr_get_new_above.
  destruct ok; cbn [negb]; [|left; reflexivity].
  destruct (idr_lowest_free A l (S (List.length l)) 1) as [n|] eqn:E.
  - right. exists n. apply idr_lowest_free_spec in E as [E1 E2].
    split; [reflexivity | split; [lia | exact E2]].
  - left. reflexivity.
Qed.

Lemma idr_find_remove_same (l : idr A) id :
  idr_find A (drm_idr_put A l id) id = None.
Proof.
  unfold drm_idr_put, idr_remove.
  induction l as [|[k p] l IH]; simpl; [reflexivity|].
  destruct (Z.eqb_spec k id) as [->|Hne]; simpl.
  - exact IH.
  - apply Z.eqb_neq in Hne. rewrite Hne. exact IH.
Qed.

Lemma idr_ids_remove_incl (l : idr A) id x :
  In x (idr_ids A (drm_idr_put A l id)) -> In x (idr_ids A l).
Proof.
  unfold drm_idr_put, idr_remove, idr_ids. intros H.
  apply in_map_iff in H as [e [<- He]]. apply filter_In in He.
  apply in_map. tauto.
Qed.

Lemma idr_ids_remove_nodup (l : idr A) id :
  NoDup (idr_ids A l) -> NoDup (idr_ids A (drm_idr_put A l id)).
Proof.
  unfold drm_idr_put, idr_remove, idr_ids.
  induction l as [|[k p] l IH]; simpl; intros H; [constructor|].
  inversion H as [|? ? Hnin Hnd]; subst.
  destruct (negb (k =? id)); simpl; [|auto].
  constructor; [|auto].
  intros Hin. apply Hnin.
  apply in_map_iff in Hin as [e [<- He]]. apply filter_In in He.
  apply in_map. tauto.
Qed.

Lemma idr_run_nodup (l : idr A) ops :
  NoDup (idr_ids A l) -> NoDup (idr_ids A (fst (idr_run A l ops))).
Proof.
  revert l; induction ops as [|[ok p|id] ops IH]; intros l H; simpl; [exact H| |].
  - destruct (drm_idr_get_cases ok l p) as [E|[n [E [_ Hf]]]]; rewrite E.
    + specialize (IH l H). destruct (idr_run A l ops). exact IH.
    + assert (Hn : NoDup (idr_ids A ((n, p) :: l))).
      { simpl. constructor; [apply idr_find_None_iff; exact Hf | exact H]. }
      specialize (IH _ Hn). destruct (idr_run A ((n, p) :: l) ops). exact IH.
  - apply IH. apply idr_ids_remove_nodup. exact H.
Qed.

Lemma idr_run_keeps_absent (l : idr A) ops id :
  idr_find A l id = None -> ~ In id (snd (idr_run A l ops)) ->
  idr_find A (fst (idr_run A l ops)) id = None.
Proof.
  revert l; induction ops as [|[ok p|id'] ops IH]; intros l Hf Hn; simpl in *; [exact Hf| |].
  - destruct (drm_idr_get_cases ok l p) as [E|[n [E _]]]; rewrite E in *.
    + destruct (idr_run A l ops) as [l2 ids] eqn:R.
      simpl in Hn. specialize (IH l Hf). rewrite R in IH. apply IH. tauto.
    + destruct (idr_run A ((n, p) :: l) ops) as [l2 ids] eqn:R.
      simpl in Hn. specialize (IH ((n, p) :: l)). rewrite R in IH. apply IH; [|tauto].
      simpl. destruct (Z.eqb_spec n id); [tauto | exact Hf].
  - apply IH; [|exact Hn].
    apply idr_find_None_iff. intros Hin. apply idr_ids_remove_incl in Hin.
    apply idr_find_None_iff in Hf. contradiction.
Qed.

End IdrFacts.
End IdrFacts.

(** C7: every id [drm_idr_get] hands out on success is at least 1 and is
    not live; live ids never repeat; after [drm_idr_put] the id resolves to
    nothing, and keeps doing so until an allocation hands it out again. *)
Theorem drm_idr_get_put_contract (A : Type) (ops : list (Idr.idr_op A)) :
  let l := fst (Idr.idr_run A [] ops) in
  NoDup (Idr.idr_ids A l) /\
  (forall ok p,
     let '(id, l') := Idr.drm_idr_get A ok l p in
     id <> 0 -> 1 <= id /\ ~ In id (Idr.idr_ids A l) /\ Idr.idr_find A l' id = Some p) /\
  (forall id, Idr.idr_find A (Idr.drm_idr_put A l id) id = None) /\
  (forall id ops',
     ~ In id (snd (Idr.idr_run A (Idr.drm_idr_put A l id) ops')) ->
     Idr.idr_find A (fst (Idr.idr_run A (Idr.drm_idr_put A l id) ops')) id = None).
Proof.
  intros l.
  assert (Hnd : NoDup (Idr.idr_ids A l)).
  { apply IdrFacts.idr_run_nodup. constructor. }
  split; [exact Hnd|]. split; [|split].
  - intros ok p.
    destruct (IdrFacts.drm_idr_get_cases A ok l p) as [E|[n [E [Hn Hf]]]];
      rewrite E; intros Hz; [lia|].
    split; [exact Hn|]. split.
    + apply IdrFacts.idr_find_None_iff. exact Hf.
    + simpl. rewrite Z.eqb_refl. reflexivity.
  - intros id. apply IdrFacts.idr_find_remove_same.
  - intros id ops' Hn. apply IdrFacts.idr_run_keeps_absent; [|exact Hn].
    apply IdrFacts.idr_find_remove_same.
Qed.

Lemma drm_idr_get_put_contract_witness :
  let ops := [Idr.OpGet nat true 7%nat; Idr.OpGet nat true 8%nat; Idr.OpPut nat 1] in
  fst (Idr.drm_idr_get nat true (fst (Idr.idr_run nat [] ops)) 9%nat) = 1 /\
  (let '(id, l') := Idr.drm_idr_get nat true (fst (Idr.idr_run nat [] ops)) 9%nat in
   1 <= id /\ ~ In id (Idr.idr_ids nat (fst (Idr.idr_run nat [] ops)))
   /\ Idr.idr_find nat l' id = Some 9%nat) /\
  Idr.idr_find nat
    (fst (Idr.idr_run nat (Idr.drm_idr_put nat (fst (Idr.idr_run nat [] ops)) 2)
            [Idr.OpGet nat false 5%nat])) 2 = None.
Proof.
  intros ops.
  destruct (drm_idr_get_put_contract nat ops) as [_ [H1 [_ H3]]].
  split; [vm_compute; reflexivity|]. split.
  - specialize (H1 true 9%nat).
    destruct (Idr.drm_idr_get nat true (fst (Idr.idr_run nat [] ops)) 9%nat) as [id l'] eqn:E.
    apply H1. vm_compute in E. injection E as <- _. discriminate.
  - apply H3. vm_compute. intros [H|H]; [discriminate|exact H].
Defined.

Lemma enum_rename_found (value : N) (name : string) (l : list drm_property_enum) :
  In value (map enum_value l) ->
  exists pre e post,
    l = pre ++ e :: post /\ enum_value e = value /\ ~ In value (map enum_value pre) /\
    enum_rename value name l = Some (pre ++ mkEnum value (prop_name_copy name) :: post).
Proof.
  induction l as [|e l IH]; simpl; intros Hin; [contradiction|].
  destruct (N.eqb_spec (enum_value e) value) as [Heq|Hne].
  - exists [], e, l. subst value. simpl. repeat split; auto.
  - destruct Hin as [Hin|Hin]; [contradiction|].
    destruct (IH Hin) as [pre [e' [post [Hl [He [Hnin Hr]]]]]].
    rewrite Hr. exists (e :: pre), e', post. simpl.
    repeat split; auto.
    + rewrite Hl. reflexivity.
    + intros [H|H]; auto.
Qed.

(** C8: re-registering a value already among the enum entries of an
    enum property renames that entry in place (to the name truncated to
    [DRM_PROP_NAME_LEN - 1] characters) and succeeds; no entry is added,
    the other entries, the values array, the id and the flags are
    unchanged. *)
Theorem drm_property_add_enum_existing_renames (alloc_ok : bool)
  (p : drm_property) (index : nat) (value : N) (name : string) :
  has_flag (prop_flags p) DRM_MODE_PROP_ENUM = true ->
  In value (map enum_value (prop_enum_blob_list p)) ->
  exists pre e post,
    prop_enum_blob_list p = pre ++ e :: post /\ enum_value e = value /\
    ~ In value (map enum_value pre) /\
    drm_property_add_enum alloc_ok p index value name =
      (0, mkProperty (prop_id p) (prop_flags p) (prop_values p)
            (pre ++ mkEnum value (prop_name_copy name) :: post)).
Proof.
  intros Hf Hin. unfold drm_property_add_enum. rewrite Hf. simpl.
  destruct (enum_rename_found value name _ Hin) as [pre [e [post [Hl [He [Hn Hr]]]]]].
  exists pre, e, post. rewrite Hr. auto.
Qed.

Lemma drm_property_add_enum_existing_renames_witness :
  let p := mkProperty 5 DRM_MODE_PROP_ENUM [0%N; 1%N]
             [mkEnum 0 "Off"; mkEnum 1 "On"] in
  has_flag (prop_flags p) DRM_MODE_PROP_ENUM = true /\
  In 1%N (map enum_value (prop_enum_blob_list p)) /\
  exists pre e post,
    prop_enum_blob_list p = pre ++ e :: post /\ enum_value e = 1%N /\
    ~ In 1%N (map enum_value pre) /\
    drm_property_add_enum true p 1 1 "Enabled" =
      (0, mkProperty (prop_id p) (prop_flags p) (prop_values p)
            (pre ++ mkEnum 1 (prop_name_copy "Enabled") :: post)).
Proof.
  intros p. split; [reflexivity|]. split; [simpl; tauto|].
  apply drm_property_add_enum_existing_renames; [reflexivity | simpl; tauto].
Defined.

(** C10: on a property without the enum flag, [drm_property_add_enum]
    fails with [-EINVAL] and returns the property unchanged. *)
Theorem drm_property_add_enum_not_enum (alloc_ok : bool) (p : drm_property)
  (index : nat) (value : N) (name : string) :
  has_flag (prop_flags p) DRM_MODE_PROP_ENUM = false ->
  drm_property_add_enum alloc_ok p index value name = (- EINVAL, p).
Proof.
  intros Hf. unfold drm_property_add_enum. rewrite Hf. reflexivity.
Qed.

Lemma drm_property_add_enum_not_enum_witness :
  let p := mkProperty 3 DRM_MODE_PROP_RANGE [0%N; 100%N] [] in
  has_flag (prop_flags p) DRM_MODE_PROP_ENUM = false /\
  drm_property_add_enum true p 0 7 "x" = (- EINVAL, p).
Proof.
  intros p. split; [reflexivity|].
  apply drm_property_add_enum_not_enum. reflexivity.
Defined.

Lemma fb_remove_from_crtcs_spec (fb : nat) (cs : list nat) (d : dev) :
  let d' := fb_remove_from_crtcs fb cs d in
  crtc_list d' = crtc_list d /\ fb_list d' = fb_list d /\
  fb_ids d' = fb_ids d /\ crtc_idr d' = crtc_idr d /\
  (forall c, crtc_fb (crtcs d' c) = crtc_fb (crtcs d c) \/
             crtc_fb (crtcs d' c) = None) /\
  (forall c, In c cs -> crtc_fb (crtcs d' c) <> Some fb).
Proof.
  revert d; induction cs as [|c0 cs IH]; intros d; simpl.
  - repeat split; try (intros c []); auto.
  - set (d0 := if ptr_eqb (crtc_fb (crtcs d c0)) (Some fb)
               then dev_upd_crtc c0 (set_crtc_fb None) d else d).
    assert (H0 : crtc_list d0 = crtc_list d /\ fb_list d0 = fb_list d /\
                 fb_ids d0 = fb_ids d /\ crtc_idr d0 = crtc_idr d /\
                 (forall c, crtc_fb (crtcs d0 c) = crtc_fb (crtcs d c) \/
                            crtc_fb (crtcs d0 c) = None) /\
                 crtc_fb (crtcs d0 c0) <> Some fb).
    { unfold d0. destruct (ptr_eqb (crtc_fb (crtcs d c0)) (Some fb)) eqn:E.
      - simpl. unfold heap_upd. repeat split; auto.
        + intros c. destruct (Nat.eqb c c0); auto.
        + rewrite Nat.eqb_refl. simpl. discriminate.
      - repeat split; auto. intros Hc. rewrite Hc in E. simpl in E.
        rewrite Nat.eqb_refl in E. discriminate. }
    destruct H0 as [A1 [A2 [A3 [A4 [A5 A6]]]]].
    destruct (IH d0) as [B1 [B2 [B3 [B4 [B5 B6]]]]].
    fold d0.
    repeat split; try congruence.
    + intros c. destruct (B5 c) as [B|B]; [|auto]. rewrite B. apply A5.
    + intros c [<-|Hc]; [|auto].
      destruct (B5 c0) as [B|B]; rewrite B; [exact A6 | discriminate].
Qed.

Lemma list_del_in (p q : nat) (l : list nat) :
  In q l -> q <> p -> In q (list_del p l).
Proof.
  induction l as [|x l IH]; simpl; [tauto|].
  intros [->|H] Hne.
  - destruct (Nat.eqb_spec q p); [contradiction|]. left; reflexivity.
  - destruct (Nat.eqb x p); [exact H|]. right. auto.
Qed.

(** C9: [drm_framebuffer_destroy] first clears every CRTC's [fb] that is
    this framebuffer (the framebuffer still listed and its id still in the
    registry), and only then releases the id and unlinks it; if every
    CRTC's non-null [fb] was a listed framebuffer before, it still is
    after. *)
Theorem drm_framebuffer_destroy_no_dangling (fb : nat) (d : dev) :
  (forall c f, In c (crtc_list d) -> crtc_fb (crtcs d c) = Some f ->
               In f (fb_list d)) ->
  let d1 := fb_remove_from_crtcs fb (crtc_list d) d in
  drm_framebuffer_destroy fb d = fb_release fb d1 /\
  (forall c, In c (crtc_list d1) -> crtc_fb (crtcs d1 c) <> Some fb) /\
  fb_list d1 = fb_list d /\ crtc_idr d1 = crtc_idr d /\
  (forall c f, In c (crtc_list (drm_framebuffer_destroy fb d)) ->
     crtc_fb (crtcs (drm_framebuffer_destroy fb d) c) = Some f ->
     In f (fb_list (drm_framebuffer_destroy fb d))).
Proof.
  intros Hinv d1.
  destruct (fb_remove_from_crtcs_spec fb (crtc_list d) d)
    as [B1 [B2 [B3 [B4 [B5 B6]]]]]. fold d1 in B1, B2, B3, B4, B5, B6.
  split; [reflexivity|]. split; [rewrite B1; exact B6|].
  split; [exact B2|]. split; [exact B4|].
  unfold drm_framebuffer_destroy. fold d1. simpl.
  intros c f Hc Hf. rewrite B1 in Hc.
  destruct (B5 c) as [B|B]; rewrite Hf in B; [|discriminate].
  apply list_del_in.
  - rewrite B2. apply (Hinv c f Hc). symmetry. exact B.
  - intros ->. apply (B6 c Hc). exact Hf.
Qed.

Lemma drm_framebuffer_destroy_no_dangling_witness :
  (forall c f, In c (crtc_list Examples.fb_dev) ->
     crtc_fb (crtcs Examples.fb_dev c) = Some f -> In f (fb_list Examples.fb_dev)) /\
  (forall c f, In c (crtc_list (drm_framebuffer_destroy 10 Examples.fb_dev)) ->
     crtc_fb (crtcs (drm_framebuffer_destroy 10 Examples.fb_dev) c) = Some f ->
     In f (fb_list (drm_framebuffer_destroy 10 Examples.fb_dev))).
Proof.
  assert (H : forall c f, In c (crtc_list Examples.fb_dev) ->
     crtc_fb (crtcs Examples.fb_dev c) = Some f -> In f (fb_list Examples.fb_dev)).
  { simpl. intros c f [<-|[<-|[]]]; simpl; intros E; injection E as <-; tauto. }
  split; [exact H|].
  apply (drm_framebuffer_destroy_no_dangling 10 Examples.fb_dev H).
Defined.

Lemma index_of_id_found (l : list Z) (id : Z) (i max : nat) :
  (exists j, (i <= j < i + max)%nat /\ nth j l 0 = id) ->
  (index_of_id l id i max < i + max)%nat.
Proof.
  revert i; induction max as [|max IH]; intros i [j [Hj Hn]]; simpl; [lia|].
  destruct (Z.eqb_spec (nth i l 0) id); [lia|].
  assert (j <> i) by (intros ->; contradiction).
  assert (index_of_id l id (S i) max < S i + max)%nat
    by (apply IH; exists j; split; [lia | exact Hn]).
  lia.
Qed.

(** C2 (as the code has it): for an existing output and a property
    attached to it, the set-property ioctl returns [-EINVAL] without
    calling the driver when the property is immutable, when it is
    range-flagged and the value lies outside [values[0], values[1]], or
    when it is not range-flagged (enum, blob or no kind flag alike) and
    the value is none of its values; otherwise it calls the output's
    [set_property] and returns its result unchanged, or returns [-EINVAL]
    when the output has no such callback. *)
Theorem drm_mode_output_property_set_ioctl_result (F : drm_funcs) (d : dev)
  (r : drm_mode_output_set_property) (o pp : nat) :
  Idr.idr_find drm_obj (crtc_idr d) (req_output_id r) = Some (ObjOutput o) ->
  output_id (outputs d o) = req_output_id r ->
  (exists i, (i < DRM_OUTPUT_MAX_PROPERTY)%nat /\
             nth i (output_property_ids (outputs d o)) 0 = req_prop_id r) ->
  Idr.idr_find drm_obj (crtc_idr d) (req_prop_id r) = Some (ObjProperty pp) ->
  prop_id (props d pp) = req_prop_id r ->
  let p := props d pp in
  let v := req_value r in
  let accepted :=
    negb (has_flag (prop_flags p) DRM_MODE_PROP_IMMUTABLE) &&
    (if has_flag (prop_flags p) DRM_MODE_PROP_RANGE
     then N.leb (nth_u64 (prop_values p) 0) v && N.leb v (nth_u64 (prop_values p) 1)
     else existsb (fun x => N.eqb x v) (prop_values p)) in
  drm_mode_output_property_set_ioctl F r d =
    if accepted then
      match output_set_property F o with
      | Some set_property =>
          (set_property pp v, dev_log (Ev_output_set_property o pp v) d)
      | None => (- EINVAL, d)
      end
    else (- EINVAL, d).
Proof.
  intros Ho Hid Hattached Hp Hpid. cbv zeta.
  assert (Hi : Nat.eqb (index_of_id (output_property_ids (outputs d o)) (req_prop_id r)
                          0 DRM_OUTPUT_MAX_PROPERTY) DRM_OUTPUT_MAX_PROPERTY = false).
  { apply Nat.eqb_neq.
    assert (H := index_of_id_found (output_property_ids (outputs d o)) (req_prop_id r)
                   0 DRM_OUTPUT_MAX_PROPERTY).
    destruct Hattached as [j [Hj Hn]].
    assert (Hlt : (index_of_id (output_property_ids (outputs d o)) (req_prop_id r) 0
                     DRM_OUTPUT_MAX_PROPERTY < 0 + DRM_OUTPUT_MAX_PROPERTY)%nat)
      by (apply H; exists j; split; [lia | exact Hn]).
    lia. }
  unfold drm_mode_output_property_set_ioctl, bind, get, ret, log, modify.
  rewrite Ho, Hid, Z.eqb_refl. simpl negb. cbv iota beta zeta.
  rewrite Hi, Hp, Hpid, Z.eqb_refl. simpl negb. cbv iota beta zeta.
  remember (props d pp) as p eqn:Ep. remember (req_value r) as v eqn:Ev.
  destruct (has_flag (prop_flags p) DRM_MODE_PROP_IMMUTABLE); [reflexivity|].
  simpl negb. cbv iota beta.
  destruct (has_flag (prop_flags p) DRM_MODE_PROP_RANGE).
  - rewrite !N.ltb_antisym, !negb_involutive.
    destruct (N.leb (nth_u64 (prop_values p) 0) v && N.leb v (nth_u64 (prop_values p) 1));
      simpl; [|reflexivity].
    destruct (output_set_property F o); reflexivity.
  - destruct (existsb (fun x => N.eqb x v) (prop_values p)); simpl; [|reflexivity].
    destruct (output_set_property F o); reflexivity.
Qed.

Lemma drm_mode_output_property_set_ioctl_result_witness :
  let F := Examples.funcs_ex (fun _ => false) (fun _ => false)
             (Some (fun _ v => Z.of_N v)) in
  let d := Examples.prop_dev DRM_MODE_PROP_RANGE [0; 100]%N in
  drm_mode_output_property_set_ioctl F (mkSetProp 1 2 50) d =
    (50, dev_log (Ev_output_set_property 0 0 50) d) /\
  drm_mode_output_property_set_ioctl F (mkSetProp 1 2 150) d = (- EINVAL, d).
Proof.
  intros F d. split.
  - apply (drm_mode_output_property_set_ioctl_result F d (mkSetProp 1 2 50) 0 0);
      try reflexivity.
    exists 0%nat. split; [unfold DRM_OUTPUT_MAX_PROPERTY; lia | reflexivity].
  - apply (drm_mode_output_property_set_ioctl_result F d (mkSetProp 1 2 150) 0 0);
      try reflexivity.
    exists 0%nat. split; [unfold DRM_OUTPUT_MAX_PROPERTY; lia | reflexivity].
Defined.

(** C2, counterexample: a blob property (neither immutable, nor
    range-flagged, nor enum-flagged) attached to an output whose driver
    has a [set_property] returning 0: setting value 7 is rejected with
    [-EINVAL] and the driver is not called, because the value is not in
    the (empty) value list. *)
Lemma drm_mode_output_property_set_ioctl_blob_rejected :
  let F := Examples.funcs_ex (fun _ => false) (fun _ => false)
             (Some (fun _ _ => 0)) in
  let d := Examples.prop_dev DRM_MODE_PROP_BLOB [] in
  has_flag (prop_flags (props d 0)) DRM_MODE_PROP_IMMUTABLE = false /\
  has_flag (prop_flags (props d 0)) DRM_MODE_PROP_RANGE = false /\
  has_flag (prop_flags (props d 0)) DRM_MODE_PROP_ENUM = false /\
  drm_mode_output_property_set_ioctl F (mkSetProp 1 2 7) d = (- EINVAL, d) /\
  trace d = [].
Proof. repeat split; vm_compute; reflexivity. Qed.

(** ** The mode-apply protocol *)

Section ModeSetFacts.
Variable F : drm_funcs.

Lemma dev_log_with_trace (e : event) (d : dev) :
  dev_log e d = with_trace d (trace d ++ [e]).
Proof. reflexivity. Qed.

Lemma with_trace_self (d : dev) : with_trace d (trace d) = d.
Proof. destruct d; reflexivity. Qed.

Lemma for_each_output_on_spec (c : nat) (f : nat -> event) (os : list nat) (d : dev) :
  exists evs, for_each_output_on c f os d = (tt, with_trace d (trace d ++ evs)) /\
              (forall e, In e evs -> exists o, e = f o).
Proof.
  revert d; induction os as [|o os IH]; intros d; simpl.
  - exists []. rewrite app_nil_r, with_trace_self. split; [reflexivity | intros e []].
  - unfold bind, get_output. simpl.
    destruct (ptr_eqb (output_crtc (outputs d o)) (Some c)).
    + unfold log, modify. destruct (IH (dev_log (f o) d)) as [evs [E H]].
      rewrite E. exists (f o :: evs). split.
      * simpl. rewrite <- app_assoc. reflexivity.
      * intros e [<-|He]; [exists o; reflexivity | auto].
    + unfold ret. destruct (IH d) as [evs [E H]]. rewrite E. exists evs. auto.
Qed.

Lemma outputs_mode_fixup_spec (c : nat) (m adj : drm_display_mode) (os : list nat)
  (d : dev) :
  exists ok adj' evs,
    outputs_mode_fixup F c m adj os d = ((ok, adj'), with_trace d (trace d ++ evs)) /\
    (forall e, In e evs -> is_fixup e = true) /\
    (ok = true -> forall e, In e evs -> fixup_reject e = false).
Proof.
  revert d adj; induction os as [|o os IH]; intros d adj; simpl.
  - exists true, adj, []. rewrite app_nil_r, with_trace_self.
    split; [reflexivity | split; intros; contradiction].
  - unfold bind, get_output. simpl.
    destruct (ptr_eqb (output_crtc (outputs d o)) (Some c)).
    + destruct (output_mode_fixup F o m adj) as [ok adj1] eqn:Ef.
      unfold log, modify. destruct ok.
      * destruct (IH (dev_log (Ev_output_mode_fixup o true) d) adj1)
          as [ok' [adj' [evs [E [H1 H2]]]]].
        rewrite E. exists ok', adj', (Ev_output_mode_fixup o true :: evs).
        split; [simpl; rewrite <- app_assoc; reflexivity|]. split.
        -- intros e [<-|He]; auto.
        -- intros Hok e [<-|He]; [reflexivity | auto].
      * exists false, adj1, [Ev_output_mode_fixup o false].
        split; [reflexivity|]. split.
        -- intros e [<-|[]]; reflexivity.
        -- discriminate.
    + apply IH.
Qed.

Lemma set_mode_sequence_spec (c : nat) (m adj : drm_display_mode) (x y : Z) (d : dev) :
  exists r evs,
    set_mode_sequence F c m adj x y d = (r, with_trace d (trace d ++ evs)) /\
    (r = false -> forall e, In e evs -> is_fixup e = true) /\
    (r = true -> forall e, In e evs -> fixup_reject e = false).
Proof.
  unfold set_mode_sequence, bind, get.
  destruct (outputs_mode_fixup_spec c m adj (output_list d) d)
    as [ok1 [adj1 [evs1 [E1 [H1 H1']]]]].
  rewrite E1. destruct ok1; simpl.
  2: { exists false, evs1. split; [reflexivity|]. split; [exact (fun _ => H1) | discriminate]. }
  destruct (crtc_mode_fixup F c m adj1) as [ok2 adj2] eqn:E2.
  unfold log, modify. destruct ok2; simpl.
  2: { exists false, (evs1 ++ [Ev_crtc_mode_fixup c false]).
       split; [rewrite app_assoc; reflexivity|]. split; [|discriminate].
       intros _ e He. apply in_app_or in He as [He|[<-|[]]]; auto. }
  set (d1 := dev_log (Ev_crtc_mode_fixup c true) (with_trace d (trace d ++ evs1))).
  destruct (for_each_output_on_spec c Ev_output_prepare (output_list d) d1)
    as [evs2 [E3 H3]]. rewrite E3. cbv beta iota.
  set (d3 := dev_log (Ev_crtc_mode_set c m adj2 x y)
               (dev_log (Ev_crtc_prepare c) (with_trace d1 (trace d1 ++ evs2)))).
  destruct (for_each_output_on_spec c (fun o => Ev_output_mode_set o m adj2)
              (output_list d) d3) as [evs4 [E4 H4]]. rewrite E4. cbv beta iota.
  destruct (for_each_output_on_spec c Ev_output_commit (output_list d)
              (dev_log (Ev_crtc_commit c) (with_trace d3 (trace d3 ++ evs4))))
    as [evs5 [E5 H5]].
  rewrite E5. unfold ret.
  exists true,
    (evs1 ++ [Ev_crtc_mode_fixup c true] ++ evs2 ++ [Ev_crtc_prepare c]
     ++ [Ev_crtc_mode_set c m adj2 x y] ++ evs4 ++ [Ev_crtc_commit c] ++ evs5).
  split.
  - unfold d3, d1. cbn. rewrite <- !app_assoc. reflexivity.
  - split; [discriminate|]. intros _.
    intros e He. repeat (apply in_app_or in He; destruct He as [He|He]).
    all: try (simpl in He; destruct He as [<-|[]]; reflexivity).
    + apply H1'; auto.
    + destruct (H3 e He) as [o ->]; reflexivity.
    + destruct (H4 e He) as [o ->]; reflexivity.
    + destruct (H5 e He) as [o ->]; reflexivity.
Qed.

Lemma crtc_step_with_trace (d : dev) (c : nat) (f : drm_crtc -> drm_crtc)
  (t : list event) (evs : list event) :
  t = trace d ++ evs ->
  crtc_step d (with_trace (dev_upd_crtc c f d) t) c (f (crtcs d c)) evs.
Proof.
  intros ->. unfold crtc_step. simpl. unfold heap_upd.
  repeat split; try reflexivity.
  - intros c' Hne. apply Nat.eqb_neq in Hne. rewrite Hne. reflexivity.
  - rewrite Nat.eqb_refl. reflexivity.
Qed.

Lemma drm_crtc_set_mode_spec (c : nat) (m : drm_display_mode) (x y : Z) (d : dev) :
  let in_use := fst (drm_crtc_in_use c d) in
  let '(r, d') := drm_crtc_set_mode F c m x y d in
  exists cr evs,
    crtc_step d d' c cr evs /\
    crtc_enabled cr = in_use /\ crtc_fb cr = crtc_fb (crtcs d c) /\
    (in_use = false -> r = true /\ evs = [] /\ cr = set_crtc_enabled false (crtcs d c)) /\
    (r = false ->
       crtc_mode cr = crtc_mode (crtcs d c) /\ crtc_x cr = crtc_x (crtcs d c) /\
       crtc_y cr = crtc_y (crtcs d c) /\ forall e, In e evs -> is_fixup e = true) /\
    (r = true -> forall e, In e evs -> fixup_reject e = false).
Proof.
  intros in_use.
  unfold drm_crtc_set_mode, drm_crtc_in_use, bind, get, ret, upd_crtc, modify, get_crtc.
  fold (drm_crtc_in_use c d) in in_use. cbv beta iota.
  change (existsb (fun o => ptr_eqb (output_crtc (outputs d o)) (Some c)) (output_list d))
    with in_use.
  destruct in_use eqn:Hu; simpl negb; cbv beta iota.
  2: { exists (set_crtc_enabled false (crtcs d c)), [].
       split; [|split; [reflexivity|split; [reflexivity|split; [auto|split; [discriminate|intros _ e []]]]]].
       rewrite <- (with_trace_self (dev_upd_crtc c (set_crtc_enabled false) d)).
       apply crtc_step_with_trace. simpl. rewrite app_nil_r. reflexivity. }
  set (d1 := dev_upd_crtc c (set_crtc_enabled true) d).
  assert (Hc1 : crtcs d1 c = set_crtc_enabled true (crtcs d c)).
  { unfold d1. simpl. unfold heap_upd. rewrite Nat.eqb_refl. reflexivity. }
  cbv beta iota delta [negb]. rewrite Hc1. cbn [crtc_mode crtc_x crtc_y set_crtc_enabled].
  set (d2 := dev_upd_crtc c (set_crtc_mode_xy m x y) d1).
  match goal with
  | |- context [if ?b then _ else set_mode_sequence _ _ _ _ _ _] => destruct b
  end.
  - unfold log, modify. cbv beta iota.
    exists (set_crtc_mode_xy m x y (set_crtc_enabled true (crtcs d c))),
      [Ev_crtc_mode_set_base c x y].
    split.
    + destruct (crtc_step_with_trace d c
                  (fun cr => set_crtc_mode_xy m x y (set_crtc_enabled true cr))
                  (trace d ++ [Ev_crtc_mode_set_base c x y])
                  [Ev_crtc_mode_set_base c x y] eq_refl)
        as [A1 [A2 [A3 [A4 [A5 [A6 [A7 [A8 A9]]]]]]]].
      unfold crtc_step in *. simpl in *. unfold heap_upd in *.
      repeat split; auto.
      * intros c' Hne. apply Nat.eqb_neq in Hne. rewrite Hne. reflexivity.
      * rewrite Nat.eqb_refl. reflexivity.
    + simpl. repeat split; auto; try discriminate.
      intros _ e [<-|[]]. reflexivity.
  - destruct (set_mode_sequence_spec c m (drm_mode_duplicate m) x y d2)
      as [r [evs [E [H1 H2]]]].
    rewrite E. cbv beta iota.
    destruct r; cbv beta iota.
    + exists (set_crtc_mode_xy m x y (set_crtc_enabled true (crtcs d c))), evs.
      split.
      * unfold crtc_step, d2, d1. simpl. unfold heap_upd.
        repeat split; auto.
        -- intros c' Hne. apply Nat.eqb_neq in Hne. rewrite Hne. reflexivity.
        -- rewrite !Nat.eqb_refl. reflexivity.
      * simpl. repeat split; auto; discriminate.
    + set (cr0 := crtcs d c).
      exists (set_crtc_mode_xy (crtc_mode cr0) (crtc_x cr0) (crtc_y cr0)
                (set_crtc_mode_xy m x y (set_crtc_enabled true cr0))), evs.
      split.
      * unfold crtc_step, d2, d1. simpl. unfold heap_upd.
        repeat split; auto.
        -- intros c' Hne. apply Nat.eqb_neq in Hne. rewrite Hne. reflexivity.
        -- rewrite !Nat.eqb_refl. reflexivity.
      * simpl. repeat split; auto; discriminate.
Qed.

End ModeSetFacts.

Lemma drm_crtc_in_use_iff (c : nat) (d : dev) :
  fst (drm_crtc_in_use c d) = true <->
  exists o, In o (output_list d) /\ output_crtc (outputs d o) = Some c.
Proof.
  unfold drm_crtc_in_use, bind, get, ret. simpl.
  rewrite existsb_exists. split.
  - intros [o [Hin Hp]]. exists o. split; [exact Hin|].
    destruct (output_crtc (outputs d o)) as [c'|]; simpl in Hp; [|discriminate].
    apply Nat.eqb_eq in Hp. subst. reflexivity.
  - intros [o [Hin Hp]]. exists o. split; [exact Hin|].
    rewrite Hp. simpl. apply Nat.eqb_refl.
Qed.

(** C5: when a fixup callback of [drm_crtc_set_mode] (of a bound output, or
    of the CRTC) rejects the mode, the call fails, no prepare, mode_set or
    commit callback of the CRTC or of any output is called, and the CRTC's
    mode, x and y are those from before the call. *)
Theorem drm_crtc_set_mode_fixup_reject (F : drm_funcs) (c : nat)
  (m : drm_display_mode) (x y : Z) (d : dev) :
  let '(r, d') := drm_crtc_set_mode F c m x y d in
  exists evs, trace d' = trace d ++ evs /\
    ((exists e, In e evs /\ fixup_reject e = true) ->
     r = false /\
     (forall e, In e evs -> is_prepare_mode_set_commit e = false) /\
     crtc_mode (crtcs d' c) = crtc_mode (crtcs d c) /\
     crtc_x (crtcs d' c) = crtc_x (crtcs d c) /\
     crtc_y (crtcs d' c) = crtc_y (crtcs d c)).
Proof.
  pose proof (drm_crtc_set_mode_spec F c m x y d) as H.
  destruct (drm_crtc_set_mode F c m x y d) as [r d'].
  destruct H as [cr [evs [Hs [_ [_ [_ [Hf Ht]]]]]]].
  destruct Hs as [_ [_ [_ [_ [_ [_ [_ [Hc Htr]]]]]]]].
  exists evs. split; [exact Htr|]. intros [e [He Hr]].
  destruct r.
  - rewrite (Ht eq_refl e He) in Hr. discriminate.
  - destruct (Hf eq_refl) as [Hm [Hx [Hy Hfix]]].
    rewrite Hc. split; [reflexivity|]. split; [|auto].
    intros e' He'. specialize (Hfix e' He').
    destruct e'; try discriminate; reflexivity.
Qed.

Lemma drm_crtc_set_mode_fixup_reject_witness :
  let F := Examples.funcs_ex (fun _ => true) (fun _ => false) None in
  let d := Examples.modeset_dev in
  let '(r, d') := drm_crtc_set_mode F 0 Examples.mode_1024 10 20 d in
  r = false /\
  crtc_mode (crtcs d' 0) = crtc_mode (crtcs d 0) /\
  crtc_x (crtcs d' 0) = crtc_x (crtcs d 0) /\
  crtc_y (crtcs d' 0) = crtc_y (crtcs d 0).
Proof.
  intros F d.
  pose proof (drm_crtc_set_mode_fixup_reject F 0 Examples.mode_1024 10 20 d) as H.
  destruct (drm_crtc_set_mode F 0 Examples.mode_1024 10 20 d) as [r d'] eqn:E.
  destruct H as [evs [Ht Himp]].
  assert (Htr : trace d' = [Ev_output_mode_fixup 0 false]).
  { vm_compute in E. injection E as _ <-. reflexivity. }
  rewrite Htr in Ht. simpl in Ht. rewrite <- Ht in Himp.
  destruct Himp as [Hr [_ Hm]].
  - exists (Ev_output_mode_fixup 0 false). split; [left; reflexivity | reflexivity].
  - split; [exact Hr | exact Hm].
Defined.

(** C6: [drm_crtc_set_mode] leaves the CRTC enabled exactly when some
    output of the device list is bound to it; when none is, it succeeds
    at once: no callback is made ([trace] unchanged), and only the CRTC's
    enabled flag was cleared. *)
Theorem drm_crtc_set_mode_enabled_in_use (F : drm_funcs) (c : nat)
  (m : drm_display_mode) (x y : Z) (d : dev) :
  let '(r, d') := drm_crtc_set_mode F c m x y d in
  (crtc_enabled (crtcs d' c) = true <->
   exists o, In o (output_list d) /\ output_crtc (outputs d o) = Some c) /\
  (~ (exists o, In o (output_list d) /\ output_crtc (outputs d o) = Some c) ->
   r = true /\ trace d' = trace d /\
   crtcs d' c = set_crtc_enabled false (crtcs d c) /\
   (forall c', c' <> c -> crtcs d' c' = crtcs d c') /\
   outputs d' = outputs d /\ output_list d' = output_list d).
Proof.
  pose proof (drm_crtc_set_mode_spec F c m x y d) as H.
  destruct (drm_crtc_set_mode F c m x y d) as [r d'].
  destruct H as [cr [evs [Hs [He [_ [Hz _]]]]]].
  destruct Hs as [_ [Hol [Hos [_ [_ [_ [Hoth [Hc Htr]]]]]]]].
  rewrite Hc, He, drm_crtc_in_use_iff. split; [tauto|].
  intros Hn. assert (Hf : fst (drm_crtc_in_use c d) = false).
  { destruct (fst (drm_crtc_in_use c d)) eqn:E; [|reflexivity].
    apply drm_crtc_in_use_iff in E. contradiction. }
  destruct (Hz Hf) as [Hr [Hev Hcr]]. subst evs.
  repeat split; auto. rewrite Htr. apply app_nil_r.
Qed.

Lemma drm_crtc_set_mode_enabled_in_use_witness :
  let F := Examples.funcs_ex (fun _ => false) (fun _ => false) None in
  let d := Examples.idle_dev in
  let '(r, d') := drm_crtc_set_mode F 0 Examples.mode_1024 0 0 d in
  r = true /\ trace d' = trace d /\ crtc_enabled (crtcs d' 0) = false.
Proof.
  intros F d.
  pose proof (drm_crtc_set_mode_enabled_in_use F 0 Examples.mode_1024 0 0 d) as H.
  destruct (drm_crtc_set_mode F 0 Examples.mode_1024 0 0 d) as [r d'].
  destruct H as [Hiff Hz].
  assert (Hn : ~ (exists o, In o (output_list d) /\ output_crtc (outputs d o) = Some 0%nat)).
  { intros [o [[<-|[]] Ho]]. discriminate. }
  destruct (Hz Hn) as [Hr [Ht [Hc _]]].
  split; [exact Hr|]. split; [exact Ht|]. rewrite Hc. reflexivity.
Defined.

(** ** Rollback in [drm_crtc_set_config] *)

Lemma set_config_bind_spec (c : nat) (outs : list nat) (changed : bool)
  (os : list nat) (d : dev) :
  NoDup os ->
  let '(r, d') := set_config_bind c outs changed os d in
  fst r = map (fun o => output_crtc (outputs d o)) os /\
  crtc_list d' = crtc_list d /\ crtcs d' = crtcs d /\
  output_list d' = output_list d /\
  (forall o, ~ In o os -> outputs d' o = outputs d o).
Proof.
  revert d changed; induction os as [|o os IH]; intros d changed Hnd; simpl.
  - unfold ret. simpl. repeat split; auto.
  - inversion Hnd as [|? ? Hnin Hnd']; subst.
    unfold bind, get_output. cbv beta iota.
    set (out := outputs d o).
    set (nc := if existsb (Nat.eqb o) outs then Some c
               else if ptr_eqb (output_crtc out) (Some c) then None
                    else output_crtc out).
    set (d1 := (if ptr_eqb nc (output_crtc out) then ret tt
                else upd_output o (set_output_crtc nc)) d).
    assert (H1 : crtc_list (snd d1) = crtc_list d /\ crtcs (snd d1) = crtcs d /\
                 output_list (snd d1) = output_list d /\
                 (forall o', o' <> o -> outputs (snd d1) o' = outputs d o')).
    { unfold d1. destruct (ptr_eqb nc (output_crtc out)); simpl.
      - repeat split; auto.
      - unfold heap_upd. repeat split; auto.
        intros o' Hne. apply Nat.eqb_neq in Hne. rewrite Hne. reflexivity. }
    destruct d1 as [u d1'] eqn:Ed1. simpl in H1.
    destruct H1 as [A1 [A2 [A3 A4]]].
    specialize (IH d1' (changed || negb (ptr_eqb nc (output_crtc out))) Hnd').
    destruct (set_config_bind c outs _ os d1') as [[saves ch'] d2] eqn:E2.
    destruct IH as [B1 [B2 [B3 [B4 B5]]]].
    unfold ret. simpl. simpl in B1.
    repeat split; try congruence.
    + f_equal. rewrite B1. apply map_ext_in. intros o' Ho'.
      rewrite A4; [reflexivity|]. intros ->. contradiction.
    + intros o' Hn. rewrite B5; [|tauto]. apply A4. intros ->. tauto.
Qed.

Lemma restore_output_crtcs_spec (f : nat -> option nat) (os : list nat) (d : dev) :
  NoDup os ->
  let d' := snd (restore_output_crtcs (map f os) os d) in
  crtcs d' = crtcs d /\
  (forall o, In o os -> output_crtc (outputs d' o) = f o).
Proof.
  revert d; induction os as [|o os IH]; intros d Hnd; simpl.
  - split; [reflexivity | intros _ []].
  - inversion Hnd as [|? ? Hnin Hnd']; subst.
    unfold bind, upd_output, modify.
    assert (Hout : forall os' d0, ~ In o os' ->
              outputs (snd (restore_output_crtcs (map f os') os' d0)) o = outputs d0 o).
    { clear. induction os' as [|o' os' IH']; intros d0 Hn; simpl; [reflexivity|].
      unfold bind, upd_output, modify. rewrite IH'; [|intros Hi; apply Hn; right; exact Hi].
      simpl. unfold heap_upd. destruct (Nat.eqb_spec o o'); [|reflexivity].
      exfalso. apply Hn. left. auto. }
    destruct (IH (dev_upd_output o (set_output_crtc (f o)) d) Hnd') as [H1 H2].
    split; [exact H1|].
    intros o' [<-|Ho'].
    + rewrite Hout; [|exact Hnin]. simpl. unfold heap_upd. rewrite Nat.eqb_refl.
      reflexivity.
    + apply H2. exact Ho'.
Qed.

(** C1: when [drm_crtc_set_config] is given a CRTC and a mode and fails
    with [-EINVAL] (the only way it does so then: [drm_crtc_set_mode]
    rejected the mode), every output's CRTC binding, and the CRTC's mode,
    x, y and enabled flag, are those from before the call. *)
Theorem drm_crtc_set_config_reject_restores (F : drm_funcs) (alloc_ok : bool)
  (s : drm_mode_set) (c : nat) (m : drm_display_mode) (d : dev) :
  set_crtc s = Some c -> set_mode s = Some m -> NoDup (output_list d) ->
  let '(r, d') := drm_crtc_set_config F alloc_ok (Some s) d in
  r = - EINVAL ->
  (forall o, In o (output_list d) ->
             output_crtc (outputs d' o) = output_crtc (outputs d o)) /\
  crtc_mode (crtcs d' c) = crtc_mode (crtcs d c) /\
  crtc_x (crtcs d' c) = crtc_x (crtcs d c) /\
  crtc_y (crtcs d' c) = crtc_y (crtcs d c) /\
  crtc_enabled (crtcs d' c) = crtc_enabled (crtcs d c).
Proof.
  intros Hc Hm Hnd.
  unfold drm_crtc_set_config. rewrite Hc.
  unfold bind, get_crtc, get, ret. cbv beta iota.
  destruct alloc_ok; cbv beta iota delta [negb]; [|discriminate].
  pose proof (set_config_bind_spec c (set_outputs s)
                (match set_mode s with
                 | Some m0 => negb (drm_mode_equal m0 (crtc_mode (crtcs d c)))
                 | None => false end) (output_list d) d Hnd) as Hb.
  destruct (set_config_bind c (set_outputs s) _ (output_list d) d)
    as [[saves ch] d1] eqn:Eb.
  destruct Hb as [B1 [B2 [B3 [B4 B5]]]]. simpl in B1.
  cbv beta iota.
  match goal with
  | |- let '(_, _) := (if ?b then _ else _) d1 in _ => destruct b
  end.
  2: { match goal with
       | |- let '(_, _) := (if ?b then _ else _) d1 in _ => destruct b
       end.
       - destruct (ptr_eqb (crtc_fb (crtcs d1 c)) (set_fb s));
           unfold log, modify, upd_crtc, modify; cbv beta iota;
           unfold EINVAL; discriminate.
       - unfold EINVAL; discriminate. }
  unfold upd_crtc, modify. rewrite Hm. cbv beta iota.
  set (d2 := dev_upd_crtc c (set_crtc_enabled true)
               (dev_upd_crtc c (set_crtc_fb (set_fb s)) d1)).
  pose proof (drm_crtc_set_mode_spec F c m (set_x s) (set_y s) d2) as Hsm.
  destruct (drm_crtc_set_mode F c m (set_x s) (set_y s) d2) as [ok d3].
  destruct Hsm as [cr [evs [Hst [_ [_ [_ [Hfalse _]]]]]]].
  destruct Hst as [S1 [S2 [S3 [_ [_ [_ [_ [S8 _]]]]]]]].
  destruct ok; cbv beta iota.
  { destruct (drm_disable_unused_functions _).
    unfold EINVAL; discriminate. }
  destruct (Hfalse eq_refl) as [Hmode [Hx [Hy _]]].
  set (d4 := dev_upd_crtc c (set_crtc_enabled (crtc_enabled (crtcs d c))) d3).
  assert (Hl4 : output_list d4 = output_list d) by (unfold d4; simpl; rewrite S2; exact B4).
  rewrite Hl4, B1.
  destruct (restore_output_crtcs_spec (fun o => output_crtc (outputs d o))
              (output_list d) d4 Hnd) as [R1 R2].
  destruct (restore_output_crtcs _ (output_list d) d4) as [u d5]. simpl in R1, R2.
  intros _.
  assert (Hc2 : crtcs d2 c = set_crtc_enabled true (set_crtc_fb (set_fb s) (crtcs d c))).
  { unfold d2. simpl. unfold heap_upd. rewrite Nat.eqb_refl, B3. reflexivity. }
  assert (Hc5 : crtcs d5 c = set_crtc_enabled (crtc_enabled (crtcs d c)) cr).
  { rewrite R1. unfold d4. simpl. unfold heap_upd. rewrite Nat.eqb_refl, S8. reflexivity. }
  rewrite Hc5. rewrite Hc2 in Hmode, Hx, Hy. simpl in Hmode, Hx, Hy. simpl.
  split; [exact R2|]. auto.
Qed.


Lemma drm_crtc_set_config_reject_restores_witness :
  let F := Examples.funcs_ex (fun _ => true) (fun _ => false) None in
  let s := mkModeSet (Some 0%nat) None 0 0 (Some Examples.mode_1024) [0%nat] in
  let d := Examples.modeset_dev in
  let '(r, d') := drm_crtc_set_config F true (Some s) d in
  r = - EINVAL /\
  output_crtc (outputs d' 0) = output_crtc (outputs d 0) /\
  crtc_mode (crtcs d' 0) = crtc_mode (crtcs d 0) /\
  crtc_enabled (crtcs d' 0) = crtc_enabled (crtcs d 0).
Proof.
  intros F s d.
  assert (Hnd : NoDup (output_list d)) by (constructor; [intros [] | constructor]).
  pose proof (drm_crtc_set_config_reject_restores F true s 0 Examples.mode_1024 d
                eq_refl eq_refl Hnd) as H.
  destruct (drm_crtc_set_config F true (Some s) d) as [r d'] eqn:E.
  assert (Hr : r = - EINVAL) by (vm_compute in E; injection E as <- _; reflexivity).
  destruct (H Hr) as [Ho [Hm [_ [_ He]]]].
  split; [exact Hr|]. split; [apply Ho; left; reflexivity|]. split; assumption.
Defined.

(** ** CRTC assignment *)

Definition mode_is_preferred (m : drm_display_mode) : Prop :=
  has_flag (mode_type m) DRM_MODE_TYPE_PREFERRED = true.

Lemma drm_pick_des_mode_spec (modes : list drm_display_mode) (m : drm_display_mode) :
  drm_pick_des_mode modes = Some m <->
  exists pre post, modes = pre ++ m :: post /\
    ((mode_is_preferred m /\ forall x, In x pre -> ~ mode_is_preferred x) \/
     (pre = [] /\ forall x, In x modes -> ~ mode_is_preferred x)).
Proof.
  unfold drm_pick_des_mode, mode_is_preferred.
  destruct (find (fun m0 => has_flag (mode_type m0) DRM_MODE_TYPE_PREFERRED) modes)
    as [m0|] eqn:Ef.
  - split.
    + intros H; injection H as <-. clear -Ef.
      induction modes as [|x modes IH]; cbn [find] in Ef; [discriminate|].
      destruct (has_flag (mode_type x) DRM_MODE_TYPE_PREFERRED) eqn:Hx.
      * injection Ef as <-. exists [], modes. split; [reflexivity|]. left.
        split; [exact Hx | intros _ []].
      * destruct (IH Ef) as [pre [post [-> [[Hp Hpre]|[_ Hall]]]]].
        -- exists (x :: pre), post. split; [reflexivity|]. left. split; [exact Hp|].
           intros y [<-|Hy]; [rewrite Hx; discriminate | auto].
        -- exfalso. apply (Hall m0); [apply in_or_app; right; left; reflexivity|].
           apply find_some in Ef as [_ Ef]. exact Ef.
    + intros [pre [post [-> H]]]. f_equal.
      assert (Hsome := find_some _ _ Ef). destruct Hsome as [Hin Hp].
      destruct H as [[Hm Hpre]|[-> Hall]].
      * clear Hin. induction pre as [|x pre IH]; cbn [find app] in Ef.
        -- rewrite Hm in Ef. injection Ef as <-. reflexivity.
        -- destruct (has_flag (mode_type x) DRM_MODE_TYPE_PREFERRED) eqn:Hx.
           ++ exfalso. apply (Hpre x); [left; reflexivity | exact Hx].
           ++ apply IH; [exact Ef | intros y Hy; apply Hpre; right; exact Hy].
      * exfalso. exact (Hall m0 Hin Hp).
  - assert (Hnone : forall x, In x modes -> ~ has_flag (mode_type x) DRM_MODE_TYPE_PREFERRED = true).
    { intros x Hx Hp. rewrite (find_none _ _ Ef x Hx) in Hp. discriminate. }
    destruct modes as [|x modes]; split.
    + discriminate.
    + intros [pre [post [H _]]]. destruct pre; discriminate.
    + intros H; injection H as <-. exists [], modes. split; [reflexivity|].
      right. split; [reflexivity | exact Hnone].
    + intros [pre [post [H [[Hp _]|[-> _]]]]].
      * exfalso. apply (Hnone m); [|exact Hp]. rewrite H. apply in_or_app. right. left. reflexivity.
      * injection H as <- _. reflexivity.
Qed.

Lemma pick_scan_frame (d : dev) (o : nat) (des : drm_display_mode) (idx : Z)
  (cs : list nat) :
  let d' := pick_scan d o des idx cs in
  output_list d' = output_list d /\ crtc_list d' = crtc_list d /\
  (forall o', o' <> o -> outputs d' o' = outputs d o') /\
  output_status_of (outputs d' o) = output_status_of (outputs d o) /\
  output_modes (outputs d' o) = output_modes (outputs d o).
Proof.
  revert idx. induction cs as [|c cs IH]; intros idx; cbn zeta; cbn [pick_scan].
  - repeat split; auto.
  - destruct (Z.land _ _ =? 0); [apply IH|].
    destruct (crtc_assigned_elsewhere _ _ _); [apply IH|].
    cbn [dev_upd_output dev_upd_crtc outputs output_list crtc_list].
    unfold heap_upd. rewrite !Nat.eqb_refl.
    repeat split.
    intros o' Ho'. apply Nat.eqb_neq in Ho'. rewrite !Ho'. reflexivity.
Qed.

Lemma pick_output_frame (d : dev) (o : nat) :
  let d' := pick_output d o in
  output_list d' = output_list d /\
  (forall o', o' <> o -> outputs d' o' = outputs d o') /\
  output_status_of (outputs d' o) = output_status_of (outputs d o) /\
  output_modes (outputs d' o) = output_modes (outputs d o).
Proof.
  set (d1 := dev_upd_output o (set_output_crtc None) d).
  assert (E : pick_output d o = d1 \/
              exists des, pick_output d o = pick_scan d1 o des (-1 + 1) (crtc_list d1)).
  { unfold pick_output, pick_output_body. fold d1. cbn zeta.
    destruct (negb _); [left; reflexivity|].
    destruct (output_modes (outputs d1 o)); [left; reflexivity|].
    destruct (drm_pick_des_mode _) as [des|]; [right; exists des|left]; reflexivity. }
  assert (H1 : output_list d1 = output_list d /\
               (forall o', o' <> o -> outputs d1 o' = outputs d o') /\
               output_status_of (outputs d1 o) = output_status_of (outputs d o) /\
               output_modes (outputs d1 o) = output_modes (outputs d o)).
  { subst d1. cbn [dev_upd_output outputs output_list]. unfold heap_upd.
    rewrite Nat.eqb_refl. repeat split.
    intros o' Ho'. apply Nat.eqb_neq in Ho'. rewrite Ho'. reflexivity. }
  cbn zeta. destruct E as [E|[des E]]; rewrite E; [exact H1|].
  destruct H1 as [L1 [O1 [S1 M1]]].
  destruct (pick_scan_frame d1 o des (-1 + 1) (crtc_list d1)) as [L2 [_ [O2 [S2 M2]]]].
  repeat split; try congruence.
  intros o' Ho'. rewrite O2, O1 by exact Ho'. reflexivity.
Qed.

Lemma pick_output_skip (d : dev) (o : nat) :
  (output_status_of (outputs d o) <> output_status_connected \/
   output_modes (outputs d o) = []) ->
  output_crtc (outputs (pick_output d o) o) = None.
Proof.
  intros H. unfold pick_output, pick_output_body.
  cbn [dev_upd_output outputs]. unfold heap_upd. rewrite Nat.eqb_refl.
  cbn [set_output_crtc output_status_of output_modes output_crtc].
  destruct H as [H|H].
  - destruct (output_status_of (outputs d o)); cbn; unfold heap_upd; rewrite ?Nat.eqb_refl; try reflexivity.
    exfalso; apply H; reflexivity.
  - rewrite H. destruct (negb _); cbn; unfold heap_upd; rewrite ?Nat.eqb_refl; reflexivity.
Qed.

Lemma fold_pick_output_absent (l : list nat) (d : dev) (o : nat) :
  ~ In o l -> outputs (fold_left pick_output l d) o = outputs d o.
Proof.
  revert d. induction l as [|o1 l IH]; intros d Hn; [reflexivity|].
  cbn [fold_left]. rewrite IH by (intros Hi; apply Hn; right; exact Hi).
  destruct (pick_output_frame d o1) as [_ [Ho _]].
  apply Ho. intros ->. apply Hn. left. reflexivity.
Qed.

Lemma fold_pick_output_status (l : list nat) (d : dev) (o : nat) :
  output_status_of (outputs (fold_left pick_output l d) o) =
    output_status_of (outputs d o) /\
  output_modes (outputs (fold_left pick_output l d) o) = output_modes (outputs d o).
Proof.
  revert d. induction l as [|o1 l IH]; intros d; [auto|].
  cbn [fold_left]. destruct (IH (pick_output d o1)) as [-> ->].
  destruct (pick_output_frame d o1) as [_ [Ho [Hs Hm]]].
  destruct (Nat.eq_dec o o1) as [->|Hne]; [auto|].
  rewrite Ho by exact Hne. auto.
Qed.

Lemma fold_pick_output_skip (l : list nat) (d : dev) (o : nat) :
  In o l ->
  (output_status_of (outputs d o) <> output_status_connected \/
   output_modes (outputs d o) = []) ->
  output_crtc (outputs (fold_left pick_output l d) o) = None.
Proof.
  revert d. induction l as [|o1 l IH]; intros d Hin Hbad; [destruct Hin|].
  cbn [fold_left].
  destruct (pick_output_frame d o1) as [_ [Ho [Hs Hm]]].
  assert (Hbad1 : output_status_of (outputs (pick_output d o1) o) <> output_status_connected \/
                  output_modes (outputs (pick_output d o1) o) = []).
  { destruct (Nat.eq_dec o o1) as [->|Hne]; [rewrite Hs, Hm; exact Hbad|].
    rewrite Ho by exact Hne. exact Hbad. }
  destruct (in_dec Nat.eq_dec o l) as [Hl|Hl].
  - apply IH; assumption.
  - rewrite fold_pick_output_absent by exact Hl.
    destruct Hin as [<-|Hin]; [|contradiction].
    apply pick_output_skip. exact Hbad.
Qed.

(** C4: [drm_pick_crtcs] folds the per-output step over [output_list] in
    list order; each step first sets the output's [crtc] to NULL; every
    output of the list that is not connected or has no modes is unbound
    after the run; for a connected output with modes, the CRTC scan runs
    with the desired mode that is the first preferred-flagged mode of its
    list or, when none is flagged, the first mode. *)
Theorem drm_pick_crtcs_assignment (d : dev) :
  drm_pick_crtcs d = fold_left pick_output (output_list d) d /\
  (forall d0 o,
     pick_output d0 o = pick_output_body (dev_upd_output o (set_output_crtc None) d0) o /\
     output_crtc (outputs (dev_upd_output o (set_output_crtc None) d0) o) = None) /\
  (forall o, In o (output_list d) ->
     (output_status_of (outputs d o) <> output_status_connected \/
      output_modes (outputs d o) = []) ->
     output_crtc (outputs (drm_pick_crtcs d) o) = None) /\
  (forall d0 o,
     output_status_of (outputs d0 o) = output_status_connected ->
     output_modes (outputs d0 o) <> [] ->
     exists des pre post,
       pick_output_body d0 o = pick_scan d0 o des 0 (crtc_list d0) /\
       output_modes (outputs d0 o) = pre ++ des :: post /\
       ((mode_is_preferred des /\ forall x, In x pre -> ~ mode_is_preferred x) \/
        (pre = [] /\ forall x, In x (output_modes (outputs d0 o)) -> ~ mode_is_preferred x))).
Proof.
  split; [reflexivity|]. split.
  { intros d0 o. split; [reflexivity|].
    cbn [dev_upd_output outputs]. unfold heap_upd. rewrite Nat.eqb_refl. reflexivity. }
  split.
  { intros o Hin Hbad. apply fold_pick_output_skip; assumption. }
  intros d0 o Hc Hne.
  destruct (drm_pick_des_mode (output_modes (outputs d0 o))) as [des|] eqn:Ed.
  - destruct (proj1 (drm_pick_des_mode_spec _ des) Ed) as [pre [post [Hl Hp]]].
    exists des, pre, post. split; [|split; assumption].
    unfold pick_output_body. cbn zeta. rewrite Hc. cbn [output_status_eqb negb].
    destruct (output_modes (outputs d0 o)) as [|m ms]; [contradiction|].
    rewrite Ed. reflexivity.
  - exfalso. unfold drm_pick_des_mode in Ed.
    destruct (find _ _); [discriminate|].
    destruct (output_modes (outputs d0 o)); [contradiction | discriminate].
Qed.

Lemma drm_pick_crtcs_assignment_witness :
  In 1%nat (output_list Examples.pick_dev) /\
  output_status_of (outputs Examples.pick_dev 1) <> output_status_connected /\
  output_crtc (outputs (drm_pick_crtcs Examples.pick_dev) 1) = None.
Proof.
  split; [cbn; auto|]. split; [discriminate|].
  apply (proj1 (proj2 (proj2 (drm_pick_crtcs_assignment Examples.pick_dev))) 1%nat);
    [cbn; auto | left; discriminate].
Defined.

(** On the same device, O1 is bound to C0, whose desired mode is the
    preferred 1920x1080. *)
Example pick_dev_binds_preferred :
  output_crtc (outputs (drm_pick_crtcs Examples.pick_dev) 0) = Some 0%nat /\
  crtc_desired_mode (crtcs (drm_pick_crtcs Examples.pick_dev) 0) = Some Examples.mode_1920.
Proof. vm_compute. split; reflexivity. Qed.

(** ** The prober's fallback mode *)

(** C3 (amended): when a connected (not disconnected) output ends its
    validation with no usable mode and no probed mode left over, the
    prober leaves exactly one mode in its usable list: the 640x480 entry
    of [std_mode] with refresh rate 60, of type [DRM_MODE_TYPE_DEFAULT],
    neither flagged preferred nor built-in. *)
Theorem drm_crtc_probe_single_output_modes_fallback (F : drm_funcs) (o : nat)
  (maxX maxY : Z) (d : dev) :
  let out0 := set_output_status (detect F o)
                (set_output_mode_lists
                   (map (set_mode_status MODE_UNVERIFIED) (output_modes (outputs d o)))
                   (output_probed_modes (outputs d o)) (outputs d o)) in
  detect F o <> output_status_disconnected ->
  output_modes (probe_validate F o maxX maxY out0) = [] ->
  output_probed_modes (probe_validate F o maxX maxY out0) = [] ->
  exists m,
    output_modes (outputs (drm_crtc_probe_single_output_modes F o maxX maxY d) o) = [m] /\
    m = set_mode_vrefresh 60 std_mode0 /\
    mode_name m = "640x480"%string /\ hdisplay m = 640 /\ vdisplay m = 480 /\
    vrefresh m = 60 /\ mode_type m = DRM_MODE_TYPE_DEFAULT /\
    has_flag (mode_type m) DRM_MODE_TYPE_PREFERRED = false /\
    has_flag (mode_type m) DRM_MODE_TYPE_BUILTIN = false.
Proof.
  intros out0 Hdet Hm Hp.
  exists (set_mode_vrefresh 60 std_mode0).
  split; [|repeat split; reflexivity].
  unfold drm_crtc_probe_single_output_modes. fold out0.
  cbn zeta.
  replace (output_status_eqb (output_status_of out0) output_status_disconnected) with false.
  2:{ subst out0. cbn [set_output_status output_status_of].
      destruct (detect F o); [reflexivity | contradiction | reflexivity]. }
  cbn [dev_upd_output outputs]. unfold heap_upd. rewrite Nat.eqb_refl.
  unfold probe_finish. rewrite Hm. cbn zeta. rewrite Hp.
  unfold drm_mode_list_concat, drm_mode_duplicate.
  cbn [set_output_mode_lists output_modes app drm_mode_sort mode_insert map].
  reflexivity.
Qed.

Lemma drm_crtc_probe_single_output_modes_fallback_witness :
  let F := Examples.funcs_ex (fun _ => false) (fun _ => false) None in
  let d := Examples.idle_dev in
  let out0 := set_output_status (detect F 0)
                (set_output_mode_lists
                   (map (set_mode_status MODE_UNVERIFIED) (output_modes (outputs d 0)))
                   (output_probed_modes (outputs d 0)) (outputs d 0)) in
  detect F 0 <> output_status_disconnected /\
  output_modes (probe_validate F 0 0 0 out0) = [] /\
  output_probed_modes (probe_validate F 0 0 0 out0) = [] /\
  exists m,
    output_modes (outputs (drm_crtc_probe_single_output_modes F 0 0 0 d) 0) = [m] /\
    m = set_mode_vrefresh 60 std_mode0 /\
    mode_name m = "640x480"%string /\ hdisplay m = 640 /\ vdisplay m = 480 /\
    vrefresh m = 60 /\ mode_type m = DRM_MODE_TYPE_DEFAULT /\
    has_flag (mode_type m) DRM_MODE_TYPE_PREFERRED = false /\
    has_flag (mode_type m) DRM_MODE_TYPE_BUILTIN = false.
Proof.
  cbv zeta.
  split; [discriminate|]. split; [reflexivity|]. split; [reflexivity|].
  apply drm_crtc_probe_single_output_modes_fallback;
    [discriminate | reflexivity | reflexivity].
Defined.

(** C3 counterexample: a connected output whose [get_modes] reports no
    mode gets the fallback as its only usable mode, and that mode is not
    flagged preferred ([std_mode] has type [DRM_MODE_TYPE_DEFAULT]). *)
Lemma drm_crtc_probe_single_output_modes_fallback_not_preferred :
  let F := Examples.funcs_ex (fun _ => false) (fun _ => false) None in
  exists m,
    output_modes (outputs (drm_crtc_probe_single_output_modes F 0 0 0 Examples.idle_dev) 0)
      = [m] /\
    has_flag (mode_type m) DRM_MODE_TYPE_PREFERRED = false.
Proof. vm_compute. eexists. split; reflexivity. Qed.

(** * Further properties of the code *)

(** ** Output property slots *)

Lemma index_of_id_spec (l : list Z) (id : Z) (i max : nat) :
  let k := index_of_id l id i max in
  (i <= k <= i + max)%nat /\
  (forall j, (i <= j < k)%nat -> nth j l 0 <> id) /\
  ((k < i + max)%nat -> nth k l 0 = id).
Proof.
  revert i; induction max as [|max IH]; intros i; cbn zeta; simpl.
  - split; [lia|]. split; [intros j Hj; lia | intros Hk; lia].
  - destruct (Z.eqb_spec (nth i l 0) id) as [He|Hne].
    + split; [lia|]. split; [intros j Hj; lia | intros _; exact He].
    + destruct (IH (S i)) as [H1 [H2 H3]]. cbn zeta in H1, H2, H3.
      split; [lia|]. split.
      * intros j Hj. destruct (Nat.eq_dec j i) as [->|Hji]; [exact Hne|].
        apply H2. lia.
      * intros Hk. apply H3. lia.
Qed.

Lemma index_of_id_at (l : list Z) (id : Z) (k max : nat) :
  (k < max)%nat -> nth k l 0 = id ->
  (forall j, (j < k)%nat -> nth j l 0 <> id) ->
  index_of_id l id 0 max = k.
Proof.
  intros Hk Hn Hb.
  destruct (index_of_id_spec l id 0 max) as [H1 [H2 H3]].
  set (k' := index_of_id l id 0 max) in *.
  destruct (Nat.lt_trichotomy k' k) as [Hlt|[Heq|Hgt]].
  - exfalso. apply (Hb k' Hlt). apply H3. lia.
  - exact Heq.
  - exfalso. apply (H2 k); [lia | exact Hn].
Qed.

Lemma index_of_id_ext (l l' : list Z) (id : Z) (i max : nat) :
  (forall j, (nth j l 0 =? id) = (nth j l' 0 =? id)) ->
  index_of_id l id i max = index_of_id l' id i max.
Proof.
  intros H. revert i; induction max as [|max IH]; intros i; simpl; [reflexivity|].
  rewrite H. destruct (nth i l' 0 =? id); [reflexivity | apply IH].
Qed.

Lemma list_set_length {T} (l : list T) (i : nat) (v : T) :
  List.length (list_set l i v) = List.length l.
Proof.
  revert i; induction l as [|x l IH]; intros [|i]; simpl; auto.
Qed.

Lemma list_set_nth_same {T} (l : list T) (i : nat) (v dflt : T) :
  (i < List.length l)%nat -> nth i (list_set l i v) dflt = v.
Proof.
  revert i; induction l as [|x l IH]; intros [|i] Hi; simpl in *; try lia.
  - reflexivity.
  - apply IH. lia.
Qed.

Lemma list_set_nth_other {T} (l : list T) (i j : nat) (v dflt : T) :
  j <> i -> nth j (list_set l i v) dflt = nth j l dflt.
Proof.
  revert i j; induction l as [|x l IH]; intros [|i] [|j] Hne; simpl;
    try reflexivity; try contradiction.
  apply IH. lia.
Qed.

Lemma nth_In_Z (l : list Z) (j : nat) :
  (j < List.length l)%nat -> In (nth j l 0) l.
Proof. apply nth_In. Qed.

(** The slot [attach] uses: the first one with id 0, [16] when none. *)
Lemma attach_slot (out : drm_output) :
  List.length (output_property_ids out) = DRM_OUTPUT_MAX_PROPERTY ->
  let k := index_of_id (output_property_ids out) 0 0 DRM_OUTPUT_MAX_PROPERTY in
  (In 0 (output_property_ids out) -> (k < DRM_OUTPUT_MAX_PROPERTY)%nat /\
                                    nth k (output_property_ids out) 0 = 0) /\
  (~ In 0 (output_property_ids out) -> k = DRM_OUTPUT_MAX_PROPERTY).
Proof.
  intros Hl k.
  destruct (index_of_id_spec (output_property_ids out) 0 0 DRM_OUTPUT_MAX_PROPERTY)
    as [H1 [H2 H3]]. fold k in H1, H2, H3.
  split.
  - intros Hin. apply In_nth with (d := 0) in Hin as [j [Hj Hn]].
    assert (Hk : (k < DRM_OUTPUT_MAX_PROPERTY)%nat).
    { destruct (Nat.lt_ge_cases k DRM_OUTPUT_MAX_PROPERTY) as [Hk|Hk]; [exact Hk|].
      exfalso. apply (H2 j); [lia | exact Hn]. }
    split; [exact Hk | apply H3; simpl in *; lia].
  - intros Hn. destruct (Nat.lt_ge_cases k DRM_OUTPUT_MAX_PROPERTY) as [Hk|Hk]; [|lia].
    exfalso. apply Hn. rewrite <- (H3 ltac:(lia)). apply nth_In_Z. lia.
Qed.

(** [drm_output_attach_property] followed by
    [drm_output_property_get_value]: on an output with a free slot, a
    property with a nonzero id that is not attached yet is attached with
    success and then reads back its initial value. *)
Theorem drm_output_attach_property_get_value (out : drm_output) (p : drm_property)
  (init_val v0 : N) :
  List.length (output_property_ids out) = DRM_OUTPUT_MAX_PROPERTY ->
  List.length (output_property_values out) = DRM_OUTPUT_MAX_PROPERTY ->
  In 0 (output_property_ids out) ->
  prop_id p <> 0 -> ~ In (prop_id p) (output_property_ids out) ->
  let '(r, out') := drm_output_attach_property out p init_val in
  r = 0 /\ drm_output_property_get_value out' p v0 = (0, init_val).
Proof.
  intros Hli Hlv Hfree Hp0 Hpn.
  destruct (attach_slot out Hli) as [Hs _].
  destruct (Hs Hfree) as [Hk Hnk]. clear Hs.
  unfold drm_output_attach_property.
  set (k := index_of_id (output_property_ids out) 0 0 DRM_OUTPUT_MAX_PROPERTY) in *.
  assert (Hkn : Nat.eqb k DRM_OUTPUT_MAX_PROPERTY = false) by (apply Nat.eqb_neq; lia).
  rewrite Hkn. split; [reflexivity|].
  unfold drm_output_property_get_value. cbn [set_output_props output_property_ids
    output_property_values].
  rewrite (index_of_id_at _ (prop_id p) k); [| exact Hk | |].
  - rewrite Hkn. unfold nth_u64. rewrite list_set_nth_same by lia. reflexivity.
  - apply list_set_nth_same. lia.
  - intros j Hj. rewrite list_set_nth_other by lia. intros He. apply Hpn.
    rewrite <- He. apply nth_In_Z. lia.
Qed.

(** [drm_output_attach_property] on an output whose sixteen slots are all
    taken returns [-EINVAL] and leaves the output as it was. *)
Theorem drm_output_attach_property_full (out : drm_output) (p : drm_property)
  (init_val : N) :
  List.length (output_property_ids out) = DRM_OUTPUT_MAX_PROPERTY ->
  ~ In 0 (output_property_ids out) ->
  drm_output_attach_property out p init_val = (- EINVAL, out).
Proof.
  intros Hli Hn. destruct (attach_slot out Hli) as [_ Hs].
  unfold drm_output_attach_property. rewrite (Hs Hn). reflexivity.
Qed.

(** [drm_output_property_set_value] followed by
    [drm_output_property_get_value]: setting an attached property succeeds
    and the property then reads back the value set. *)
Theorem drm_output_property_set_get_value (out : drm_output) (p : drm_property)
  (value v0 : N) :
  List.length (output_property_ids out) = DRM_OUTPUT_MAX_PROPERTY ->
  List.length (output_property_values out) = DRM_OUTPUT_MAX_PROPERTY ->
  In (prop_id p) (output_property_ids out) ->
  let '(r, out') := drm_output_property_set_value out p value in
  r = 0 /\ drm_output_property_get_value out' p v0 = (0, value).
Proof.
  intros Hli Hlv Hin.
  destruct (index_of_id_spec (output_property_ids out) (prop_id p) 0
              DRM_OUTPUT_MAX_PROPERTY) as [H1 [H2 H3]].
  set (k := index_of_id (output_property_ids out) (prop_id p) 0
              DRM_OUTPUT_MAX_PROPERTY) in *.
  assert (Hk : (k < DRM_OUTPUT_MAX_PROPERTY)%nat).
  { apply In_nth with (d := 0) in Hin as [j [Hj Hn]].
    destruct (Nat.lt_ge_cases k DRM_OUTPUT_MAX_PROPERTY) as [Hk|Hk]; [exact Hk|].
    exfalso. apply (H2 j); [lia | exact Hn]. }
  assert (Hkn : Nat.eqb k DRM_OUTPUT_MAX_PROPERTY = false) by (apply Nat.eqb_neq; lia).
  unfold drm_output_property_set_value. fold k. rewrite Hkn.
  split; [reflexivity|].
  unfold drm_output_property_get_value. cbn [set_output_props output_property_ids
    output_property_values]. fold k. rewrite Hkn.
  unfold nth_u64. rewrite list_set_nth_same by lia. reflexivity.
Qed.

(** A property that is not attached to the output can be neither set nor
    read: both calls return [-EINVAL], the output is unchanged and [*val]
    is not written. *)
Theorem drm_output_property_unattached (out : drm_output) (p : drm_property)
  (value v0 : N) :
  List.length (output_property_ids out) = DRM_OUTPUT_MAX_PROPERTY ->
  ~ In (prop_id p) (output_property_ids out) ->
  drm_output_property_set_value out p value = (- EINVAL, out) /\
  drm_output_property_get_value out p v0 = (- EINVAL, v0).
Proof.
  intros Hli Hn.
  destruct (index_of_id_spec (output_property_ids out) (prop_id p) 0
              DRM_OUTPUT_MAX_PROPERTY) as [H1 [H2 H3]].
  set (k := index_of_id (output_property_ids out) (prop_id p) 0
              DRM_OUTPUT_MAX_PROPERTY) in *.
  assert (Hk : k = DRM_OUTPUT_MAX_PROPERTY).
  { destruct (Nat.lt_ge_cases k DRM_OUTPUT_MAX_PROPERTY) as [Hk|Hk]; [|lia].
    exfalso. apply Hn. rewrite <- (H3 ltac:(lia)). apply nth_In_Z. lia. }
  unfold drm_output_property_set_value, drm_output_property_get_value.
  fold k. rewrite Hk, Nat.eqb_refl. split; reflexivity.
Qed.

(** Setting one property never changes what another property (with a
    different id) reads back. *)
Theorem drm_output_property_set_value_frame (out : drm_output) (p q : drm_property)
  (value v0 : N) :
  prop_id q <> prop_id p ->
  drm_output_property_get_value (snd (drm_output_property_set_value out p value)) q v0
  = drm_output_property_get_value out q v0.
Proof.
  intros Hqp. unfold drm_output_property_set_value.
  destruct (index_of_id_spec (output_property_ids out) (prop_id p) 0
              DRM_OUTPUT_MAX_PROPERTY) as [Hp1 [_ Hp3]].
  set (kp := index_of_id (output_property_ids out) (prop_id p) 0
               DRM_OUTPUT_MAX_PROPERTY) in *.
  destruct (Nat.eqb_spec kp DRM_OUTPUT_MAX_PROPERTY) as [E|E]; [reflexivity|].
  simpl. unfold drm_output_property_get_value. cbn [set_output_props
    output_property_ids output_property_values].
  destruct (index_of_id_spec (output_property_ids out) (prop_id q) 0
              DRM_OUTPUT_MAX_PROPERTY) as [Hq1 [_ Hq3]].
  set (kq := index_of_id (output_property_ids out) (prop_id q) 0
               DRM_OUTPUT_MAX_PROPERTY) in *.
  destruct (Nat.eqb_spec kq DRM_OUTPUT_MAX_PROPERTY) as [E'|E']; [reflexivity|].
  unfold nth_u64. rewrite list_set_nth_other; [reflexivity|].
  intros Heq. apply Hqp. rewrite <- (Hq3 ltac:(lia)), <- (Hp3 ltac:(lia)), Heq.
  reflexivity.
Qed.

(** Attaching a property never changes what an already attachable
    property with another nonzero id reads back. *)
Theorem drm_output_attach_property_frame (out : drm_output) (p q : drm_property)
  (init_val v0 : N) :
  prop_id q <> 0 -> prop_id q <> prop_id p ->
  drm_output_property_get_value (snd (drm_output_attach_property out p init_val)) q v0
  = drm_output_property_get_value out q v0.
Proof.
  intros Hq0 Hqp. unfold drm_output_attach_property.
  destruct (index_of_id_spec (output_property_ids out) 0 0
              DRM_OUTPUT_MAX_PROPERTY) as [Hp1 [_ Hp3]].
  set (k0 := index_of_id (output_property_ids out) 0 0 DRM_OUTPUT_MAX_PROPERTY) in *.
  destruct (Nat.eqb_spec k0 DRM_OUTPUT_MAX_PROPERTY) as [E|E]; [reflexivity|].
  simpl. unfold drm_output_property_get_value. cbn [set_output_props
    output_property_ids output_property_values].
  assert (Hk0 : nth k0 (output_property_ids out) 0 = 0) by (apply Hp3; lia).
  rewrite (index_of_id_ext (list_set (output_property_ids out) k0 (prop_id p))
             (output_property_ids out)).
  2:{ intros j. destruct (Nat.eq_dec j k0) as [->|Hj].
      - rewrite Hk0. destruct (Nat.lt_ge_cases k0 (List.length (output_property_ids out)))
          as [Hl|Hl].
        + rewrite list_set_nth_same by exact Hl.
          destruct (Z.eqb_spec (prop_id p) (prop_id q)); [congruence|].
          destruct (Z.eqb_spec 0 (prop_id q)); [congruence | reflexivity].
        + rewrite nth_overflow by (rewrite list_set_length; exact Hl). reflexivity.
      - rewrite list_set_nth_other by exact Hj. reflexivity. }
  destruct (index_of_id_spec (output_property_ids out) (prop_id q) 0
              DRM_OUTPUT_MAX_PROPERTY) as [Hq1 [_ Hq3]].
  set (kq := index_of_id (output_property_ids out) (prop_id q) 0
               DRM_OUTPUT_MAX_PROPERTY) in *.
  destruct (Nat.eqb_spec kq DRM_OUTPUT_MAX_PROPERTY) as [E'|E']; [reflexivity|].
  unfold nth_u64. rewrite list_set_nth_other; [reflexivity|].
  intros Heq. apply Hq0. rewrite <- (Hq3 ltac:(lia)), Heq. exact Hk0.
Qed.

Lemma drm_output_attach_property_get_value_witness :
  let '(r, out') := drm_output_attach_property Examples.slot_output Examples.prop9 3 in
  r = 0 /\ drm_output_property_get_value out' Examples.prop9 0 = (0, 3%N).
Proof.
  apply drm_output_attach_property_get_value;
    [reflexivity | reflexivity | simpl; tauto | discriminate |
     simpl; intros H; repeat (destruct H as [H|H]; [discriminate|]); exact H].
Defined.

Lemma drm_output_attach_property_full_witness :
  drm_output_attach_property Examples.full_output Examples.prop9 0
  = (- EINVAL, Examples.full_output).
Proof.
  apply drm_output_attach_property_full;
    [reflexivity | simpl; intros H; repeat (destruct H as [H|H]; [discriminate|]); exact H].
Defined.

Lemma drm_output_property_set_get_value_witness :
  let '(r, out') := drm_output_property_set_value Examples.slot_output Examples.prop5 4 in
  r = 0 /\ drm_output_property_get_value out' Examples.prop5 0 = (0, 4%N).
Proof.
  apply drm_output_property_set_get_value;
    [reflexivity | reflexivity | simpl; tauto].
Defined.

Lemma drm_output_property_unattached_witness :
  drm_output_property_set_value Examples.slot_output Examples.prop9 4
    = (- EINVAL, Examples.slot_output) /\
  drm_output_property_get_value Examples.slot_output Examples.prop9 1 = (- EINVAL, 1%N).
Proof.
  apply drm_output_property_unattached;
    [reflexivity | simpl; intros H; repeat (destruct H as [H|H]; [discriminate|]); exact H].
Defined.

Lemma drm_output_property_set_value_frame_witness :
  drm_output_property_get_value
    (snd (drm_output_property_set_value Examples.slot_output Examples.prop9 4))
    Examples.prop5 0
  = drm_output_property_get_value Examples.slot_output Examples.prop5 0.
Proof. apply drm_output_property_set_value_frame. discriminate. Defined.

Lemma drm_output_attach_property_frame_witness :
  drm_output_property_get_value
    (snd (drm_output_attach_property Examples.slot_output Examples.prop9 4))
    Examples.prop5 0
  = drm_output_property_get_value Examples.slot_output Examples.prop5 0.
Proof. apply drm_output_attach_property_frame; discriminate. Defined.

(** ** User-space mode descriptions *)

Lemma substring_0_full (n : nat) (s : string) :
  (String.length s <= n)%nat -> substring 0 n s = s.
Proof.
  revert n; induction s as [|a s IH]; intros [|n] H; simpl in *; try lia.
  - reflexivity.
  - reflexivity.
  - f_equal. apply IH. lia.
Qed.

Lemma to_s32_to_u32 (v : Z) : - 2 ^ 31 <= v < 2 ^ 31 -> to_s32 (to_u32 v) = v.
Proof.
  intros H. unfold to_s32, to_u32. rewrite Zmod_mod.
  destruct (Z_lt_le_dec v 0) as [Hn|Hp].
  - rewrite <- (Z_mod_plus_full v 1 (2 ^ 32)).
    rewrite Z.mod_small by lia.
    destruct (Z.ltb_spec (v + 1 * 2 ^ 32) (2 ^ 31)); lia.
  - rewrite Z.mod_small by lia.
    destruct (Z.ltb_spec v (2 ^ 31)); lia.
Qed.

Lemma to_u32_to_s32 (u : Z) : 0 <= u < 2 ^ 32 -> to_u32 (to_s32 u) = u.
Proof.
  intros H. unfold to_s32, to_u32. rewrite (Z.mod_small u) by lia.
  destruct (Z.ltb_spec u (2 ^ 31)).
  - apply Z.mod_small. lia.
  - rewrite <- (Z_mod_plus_full (u - 2 ^ 32) 1 (2 ^ 32)).
    replace (u - 2 ^ 32 + 1 * 2 ^ 32) with u by ring.
    apply Z.mod_small. lia.
Qed.

(** A mode whose fields fit the user-space structure survives the trip
    [drm_crtc_convert_to_umode] then [drm_crtc_convert_umode] unchanged:
    its name has at most 31 characters, its timings fit 16 bits, its
    clock, refresh rate and type are [int]s and its flags fit 32 bits. *)
Theorem drm_crtc_convert_umode_to_umode (m : drm_display_mode) :
  (String.length (mode_name m) <= DRM_DISPLAY_MODE_LEN - 1)%nat ->
  Forall (fun v => 0 <= v < 2 ^ 16)
    [hdisplay m; hsync_start m; hsync_end m; htotal m; hskew m;
     vdisplay m; vsync_start m; vsync_end m; vtotal m; vscan m] ->
  Forall (fun v => - 2 ^ 31 <= v < 2 ^ 31) [clock m; vrefresh m; mode_type m] ->
  0 <= mode_flags m < 2 ^ 32 ->
  drm_crtc_convert_umode m (drm_crtc_convert_to_umode m) = m.
Proof.
  intros Hn H16 H32 Hf.
  repeat match goal with H : Forall _ (_ :: _) |- _ => inversion H; subst; clear H end.
  destruct m; simpl in *.
  unfold drm_crtc_convert_umode, drm_crtc_convert_to_umode, mode_name_copy, to_u16; simpl.
  rewrite !to_s32_to_u32 by assumption.
  rewrite (substring_0_full _ _ Hn), (substring_0_full _ _ Hn).
  rewrite !Z.mod_small by assumption.
  unfold to_u32. rewrite Z.mod_small by assumption.
  reflexivity.
Qed.

(** The other trip: a user-space mode whose fields lie in their C types'
    ranges and whose name has at most 31 characters is given back
    unchanged by [drm_crtc_convert_umode] then
    [drm_crtc_convert_to_umode], whatever mode it was written into. *)
Theorem drm_crtc_convert_to_umode_umode (out : drm_display_mode) (u : drm_mode_modeinfo) :
  (String.length (umode_name u) <= DRM_DISPLAY_MODE_LEN - 1)%nat ->
  Forall (fun v => 0 <= v < 2 ^ 16)
    [umode_hdisplay u; umode_hsync_start u; umode_hsync_end u; umode_htotal u;
     umode_hskew u; umode_vdisplay u; umode_vsync_start u; umode_vsync_end u;
     umode_vtotal u; umode_vscan u] ->
  Forall (fun v => 0 <= v < 2 ^ 32)
    [umode_clock u; umode_vrefresh u; umode_flags u; umode_type u] ->
  drm_crtc_convert_to_umode (drm_crtc_convert_umode out u) = u.
Proof.
  intros Hn H16 H32.
  repeat match goal with H : Forall _ (_ :: _) |- _ => inversion H; subst; clear H end.
  destruct u; simpl in *.
  unfold drm_crtc_convert_umode, drm_crtc_convert_to_umode, mode_name_copy, to_u16; simpl.
  rewrite !to_u32_to_s32 by assumption.
  rewrite (substring_0_full _ _ Hn), (substring_0_full _ _ Hn).
  rewrite !Z.mod_small by assumption.
  unfold to_u32. rewrite Z.mod_small by assumption.
  reflexivity.
Qed.

Lemma drm_crtc_convert_umode_to_umode_witness :
  drm_crtc_convert_umode std_mode0 (drm_crtc_convert_to_umode std_mode0) = std_mode0.
Proof.
  apply drm_crtc_convert_umode_to_umode;
    repeat (apply Forall_cons || apply Forall_nil); cbn; lia.
Defined.

Lemma drm_crtc_convert_to_umode_umode_witness :
  drm_crtc_convert_to_umode (drm_crtc_convert_umode Examples.blank_mode Examples.umode_1024)
  = Examples.umode_1024.
Proof.
  apply drm_crtc_convert_to_umode_umode;
    repeat (apply Forall_cons || apply Forall_nil); cbn; lia.
Defined.

(** ** Framebuffer objects and their ioctls *)

Lemma fb_remove_from_crtcs_none (fb : nat) (cs : list nat) (d : dev) :
  (forall c, In c cs -> crtc_fb (crtcs d c) <> Some fb) ->
  fb_remove_from_crtcs fb cs d = d.
Proof.
  revert d; induction cs as [|c cs IH]; intros d H; simpl; [reflexivity|].
  replace (ptr_eqb (crtc_fb (crtcs d c)) (Some fb)) with false.
  - apply IH. intros c' Hc'. apply H. right. exact Hc'.
  - specialize (H c (or_introl eq_refl)).
    destruct (crtc_fb (crtcs d c)) as [f|]; simpl; [|reflexivity].
    destruct (Nat.eqb_spec f fb); [subst; contradiction | reflexivity].
Qed.

Lemma idr_remove_absent {A} (l : Idr.idr A) (id : Z) :
  Idr.idr_find A l id = None -> Idr.idr_remove A l id = l.
Proof.
  unfold Idr.idr_remove.
  induction l as [|[k p] l IH]; simpl; intros H; [reflexivity|].
  destruct (Z.eqb_spec k id) as [->|Hne]; [discriminate|].
  simpl. f_equal. apply IH. exact H.
Qed.

Lemma dev_eta (d : dev) :
  d = mkDev (crtc_list d) (crtcs d) (output_list d) (outputs d) (fb_list d)
        (fb_ids d) (num_fb d) (crtc_idr d) (props d) (trace d).
Proof. destruct d; reflexivity. Qed.

(** [drm_framebuffer_create] followed by [drm_framebuffer_destroy] of the
    new framebuffer gives the device back: the framebuffer list, the
    count, the registry and every CRTC are as before (only the freed
    object's [id] field keeps its value).  This needs no CRTC to show the
    new address, and id 0 not to be registered (it is what the new
    framebuffer gets when preallocation fails). *)
Theorem drm_framebuffer_create_destroy (pre_get_ok : bool) (fb : nat) (d : dev) :
  (forall c, In c (crtc_list d) -> crtc_fb (crtcs d c) <> Some fb) ->
  Idr.idr_find drm_obj (crtc_idr d) 0 = None ->
  let '(r, d1) := drm_framebuffer_create true pre_get_ok fb d in
  r = Some fb /\
  drm_framebuffer_destroy fb d1 =
    mkDev (crtc_list d) (crtcs d) (output_list d) (outputs d) (fb_list d)
      (fb_ids d1) (num_fb d) (crtc_idr d) (props d) (trace d).
Proof.
  intros Hc H0. unfold drm_framebuffer_create. cbn [negb].
  destruct (IdrFacts.drm_idr_get_cases drm_obj pre_get_ok (crtc_idr d) (ObjFb fb))
    as [E|[n [E [_ Hn]]]]; rewrite E; (split; [reflexivity|]);
    unfold drm_framebuffer_destroy;
    (rewrite fb_remove_from_crtcs_none by exact Hc);
    unfold fb_release; cbn [crtc_list crtcs output_list outputs fb_list fb_ids num_fb
      crtc_idr props trace list_del]; rewrite Nat.eqb_refl;
    unfold heap_upd; rewrite Nat.eqb_refl; unfold Idr.drm_idr_put;
    replace (num_fb d + 1 - 1) with (num_fb d) by ring.
  - rewrite idr_remove_absent by exact H0. reflexivity.
  - rewrite <- (idr_remove_absent (crtc_idr d) n Hn) at 2.
    unfold Idr.idr_remove. cbn [filter fst]. rewrite Z.eqb_refl. reflexivity.
Qed.


Lemma crtc_from_fb_scan_spec (d : dev) (fb : nat) (cs : list nat) :
  match crtc_from_fb_scan d fb cs with
  | Some c => exists pre post, cs = pre ++ c :: post /\
                crtc_fb (crtcs d c) = Some fb /\
                forall c', In c' pre -> crtc_fb (crtcs d c') <> Some fb
  | None => forall c, In c cs -> crtc_fb (crtcs d c) <> Some fb
  end.
Proof.
  induction cs as [|c cs IH]; simpl; [intros _ []|].
  destruct (crtc_fb (crtcs d c)) as [f|] eqn:Ef; simpl.
  - destruct (Nat.eqb_spec f fb) as [->|Hne].
    + exists [], cs. split; [reflexivity|]. split; [exact Ef | intros _ []].
    + destruct (crtc_from_fb_scan d fb cs) as [c0|].
      * destruct IH as [pre [post [-> [H1 H2]]]].
        exists (c :: pre), post. split; [reflexivity|]. split; [exact H1|].
        intros c' [<-|Hc']; [rewrite Ef; congruence | auto].
      * intros c' [<-|Hc']; [rewrite Ef; congruence | auto].
  - destruct (crtc_from_fb_scan d fb cs) as [c0|].
    + destruct IH as [pre [post [-> [H1 H2]]]].
      exists (c :: pre), post. split; [reflexivity|]. split; [exact H1|].
      intros c' [<-|Hc']; [rewrite Ef; discriminate | auto].
    + intros c' [<-|Hc']; [rewrite Ef; discriminate | auto].
Qed.

(** [drm_crtc_from_fb] returns the first CRTC of the list that scans out
    [fb], and NULL exactly when none does; in particular it returns NULL
    once [drm_framebuffer_destroy] has run on [fb]. *)
Theorem drm_crtc_from_fb_first (d : dev) (fb : nat) :
  (forall c, drm_crtc_from_fb d fb = Some c <->
     exists pre post, crtc_list d = pre ++ c :: post /\
       crtc_fb (crtcs d c) = Some fb /\
       forall c', In c' pre -> crtc_fb (crtcs d c') <> Some fb) /\
  (drm_crtc_from_fb d fb = None <->
     forall c, In c (crtc_list d) -> crtc_fb (crtcs d c) <> Some fb) /\
  drm_crtc_from_fb (drm_framebuffer_destroy fb d) fb = None.
Proof.
  assert (Huniq : forall c1 c2 pre1 post1 pre2 post2,
    pre1 ++ c1 :: post1 = pre2 ++ c2 :: post2 ->
    crtc_fb (crtcs d c1) = Some fb -> crtc_fb (crtcs d c2) = Some fb ->
    (forall c', In c' pre1 -> crtc_fb (crtcs d c') <> Some fb) ->
    (forall c', In c' pre2 -> crtc_fb (crtcs d c') <> Some fb) -> c1 = c2).
  { intros c1 c2 pre1.
    induction pre1 as [|x pre1 IH]; intros post1 [|y pre2] post2 E H1 H2 P1 P2;
      simpl in E; injection E as Ea Eb.
    - exact Ea.
    - exfalso. apply (P2 y (or_introl eq_refl)). rewrite <- Ea. exact H1.
    - exfalso. apply (P1 x (or_introl eq_refl)). rewrite Ea. exact H2.
    - apply (IH post1 pre2 post2 Eb H1 H2);
        intros c' Hc'; [apply P1 | apply P2]; right; exact Hc'. }
  unfold drm_crtc_from_fb.
  assert (S := crtc_from_fb_scan_spec d fb (crtc_list d)).
  split; [|split].
  - intros c. destruct (crtc_from_fb_scan d fb (crtc_list d)) as [c0|].
    + split.
      * intros [= <-]. exact S.
      * intros [pre [post [E [H1 H2]]]]. f_equal.
        destruct S as [pre0 [post0 [E0 [H01 H02]]]].
        apply (Huniq c0 c pre0 post0 pre post); [congruence | assumption..].
    + split; [discriminate|].
      intros [pre [post [E [H1 _]]]]. exfalso. apply (S c); [|exact H1].
      rewrite E. apply in_or_app. right. left. reflexivity.
  - destruct (crtc_from_fb_scan d fb (crtc_list d)) as [c0|].
    + split; [discriminate|]. intros H. destruct S as [pre [post [E [H1 _]]]].
      exfalso. apply (H c0); [|exact H1]. rewrite E. apply in_or_app. right. left.
      reflexivity.
    + split; [intros _; exact S | reflexivity].
  - clear S.
    assert (S := crtc_from_fb_scan_spec (drm_framebuffer_destroy fb d) fb
                   (crtc_list (drm_framebuffer_destroy fb d))).
    destruct (crtc_from_fb_scan _ fb _) as [c0|]; [|reflexivity].
    exfalso. destruct S as [pre [post [E [H1 _]]]].
    destruct (fb_remove_from_crtcs_spec fb (crtc_list d) d)
      as [B1 [_ [_ [_ [_ B6]]]]].
    unfold drm_framebuffer_destroy, fb_release in E, H1. simpl in E, H1.
    rewrite B1 in E. apply (B6 c0); [|exact H1].
    rewrite E. apply in_or_app. right. left. reflexivity.
Qed.

Lemma list_del_incl (p q : nat) (l : list nat) : In q (list_del p l) -> In q l.
Proof.
  induction l as [|x l IH]; simpl; [tauto|].
  destruct (Nat.eqb x p); simpl; intros H; [right; exact H | tauto].
Qed.

Lemma list_del_nodup_gone (p : nat) (l : list nat) :
  NoDup l -> ~ In p (list_del p l).
Proof.
  induction l as [|x l IH]; simpl; [tauto|]. intros Hnd.
  inversion Hnd as [|? ? Hx Hl]; subst.
  destruct (Nat.eqb_spec x p) as [->|Hne].
  - exact Hx.
  - intros [E|H]; [contradiction | exact (IH Hl H)].
Qed.

Lemma idr_find_remove_absent {A} (l : Idr.idr A) (x id : Z) :
  Idr.idr_find A l id = None -> Idr.idr_find A (Idr.drm_idr_put A l x) id = None.
Proof.
  intros H. apply IdrFacts.idr_find_None_iff. intros Hin.
  apply IdrFacts.idr_ids_remove_incl in Hin.
  apply IdrFacts.idr_find_None_iff in H. contradiction.
Qed.

Lemma fb_remove_from_crtcs_num_fb (fb : nat) (cs : list nat) (d : dev) :
  num_fb (fb_remove_from_crtcs fb cs d) = num_fb d.
Proof.
  revert d; induction cs as [|c cs IH]; intros d; simpl; [reflexivity|].
  rewrite IH. destruct (ptr_eqb _ _); reflexivity.
Qed.

Lemma drm_framebuffer_destroy_frame (fb : nat) (d : dev) :
  let d' := drm_framebuffer_destroy fb d in
  crtc_list d' = crtc_list d /\ fb_ids d' = fb_ids d /\
  num_fb d' = num_fb d - 1 /\ fb_list d' = list_del fb (fb_list d) /\
  crtc_idr d' = Idr.drm_idr_put drm_obj (crtc_idr d) (fb_ids d fb) /\
  (forall c, crtc_fb (crtcs d' c) = crtc_fb (crtcs d c) \/
             crtc_fb (crtcs d' c) = None) /\
  (forall c, In c (crtc_list d) -> crtc_fb (crtcs d' c) <> Some fb).
Proof.
  destruct (fb_remove_from_crtcs_spec fb (crtc_list d) d)
    as [B1 [B2 [B3 [B4 [B5 B6]]]]].
  unfold drm_framebuffer_destroy, fb_release; simpl.
  rewrite B1, B2, B3, B4, fb_remove_from_crtcs_num_fb. repeat (split; [reflexivity|]).
  split; [exact B5 | exact B6].
Qed.

(** [drm_mode_rmfb] refuses, with [-EINVAL] and no change to the device
    or to the file's list, an id that does not name a framebuffer whose
    [id] field is that id and that the file owns. *)
Theorem drm_mode_rmfb_reject (fbs : list nat) (id : Z) (d : dev) :
  (forall fb, Idr.idr_find drm_obj (crtc_idr d) id = Some (ObjFb fb) ->
              fb_ids d fb = id -> ~ In fb fbs) ->
  drm_mode_rmfb fbs id d = ((- EINVAL, fbs), d).
Proof.
  intros H. unfold drm_mode_rmfb, bind, get, ret.
  destruct (Idr.idr_find drm_obj (crtc_idr d) id) as [[c|o|fb|p|]|] eqn:E;
    try reflexivity.
  destruct (Z.eqb_spec id (fb_ids d fb)) as [Hid|Hid]; [|reflexivity].
  cbn [negb].
  destruct (existsb (Nat.eqb fb) fbs) eqn:Ex; [|reflexivity].
  exfalso. apply existsb_exists in Ex as [x [Hx Ex]].
  apply Nat.eqb_eq in Ex. subst x. apply (H fb eq_refl (eq_sym Hid) Hx).
Qed.

(** When [drm_mode_rmfb] is given the id of a framebuffer the file owns
    (each listed once), it returns 0 and the framebuffer is gone: unlinked
    from the file's list (the others stay), from the device's list and
    count, from every CRTC, and its id no longer resolves. *)
Theorem drm_mode_rmfb_removes (fbs : list nat) (fb : nat) (d : dev) :
  Idr.idr_find drm_obj (crtc_idr d) (fb_ids d fb) = Some (ObjFb fb) ->
  In fb fbs -> NoDup fbs ->
  let '((r, fbs'), d1) := drm_mode_rmfb fbs (fb_ids d fb) d in
  r = 0 /\ ~ In fb fbs' /\ (forall x, x <> fb -> In x fbs' <-> In x fbs) /\
  fb_list d1 = list_del fb (fb_list d) /\ num_fb d1 = num_fb d - 1 /\
  crtc_list d1 = crtc_list d /\
  (forall c, In c (crtc_list d1) -> crtc_fb (crtcs d1 c) <> Some fb) /\
  Idr.idr_find drm_obj (crtc_idr d1) (fb_ids d fb) = None.
Proof.
  intros E Hin Hnd. unfold drm_mode_rmfb, bind, get, ret, modify.
  rewrite E, Z.eqb_refl. cbn [negb].
  replace (existsb (Nat.eqb fb) fbs) with true
    by (symmetry; apply existsb_exists; exists fb; split; [exact Hin | apply Nat.eqb_refl]).
  destruct (drm_framebuffer_destroy_frame fb d) as [F1 [F2 [F3 [F4 [F5 [_ F7]]]]]].
  split; [reflexivity|]. split; [exact (list_del_nodup_gone fb fbs Hnd)|].
  split.
  { intros x Hx. split; [apply list_del_incl | intros Hx'; apply list_del_in; assumption]. }
  split; [exact F4|]. split; [exact F3|]. split; [exact F1|].
  split; [rewrite F1; exact F7|].
  rewrite F5. apply IdrFacts.idr_find_remove_same.
Qed.

Lemma fb_release_all_spec (fbs : list nat) (d : dev) :
  let d1 := snd (fb_release_all fbs d) in
  crtc_list d1 = crtc_list d /\ fb_ids d1 = fb_ids d /\
  num_fb d1 = num_fb d - Z.of_nat (List.length fbs) /\
  (forall c, crtc_fb (crtcs d1 c) = crtc_fb (crtcs d c) \/
             crtc_fb (crtcs d1 c) = None) /\
  (forall id, Idr.idr_find drm_obj (crtc_idr d) id = None ->
              Idr.idr_find drm_obj (crtc_idr d1) id = None) /\
  (forall fb c, In fb fbs -> In c (crtc_list d) -> crtc_fb (crtcs d1 c) <> Some fb) /\
  (forall fb, In fb fbs -> Idr.idr_find drm_obj (crtc_idr d1) (fb_ids d fb) = None).
Proof.
  revert d; induction fbs as [|fb fbs IH]; intros d; simpl.
  - rewrite Z.sub_0_r. repeat (split; [reflexivity|]).
    split; [intros c; left; reflexivity|]. split; [tauto|]. split; intros; simpl in *; contradiction.
  - unfold bind, modify. simpl.
    destruct (drm_framebuffer_destroy_frame fb d) as [F1 [F2 [F3 [F4 [F5 [F6 F7]]]]]].
    destruct (IH (drm_framebuffer_destroy fb d)) as [I1 [I2 [I3 [I4 [I5 [I6 I7]]]]]].
    destruct (fb_release_all fbs (drm_framebuffer_destroy fb d)) as [u d1].
    simpl in *. rewrite F1 in I1, I6. rewrite F2 in I2, I7. rewrite F3 in I3.
    split; [exact I1|]. split; [exact I2|]. split; [lia|].
    split.
    { intros c. destruct (I4 c) as [G|G]; [rewrite G; apply F6 | right; exact G]. }
    split.
    { intros id H. apply I5. rewrite F5. apply idr_find_remove_absent. exact H. }
    split.
    { intros g c [<-|Hg] Hc.
      - destruct (I4 c) as [G|G]; rewrite G; [exact (F7 c Hc) | discriminate].
      - exact (I6 g c Hg Hc). }
    intros g [<-|Hg].
    + apply I5. rewrite F5. apply IdrFacts.idr_find_remove_same.
    + exact (I7 g Hg).
Qed.

(** [drm_fb_release] destroys every framebuffer of the file: afterwards
    none of them is shown by a CRTC, none of their ids resolves, the
    framebuffer count dropped by the length of the list, no other CRTC
    gained a framebuffer, and the file's list is empty. *)
Theorem drm_fb_release_destroys_all (fbs : list nat) (d : dev) :
  let '(fbs', d1) := drm_fb_release fbs d in
  fbs' = [] /\ crtc_list d1 = crtc_list d /\
  num_fb d1 = num_fb d - Z.of_nat (List.length fbs) /\
  (forall c, crtc_fb (crtcs d1 c) = crtc_fb (crtcs d c) \/
             crtc_fb (crtcs d1 c) = None) /\
  (forall fb c, In fb fbs -> In c (crtc_list d1) -> crtc_fb (crtcs d1 c) <> Some fb) /\
  (forall fb, In fb fbs -> Idr.idr_find drm_obj (crtc_idr d1) (fb_ids d fb) = None).
Proof.
  unfold drm_fb_release, bind, ret.
  destruct (fb_release_all_spec fbs d) as [I1 [_ [I3 [I4 [_ [I6 I7]]]]]].
  destruct (fb_release_all fbs d) as [u d1]. simpl in *.
  split; [reflexivity|]. split; [exact I1|]. split; [exact I3|].
  split; [exact I4|]. split; [|exact I7].
  intros fb c Hfb Hc. rewrite I1 in Hc. exact (I6 fb c Hfb Hc).
Qed.

Lemma drm_framebuffer_create_destroy_witness :
  (forall c, In c (crtc_list Examples.fb_dev) ->
     crtc_fb (crtcs Examples.fb_dev c) <> Some 12%nat) /\
  Idr.idr_find drm_obj (crtc_idr Examples.fb_dev) 0 = None /\
  let '(r, d1) := drm_framebuffer_create true true 12 Examples.fb_dev in
  r = Some 12%nat /\
  drm_framebuffer_destroy 12 d1 =
    mkDev (crtc_list Examples.fb_dev) (crtcs Examples.fb_dev)
      (output_list Examples.fb_dev) (outputs Examples.fb_dev)
      (fb_list Examples.fb_dev) (fb_ids d1) (num_fb Examples.fb_dev)
      (crtc_idr Examples.fb_dev) (props Examples.fb_dev) (trace Examples.fb_dev).
Proof.
  assert (H1 : forall c, In c (crtc_list Examples.fb_dev) ->
     crtc_fb (crtcs Examples.fb_dev c) <> Some 12%nat).
  { simpl. intros c [<-|[<-|[]]]; simpl; discriminate. }
  assert (H2 : Idr.idr_find drm_obj (crtc_idr Examples.fb_dev) 0 = None)
    by reflexivity.
  split; [exact H1|]. split; [exact H2|].
  exact (drm_framebuffer_create_destroy true 12 Examples.fb_dev H1 H2).
Defined.

Lemma drm_mode_rmfb_reject_witness :
  (forall fb, Idr.idr_find drm_obj (crtc_idr Examples.fb_dev) 11 = Some (ObjFb fb) ->
     fb_ids Examples.fb_dev fb = 11 -> ~ In fb [10%nat]) /\
  drm_mode_rmfb [10%nat] 11 Examples.fb_dev = ((- EINVAL, [10%nat]), Examples.fb_dev).
Proof.
  assert (H : forall fb, Idr.idr_find drm_obj (crtc_idr Examples.fb_dev) 11 = Some (ObjFb fb) ->
     fb_ids Examples.fb_dev fb = 11 -> ~ In fb [10%nat]).
  { simpl. intros fb E. injection E as <-. simpl. intros _ [E|[]]. discriminate. }
  split; [exact H|].
  exact (drm_mode_rmfb_reject [10%nat] 11 Examples.fb_dev H).
Defined.

Lemma drm_mode_rmfb_removes_witness :
  Idr.idr_find drm_obj (crtc_idr Examples.fb_dev) (fb_ids Examples.fb_dev 10) =
    Some (ObjFb 10) /\
  In 10%nat [10; 11]%nat /\ NoDup [10; 11]%nat /\
  let '((r, fbs'), d1) := drm_mode_rmfb [10; 11]%nat (fb_ids Examples.fb_dev 10) Examples.fb_dev in
  r = 0 /\ ~ In 10%nat fbs' /\ (forall x, x <> 10%nat -> In x fbs' <-> In x [10; 11]%nat) /\
  fb_list d1 = list_del 10 (fb_list Examples.fb_dev) /\
  num_fb d1 = num_fb Examples.fb_dev - 1 /\
  crtc_list d1 = crtc_list Examples.fb_dev /\
  (forall c, In c (crtc_list d1) -> crtc_fb (crtcs d1 c) <> Some 10%nat) /\
  Idr.idr_find drm_obj (crtc_idr d1) (fb_ids Examples.fb_dev 10) = None.
Proof.
  assert (H1 : Idr.idr_find drm_obj (crtc_idr Examples.fb_dev) (fb_ids Examples.fb_dev 10) =
    Some (ObjFb 10)) by reflexivity.
  assert (H2 : In 10%nat [10; 11]%nat) by (left; reflexivity).
  assert (H3 : NoDup [10; 11]%nat)
    by (constructor; [simpl; intros [E|[]]; discriminate | constructor; [simpl; tauto | constructor]]).
  split; [exact H1|]. split; [exact H2|]. split; [exact H3|].
  exact (drm_mode_rmfb_removes [10; 11]%nat 10 Examples.fb_dev H1 H2 H3).
Defined.

(** ** Reading back a CRTC *)







(** ** The cursor ioctl *)

Section CursorFacts.
Variable CF : nat -> drm_crtc_cursor_funcs.
Variable object_hash : list (Z * drm_user_object).
Variables DRM_MODE_CURSOR_BO DRM_MODE_CURSOR_MOVE : Z.

Lemma has_flag_nonzero (flags bit : Z) : has_flag flags bit = true -> flags <> 0.
Proof. unfold has_flag. intros H ->. rewrite Z.land_0_l in H. discriminate. Qed.

Lemma drm_mode_cursor_ioctl_on (d : dev) (c : nat) (req : drm_mode_cursor) :
  cur_flags req <> 0 ->
  Idr.idr_find drm_obj (crtc_idr d) (cur_crtc req) = Some (ObjCrtc c) ->
  crtc_id (crtcs d c) = cur_crtc req ->
  drm_mode_cursor_ioctl CF object_hash DRM_MODE_CURSOR_BO DRM_MODE_CURSOR_MOVE d req =
  cursor_on_crtc CF object_hash DRM_MODE_CURSOR_BO DRM_MODE_CURSOR_MOVE c req.
Proof.
  intros Hf E Hid. unfold drm_mode_cursor_ioctl.
  apply Z.eqb_neq in Hf. rewrite Hf, E, Hid, Z.eqb_refl. reflexivity.
Qed.


(** With [DRM_MODE_CURSOR_BO] set and a nonzero handle that
    [drm_get_buffer_object] cannot resolve to a buffer object,
    [drm_mode_cursor_ioctl] answers [-EINVAL] without calling any hook,
    even when a move is also requested. *)
Theorem drm_mode_cursor_ioctl_bad_handle (d : dev) (c : nat) (req : drm_mode_cursor) :
  Idr.idr_find drm_obj (crtc_idr d) (cur_crtc req) = Some (ObjCrtc c) ->
  crtc_id (crtcs d c) = cur_crtc req ->
  has_flag (cur_flags req) DRM_MODE_CURSOR_BO = true ->
  cur_handle req <> 0 ->
  fst (drm_get_buffer_object object_hash (cur_handle req)) <> 0 ->
  drm_mode_cursor_ioctl CF object_hash DRM_MODE_CURSOR_BO DRM_MODE_CURSOR_MOVE d req =
  (- EINVAL, []).
Proof.
  intros E Hid Hbo Hh Hr.
  rewrite (drm_mode_cursor_ioctl_on d c req (has_flag_nonzero _ _ Hbo) E Hid).
  unfold cursor_on_crtc. rewrite Hbo.
  apply Z.eqb_neq in Hh. rewrite Hh. cbn [negb].
  destruct (drm_get_buffer_object object_hash (cur_handle req)) as [r bo].
  simpl in Hr. apply Z.eqb_neq in Hr. rewrite Hr. reflexivity.
Qed.

(** With both [DRM_MODE_CURSOR_BO] and [DRM_MODE_CURSOR_MOVE] set, a usable
    handle (0, which turns the cursor off with a NULL buffer, or one that
    resolves) and both hooks present, [drm_mode_cursor_ioctl] calls
    [cursor_set] then [cursor_move], and returns what [cursor_move]
    returns: an error from [cursor_set] is not reported. *)
Theorem drm_mode_cursor_ioctl_set_then_move (d : dev) (c : nat) (req : drm_mode_cursor)
  (fs : nat -> option nat -> Z -> Z -> Z) (fm : nat -> Z -> Z -> Z) :
  Idr.idr_find drm_obj (crtc_idr d) (cur_crtc req) = Some (ObjCrtc c) ->
  crtc_id (crtcs d c) = cur_crtc req ->
  has_flag (cur_flags req) DRM_MODE_CURSOR_BO = true ->
  has_flag (cur_flags req) DRM_MODE_CURSOR_MOVE = true ->
  (cur_handle req = 0 \/ fst (drm_get_buffer_object object_hash (cur_handle req)) = 0) ->
  cursor_set (CF c) = Some fs -> cursor_move (CF c) = Some fm ->
  let bo := if cur_handle req =? 0 then None
            else snd (drm_get_buffer_object object_hash (cur_handle req)) in
  drm_mode_cursor_ioctl CF object_hash DRM_MODE_CURSOR_BO DRM_MODE_CURSOR_MOVE d req =
  (fm c (cur_x req) (cur_y req),
   [Call_cursor_set c bo (cur_width req) (cur_height req);
    Call_cursor_move c (cur_x req) (cur_y req)]).
Proof.
  intros E Hid Hbo Hmv Hh Hs Hm bo.
  rewrite (drm_mode_cursor_ioctl_on d c req (has_flag_nonzero _ _ Hbo) E Hid).
  unfold cursor_on_crtc, cursor_move_step. rewrite Hbo, Hmv, Hs, Hm.
  subst bo. destruct (Z.eqb_spec (cur_handle req) 0) as [H0|H0]; cbn [negb].
  - reflexivity.
  - destruct Hh as [Hh|Hh]; [contradiction|].
    destruct (drm_get_buffer_object object_hash (cur_handle req)) as [r b].
    simpl in Hh |- *. subst r. reflexivity.
Qed.

(** A requested operation whose hook the CRTC lacks makes
    [drm_mode_cursor_ioctl] answer [-EFAULT]: [cursor_set] for
    [DRM_MODE_CURSOR_BO] (once the handle is usable), or [cursor_move] for
    a move-only request; no hook is called. *)
Theorem drm_mode_cursor_ioctl_no_hook (d : dev) (c : nat) (req : drm_mode_cursor) :
  Idr.idr_find drm_obj (crtc_idr d) (cur_crtc req) = Some (ObjCrtc c) ->
  crtc_id (crtcs d c) = cur_crtc req ->
  ((has_flag (cur_flags req) DRM_MODE_CURSOR_BO = true /\
    (cur_handle req = 0 \/ fst (drm_get_buffer_object object_hash (cur_handle req)) = 0) /\
    cursor_set (CF c) = None) \/
   (has_flag (cur_flags req) DRM_MODE_CURSOR_BO = false /\
    has_flag (cur_flags req) DRM_MODE_CURSOR_MOVE = true /\
    cursor_move (CF c) = None)) ->
  drm_mode_cursor_ioctl CF object_hash DRM_MODE_CURSOR_BO DRM_MODE_CURSOR_MOVE d req =
  (- EFAULT, []).
Proof.
  intros E Hid [[Hbo [Hh Hs]]|[Hbo [Hmv Hm]]].
  - rewrite (drm_mode_cursor_ioctl_on d c req (has_flag_nonzero _ _ Hbo) E Hid).
    unfold cursor_on_crtc. rewrite Hbo, Hs.
    destruct (Z.eqb_spec (cur_handle req) 0) as [H0|H0]; cbn [negb].
    + reflexivity.
    + destruct Hh as [Hh|Hh]; [contradiction|].
      destruct (drm_get_buffer_object object_hash (cur_handle req)) as [r b].
      simpl in Hh |- *. subst r. reflexivity.
  - rewrite (drm_mode_cursor_ioctl_on d c req (has_flag_nonzero _ _ Hmv) E Hid).
    unfold cursor_on_crtc, cursor_move_step. rewrite Hbo, Hmv, Hm. reflexivity.
Qed.

End CursorFacts.


Lemma drm_mode_cursor_ioctl_bad_handle_witness :
  Idr.idr_find drm_obj (crtc_idr Examples.crtc_dev) 1 = Some (ObjCrtc 0) /\
  crtc_id (crtcs Examples.crtc_dev 0) = 1 /\
  has_flag 3 1 = true /\ 8 <> 0 /\
  fst (drm_get_buffer_object Examples.cursor_hash 8) <> 0 /\
  drm_mode_cursor_ioctl (fun _ => Examples.cursor_funcs_ex) Examples.cursor_hash 1 2
    Examples.crtc_dev (mkCursorReq 3 1 5 6 64 64 8) = (- EINVAL, []).
Proof.
  assert (H1 : Idr.idr_find drm_obj (crtc_idr Examples.crtc_dev) 1 = Some (ObjCrtc 0))
    by reflexivity.
  assert (H2 : crtc_id (crtcs Examples.crtc_dev 0) = 1) by reflexivity.
  assert (H3 : has_flag 3 1 = true) by reflexivity.
  assert (H4 : 8 <> 0) by discriminate.
  assert (H5 : fst (drm_get_buffer_object Examples.cursor_hash 8) <> 0)
    by (vm_compute; discriminate).
  split; [exact H1|]. split; [exact H2|]. split; [exact H3|]. split; [exact H4|].
  split; [exact H5|].
  exact (drm_mode_cursor_ioctl_bad_handle (fun _ => Examples.cursor_funcs_ex)
           Examples.cursor_hash 1 2 Examples.crtc_dev 0 (mkCursorReq 3 1 5 6 64 64 8)
           H1 H2 H3 H4 H5).
Defined.

Lemma drm_mode_cursor_ioctl_set_then_move_witness :
  drm_mode_cursor_ioctl (fun _ => Examples.cursor_funcs_ex) Examples.cursor_hash 1 2
    Examples.crtc_dev (mkCursorReq 3 1 5 6 64 64 7) =
  (0, [Call_cursor_set 0 (Some 40%nat) 64 64; Call_cursor_move 0 5 6]).
Proof.
  exact (drm_mode_cursor_ioctl_set_then_move (fun _ => Examples.cursor_funcs_ex)
           Examples.cursor_hash 1 2 Examples.crtc_dev 0 (mkCursorReq 3 1 5 6 64 64 7)
           (fun _ _ _ _ => - EINVAL) (fun _ _ _ => 0)
           eq_refl eq_refl eq_refl eq_refl (or_intror eq_refl) eq_refl eq_refl).
Defined.

Lemma drm_mode_cursor_ioctl_no_hook_witness :
  drm_mode_cursor_ioctl (fun _ => mkCursorFuncs (Some (fun _ _ _ _ => 0)) None)
    Examples.cursor_hash 1 2 Examples.crtc_dev (mkCursorReq 2 1 5 6 64 64 0) =
  (- EFAULT, []).
Proof.
  exact (drm_mode_cursor_ioctl_no_hook (fun _ => mkCursorFuncs (Some (fun _ _ _ _ => 0)) None)
           Examples.cursor_hash 1 2 Examples.crtc_dev 0 (mkCursorReq 2 1 5 6 64 64 0)
           eq_refl eq_refl (or_intror (conj eq_refl (conj eq_refl eq_refl)))).
Defined.

(** ** Output bindings after [drm_crtc_set_config] *)

Lemma ptr_eqb_eq (a b : option nat) : ptr_eqb a b = true <-> a = b.
Proof.
  destruct a as [x|], b as [y|]; simpl; split; try congruence.
  - intros H. apply Nat.eqb_eq in H. congruence.
  - intros [= ->]. apply Nat.eqb_refl.
Qed.

Lemma set_config_bind_crtcs (c : nat) (outs : list nat) (changed : bool)
  (os : list nat) (d : dev) :
  NoDup os ->
  forall o, In o os ->
  output_crtc (outputs (snd (set_config_bind c outs changed os d)) o) =
  (if existsb (Nat.eqb o) outs then Some c
   else if ptr_eqb (output_crtc (outputs d o)) (Some c) then None
   else output_crtc (outputs d o)).
Proof.
  revert d changed; induction os as [|o0 os IH]; intros d changed Hnd o Ho;
    [destruct Ho|].
  inversion Hnd as [|? ? Hnin Hnd']; subst. simpl.
  unfold bind, get_output. cbv beta iota.
  set (nc := if existsb (Nat.eqb o0) outs then Some c
             else if ptr_eqb (output_crtc (outputs d o0)) (Some c) then None
                  else output_crtc (outputs d o0)).
  set (d1 := (if ptr_eqb nc (output_crtc (outputs d o0)) then ret tt
              else upd_output o0 (set_output_crtc nc)) d).
  assert (H1 : output_crtc (outputs (snd d1) o0) = nc /\
               forall o', o' <> o0 -> outputs (snd d1) o' = outputs d o').
  { unfold d1. destruct (ptr_eqb nc (output_crtc (outputs d o0))) eqn:E; simpl.
    - apply ptr_eqb_eq in E. split; [symmetry; exact E | reflexivity].
    - unfold heap_upd. rewrite Nat.eqb_refl. split; [reflexivity|].
      intros o' Hne. apply Nat.eqb_neq in Hne. rewrite Hne. reflexivity. }
  destruct H1 as [H1a H1b].
  pose proof (set_config_bind_spec c outs
    (changed || negb (ptr_eqb nc (output_crtc (outputs d o0)))) os (snd d1) Hnd') as Hs.
  pose proof (IH (snd d1) (changed || negb (ptr_eqb nc (output_crtc (outputs d o0))))
    Hnd') as IHd.
  destruct d1 as [u d1']. simpl in H1a, H1b, Hs, IHd |- *.
  destruct (set_config_bind c outs _ os d1') as [[saves ch] d2] eqn:Eb.
  destruct Hs as [_ [_ [_ [_ B5]]]]. simpl in IHd |- *.
  destruct Ho as [<-|Ho].
  - rewrite (B5 o0 Hnin). exact H1a.
  - assert (Hne : o <> o0) by (intros ->; contradiction).
    rewrite (IHd o Ho), (H1b o Hne). reflexivity.
Qed.

Lemma dpms_off_outputs_trace (os : list nat) (d : dev) :
  exists evs, dpms_off_outputs os d = (tt, with_trace d (trace d ++ evs)).
Proof.
  revert d; induction os as [|o os IH]; intros d; simpl.
  - exists []. rewrite app_nil_r. destruct d; reflexivity.
  - unfold bind, get_output. cbv beta iota.
    destruct (ptr_eqb (output_crtc (outputs d o)) None);
      unfold log, modify, ret; cbv beta iota.
    + destruct (IH (dev_log (Ev_output_dpms o DPMSModeOff) d)) as [evs E].
      rewrite E. exists (Ev_output_dpms o DPMSModeOff :: evs).
      destruct d; simpl. rewrite <- app_assoc. reflexivity.
    + destruct (IH d) as [evs E]. rewrite E. exists evs. reflexivity.
Qed.

Lemma dpms_off_crtcs_trace (cs : list nat) (d : dev) :
  exists evs, dpms_off_crtcs cs d = (tt, with_trace d (trace d ++ evs)).
Proof.
  revert d; induction cs as [|c cs IH]; intros d; simpl.
  - exists []. rewrite app_nil_r. destruct d; reflexivity.
  - unfold bind, get_crtc. cbv beta iota.
    destruct (crtc_enabled (crtcs d c)); unfold log, modify, ret; cbv beta iota.
    + destruct (IH d) as [evs E]. rewrite E. exists evs. reflexivity.
    + destruct (IH (dev_log (Ev_crtc_dpms c DPMSModeOff) d)) as [evs E].
      rewrite E. exists (Ev_crtc_dpms c DPMSModeOff :: evs).
      destruct d; simpl. rewrite <- app_assoc. reflexivity.
Qed.

Lemma drm_disable_unused_functions_trace (d : dev) :
  exists evs, drm_disable_unused_functions d = (tt, with_trace d (trace d ++ evs)).
Proof.
  unfold drm_disable_unused_functions, bind, get. cbv beta iota.
  destruct (dpms_off_outputs_trace (output_list d) d) as [e1 E1]. rewrite E1.
  destruct (dpms_off_crtcs_trace (crtc_list d) (with_trace d (trace d ++ e1))) as [e2 E2].
  simpl in E2 |- *. rewrite E2. exists (e1 ++ e2).
  destruct d; simpl. rewrite app_assoc. reflexivity.
Qed.

(** When [drm_crtc_set_config] on CRTC [c] returns 0, every output of the
    device's list is bound as the request says: to [c] if it is in the
    request's outputs, to no CRTC if it was on [c] and is not, and to its
    former CRTC otherwise (the device's outputs listed once). *)
Theorem drm_crtc_set_config_binds (F : drm_funcs) (alloc_ok : bool)
  (s : drm_mode_set) (c : nat) (d : dev) :
  set_crtc s = Some c -> NoDup (output_list d) ->
  let '(r, d') := drm_crtc_set_config F alloc_ok (Some s) d in
  r = 0 ->
  forall o, In o (output_list d) ->
  (In o (set_outputs s) -> output_crtc (outputs d' o) = Some c) /\
  (~ In o (set_outputs s) ->
     output_crtc (outputs d' o) =
     if ptr_eqb (output_crtc (outputs d o)) (Some c) then None
     else output_crtc (outputs d o)).
Proof.
  intros Hc Hnd.
  unfold drm_crtc_set_config. rewrite Hc.
  unfold bind, get_crtc, get, ret. cbv beta iota.
  destruct alloc_ok; cbv beta iota delta [negb]; [|discriminate].
  pose proof (set_config_bind_crtcs c (set_outputs s)
                (match set_mode s with
                 | Some m0 => negb (drm_mode_equal m0 (crtc_mode (crtcs d c)))
                 | None => false end) (output_list d) d Hnd) as Hb.
  destruct (set_config_bind c (set_outputs s) _ (output_list d) d)
    as [[saves ch] d1] eqn:Eb.
  simpl in Hb.
  assert (Goal1 : forall d', outputs d' = outputs d1 ->
    forall o, In o (output_list d) ->
    (In o (set_outputs s) -> output_crtc (outputs d' o) = Some c) /\
    (~ In o (set_outputs s) ->
       output_crtc (outputs d' o) =
       if ptr_eqb (output_crtc (outputs d o)) (Some c) then None
       else output_crtc (outputs d o))).
  { intros d' Ho o Hin. rewrite Ho, (Hb o Hin).
    destruct (existsb (Nat.eqb o) (set_outputs s)) eqn:Ex.
    - apply existsb_exists in Ex as [x [Hx Ex]]. apply Nat.eqb_eq in Ex. subst x.
      split; [reflexivity | intros H; contradiction].
    - split; [|reflexivity]. intros H. exfalso.
      assert (existsb (Nat.eqb o) (set_outputs s) = true)
        by (apply existsb_exists; exists o; split; [exact H | apply Nat.eqb_refl]).
      congruence. }
  cbv beta iota.
  match goal with
  | |- let '(_, _) := (if ?b then _ else _) d1 in _ => destruct b
  end.
  2: { match goal with
       | |- let '(_, _) := (if ?b then _ else _) d1 in _ => destruct b
       end.
       - destruct (ptr_eqb (crtc_fb (crtcs d1 c)) (set_fb s));
           unfold log, modify, upd_crtc, modify; cbv beta iota;
           intros _; apply Goal1; reflexivity.
       - intros _. apply Goal1. reflexivity. }
  unfold upd_crtc, modify. destruct (set_mode s) as [m|]; cbv beta iota.
  - set (d2 := dev_upd_crtc c (set_crtc_enabled true)
                 (dev_upd_crtc c (set_crtc_fb (set_fb s)) d1)).
    pose proof (drm_crtc_set_mode_spec F c m (set_x s) (set_y s) d2) as Hsm.
    destruct (drm_crtc_set_mode F c m (set_x s) (set_y s) d2) as [ok d3].
    destruct Hsm as [cr [evs [Hst _]]].
    destruct Hst as [_ [_ [S3 _]]].
    destruct ok; cbv beta iota.
    + set (d4 := dev_upd_crtc c (set_crtc_desired (Some m) (set_x s) (set_y s)) d3).
      destruct (drm_disable_unused_functions_trace d4) as [e E]. rewrite E.
      intros _. apply Goal1. simpl. rewrite S3. reflexivity.
    + destruct (restore_output_crtcs _ _ _). unfold EINVAL. discriminate.
  - set (d2 := dev_upd_crtc c (set_crtc_enabled false)
                 (dev_upd_crtc c (set_crtc_fb (set_fb s)) d1)).
    destruct (drm_disable_unused_functions_trace d2) as [e E]. rewrite E.
    intros _. apply Goal1. reflexivity.
Qed.

(** When [drm_crtc_set_config] on CRTC [c] returns 0, [c] scans out the
    requested framebuffer, whichever path it took (full mode set, a
    [mode_set_base] flip or move, or nothing to do). *)
Theorem drm_crtc_set_config_fb (F : drm_funcs) (alloc_ok : bool)
  (s : drm_mode_set) (c : nat) (d : dev) :
  set_crtc s = Some c -> NoDup (output_list d) ->
  let '(r, d') := drm_crtc_set_config F alloc_ok (Some s) d in
  r = 0 -> crtc_fb (crtcs d' c) = set_fb s.
Proof.
  intros Hc Hnd.
  unfold drm_crtc_set_config. rewrite Hc.
  unfold bind, get_crtc, get, ret. cbv beta iota.
  destruct alloc_ok; cbv beta iota delta [negb]; [|discriminate].
  pose proof (set_config_bind_spec c (set_outputs s)
                (match set_mode s with
                 | Some m0 => negb (drm_mode_equal m0 (crtc_mode (crtcs d c)))
                 | None => false end) (output_list d) d Hnd) as Hb.
  destruct (set_config_bind c (set_outputs s) _ (output_list d) d)
    as [[saves ch] d1] eqn:Eb.
  destruct Hb as [_ [_ [B3 _]]].
  cbv beta iota.
  match goal with
  | |- let '(_, _) := (if ?b then _ else _) d1 in _ => destruct b
  end.
  2: { destruct (ptr_eqb (crtc_fb (crtcs d c)) (set_fb s)) eqn:Efb;
       [destruct ((set_x s =? crtc_x (crtcs d c)) && (set_y s =? crtc_y (crtcs d c)))|];
       cbn [negb orb].
       - intros _. rewrite B3. apply ptr_eqb_eq. exact Efb.
       - rewrite B3, Efb. unfold log, modify. cbv beta iota. intros _. simpl.
         rewrite B3. apply ptr_eqb_eq. exact Efb.
       - rewrite B3, Efb. unfold log, modify, upd_crtc. cbv beta iota. intros _. simpl.
         unfold heap_upd. rewrite Nat.eqb_refl. reflexivity. }
  unfold upd_crtc, modify. destruct (set_mode s) as [m|]; cbv beta iota.
  - set (d2 := dev_upd_crtc c (set_crtc_enabled true)
                 (dev_upd_crtc c (set_crtc_fb (set_fb s)) d1)).
    pose proof (drm_crtc_set_mode_spec F c m (set_x s) (set_y s) d2) as Hsm.
    destruct (drm_crtc_set_mode F c m (set_x s) (set_y s) d2) as [ok d3].
    destruct Hsm as [cr [evs [Hst [_ [Hfb _]]]]].
    destruct Hst as [_ [_ [_ [_ [_ [_ [_ [S8 _]]]]]]]].
    destruct ok; cbv beta iota.
    + set (d4 := dev_upd_crtc c (set_crtc_desired (Some m) (set_x s) (set_y s)) d3).
      destruct (drm_disable_unused_functions_trace d4) as [e E]. rewrite E.
      intros _. simpl. unfold heap_upd. rewrite Nat.eqb_refl. simpl.
      rewrite S8, Hfb. unfold d2. simpl. unfold heap_upd. rewrite Nat.eqb_refl.
      reflexivity.
    + destruct (restore_output_crtcs _ _ _). unfold EINVAL. discriminate.
  - set (d2 := dev_upd_crtc c (set_crtc_enabled false)
                 (dev_upd_crtc c (set_crtc_fb (set_fb s)) d1)).
    destruct (drm_disable_unused_functions_trace d2) as [e E]. rewrite E.
    intros _. unfold d2. simpl. unfold heap_upd. rewrite Nat.eqb_refl. reflexivity.
Qed.

Lemma drm_crtc_set_config_binds_witness :
  let F := Examples.funcs_ex (fun _ => false) (fun _ => false) None in
  let s := mkModeSet (Some 0%nat) None 0 0 (Some Examples.mode_1024) [] in
  let d := Examples.modeset_dev in
  let '(r, d') := drm_crtc_set_config F true (Some s) d in
  r = 0 /\ output_crtc (outputs d 0) = Some 0%nat /\ output_crtc (outputs d' 0) = None.
Proof.
  intros F s d.
  assert (Hnd : NoDup (output_list d)) by (constructor; [intros [] | constructor]).
  pose proof (drm_crtc_set_config_binds F true s 0 d eq_refl Hnd) as H.
  destruct (drm_crtc_set_config F true (Some s) d) as [r d'] eqn:E.
  assert (Hr : r = 0) by (vm_compute in E; injection E as <- _; reflexivity).
  split; [exact Hr|]. split; [reflexivity|].
  destruct (H Hr 0%nat (or_introl eq_refl)) as [_ H2].
  rewrite H2; [reflexivity | intros []].
Defined.

Lemma drm_crtc_set_config_fb_witness :
  let F := Examples.funcs_ex (fun _ => false) (fun _ => false) None in
  let s := mkModeSet (Some 0%nat) (Some 10%nat) 0 0 (Some Examples.mode_1024) [0%nat] in
  let d := Examples.modeset_dev in
  let '(r, d') := drm_crtc_set_config F true (Some s) d in
  r = 0 /\ crtc_fb (crtcs d 0) = None /\ crtc_fb (crtcs d' 0) = Some 10%nat.
Proof.
  intros F s d.
  assert (Hnd : NoDup (output_list d)) by (constructor; [intros [] | constructor]).
  pose proof (drm_crtc_set_config_fb F true s 0 d eq_refl Hnd) as H.
  destruct (drm_crtc_set_config F true (Some s) d) as [r d'] eqn:E.
  assert (Hr : r = 0) by (vm_compute in E; injection E as <- _; reflexivity).
  split; [exact Hr|]. split; [reflexivity|]. exact (H Hr).
Defined.

(** ** Probing the outputs *)

Section ProbeFacts.
Variable F : drm_funcs.

Lemma mode_insert_nonempty (m : drm_display_mode) (l : list drm_display_mode) :
  mode_insert m l <> [].
Proof. destruct l as [|x l]; simpl; [discriminate|]. destruct (mode_before m x); discriminate. Qed.

Lemma drm_mode_sort_nonempty (l : list drm_display_mode) :
  l <> [] -> drm_mode_sort l <> [].
Proof. destruct l as [|m l]; [contradiction|]. intros _. apply mode_insert_nonempty. Qed.


Lemma drm_crtc_probe_single_output_modes_shape (o : nat) (maxX maxY : Z) (d : dev) :
  drm_crtc_probe_single_output_modes F o maxX maxY d =
  dev_upd_output o (fun _ =>
    outputs (drm_crtc_probe_single_output_modes F o maxX maxY d) o) d.
Proof.
  unfold drm_crtc_probe_single_output_modes.
  destruct (output_status_eqb _ _); unfold dev_upd_output at 2; simpl;
    unfold heap_upd; rewrite Nat.eqb_refl; reflexivity.
Qed.

Lemma drm_crtc_probe_single_output_modes_local (o : nat) (maxX maxY : Z) (d1 d2 : dev) :
  outputs d1 o = outputs d2 o ->
  outputs (drm_crtc_probe_single_output_modes F o maxX maxY d1) o =
  outputs (drm_crtc_probe_single_output_modes F o maxX maxY d2) o.
Proof.
  intros E. unfold drm_crtc_probe_single_output_modes. rewrite E.
  destruct (output_status_eqb _ _); simpl; unfold heap_upd; rewrite Nat.eqb_refl;
    reflexivity.
Qed.



Lemma probe_outputs_frame (os : list nat) (maxX maxY : Z) (d : dev) :
  let d' := probe_outputs F os maxX maxY d in
  (forall o, ~ In o os -> outputs d' o = outputs d o) /\
  crtcs d' = crtcs d /\ output_list d' = output_list d /\ crtc_list d' = crtc_list d.
Proof.
  revert d; induction os as [|o os IH]; intros d; simpl; [repeat split; auto|].
  assert (S : (forall o', o' <> o ->
                 outputs (drm_crtc_probe_single_output_modes F o maxX maxY d) o' =
                 outputs d o') /\
              crtcs (drm_crtc_probe_single_output_modes F o maxX maxY d) = crtcs d /\
              output_list (drm_crtc_probe_single_output_modes F o maxX maxY d) =
                output_list d /\
              crtc_list (drm_crtc_probe_single_output_modes F o maxX maxY d) =
                crtc_list d).
  { rewrite drm_crtc_probe_single_output_modes_shape. simpl.
    split; [|repeat split; reflexivity].
    intros o' Hne. unfold heap_upd. apply Nat.eqb_neq in Hne. rewrite Hne. reflexivity. }
  destruct S as [S1 [S2 [S3 S4]]].
  destruct (IH (drm_crtc_probe_single_output_modes F o maxX maxY d)) as [I1 [I2 [I3 I4]]].
  split; [|split; [congruence | split; congruence]].
  intros o' Hn. rewrite I1 by tauto. apply S1. intros ->. tauto.
Qed.

Lemma probe_outputs_each (os : list nat) (maxX maxY : Z) (d : dev) :
  NoDup os -> forall o, In o os ->
  outputs (probe_outputs F os maxX maxY d) o =
  outputs (drm_crtc_probe_single_output_modes F o maxX maxY d) o.
Proof.
  revert d; induction os as [|o1 os IH]; intros d Hnd o Ho; [destruct Ho|].
  inversion Hnd as [|? ? Hnin Hnd']; subst. simpl.
  destruct Ho as [->|Ho].
  - destruct (probe_outputs_frame os maxX maxY
                (drm_crtc_probe_single_output_modes F o maxX maxY d)) as [Q1 _].
    exact (Q1 o Hnin).
  - rewrite (IH _ Hnd' o Ho). apply drm_crtc_probe_single_output_modes_local.
    rewrite drm_crtc_probe_single_output_modes_shape. simpl. unfold heap_upd.
    destruct (Nat.eqb_spec o o1) as [->|]; [contradiction | reflexivity].
Qed.

(** [drm_crtc_probe_output_modes] leaves every output of the device's list
    (listed once) exactly as probing it alone would: probing one output
    neither reads nor changes another. *)
Theorem drm_crtc_probe_output_modes_each (maxX maxY : Z) (d : dev) :
  NoDup (output_list d) ->
  let d' := drm_crtc_probe_output_modes F d maxX maxY in
  (forall o, In o (output_list d) ->
     outputs d' o = outputs (drm_crtc_probe_single_output_modes F o maxX maxY d) o) /\
  (forall o, ~ In o (output_list d) -> outputs d' o = outputs d o) /\
  crtcs d' = crtcs d.
Proof.
  intros Hnd d'. unfold d', drm_crtc_probe_output_modes.
  destruct (probe_outputs_frame (output_list d) maxX maxY d) as [P1 [P2 _]].
  split; [|split; [exact P1 | exact P2]].
  apply probe_outputs_each. exact Hnd.
Qed.

End ProbeFacts.



Lemma drm_crtc_probe_output_modes_each_witness :
  let F := Examples.funcs_ex (fun _ => false) (fun _ => false) None in
  let d := Examples.crtc_dev in
  NoDup (output_list d) /\
  outputs (drm_crtc_probe_output_modes F d 0 0) 2 =
  outputs (drm_crtc_probe_single_output_modes F 2 0 0 d) 2.
Proof.
  intros F d.
  assert (Hnd : NoDup (output_list d)).
  { simpl. constructor; [simpl; intuition discriminate|].
    constructor; [simpl; intuition discriminate|]. constructor; [intros []|constructor]. }
  split; [exact Hnd|].
  destruct (drm_crtc_probe_output_modes_each F 0 0 d Hnd) as [H _].
  apply H. right. right. left. reflexivity.
Defined.

(** ** Copying to user space *)

Section UserCopyFacts.
Variable put_ok : Z -> Z -> bool.

Lemma put_ids_all (ptr k : Z) (ids : list Z) :
  (forall i, put_ok ptr i = true) ->
  put_ids put_ok ptr k ids =
  (true, map (fun i => W_u32 ptr (k + Z.of_nat i) (nth i ids 0))
              (seq 0 (List.length ids))).
Proof.
  intros H. revert k; induction ids as [|id ids IH]; intros k; simpl; [reflexivity|].
  rewrite H, IH. rewrite Z.add_0_r. f_equal. f_equal.
  rewrite <- seq_shift, map_map. apply map_ext. intros i. f_equal. lia.
Qed.

Lemma put_ids_all0 (ptr : Z) (ids : list Z) :
  (forall i, put_ok ptr i = true) ->
  put_ids put_ok ptr 0 ids =
  (true, map (fun i => W_u32 ptr (Z.of_nat i) (nth i ids 0)) (seq 0 (List.length ids))).
Proof.
  intros H. rewrite put_ids_all by exact H. f_equal.
Qed.

(** When every user buffer is large enough (each count at least the
    number of objects) and writable, [drm_mode_getresources] returns 0,
    sets the three counts to the numbers of framebuffers, CRTCs and
    outputs, and stores their ids at indices 0, 1, ... of the three arrays,
    in list order: framebuffers first, then CRTCs, then outputs. *)
Theorem drm_mode_getresources_copies (d : dev) (card_res : drm_mode_card_res) :
  (forall p i, put_ok p i = true) ->
  Z.of_nat (List.length (fb_list d)) <= count_fbs card_res ->
  Z.of_nat (List.length (crtc_list d)) <= count_crtcs card_res ->
  Z.of_nat (List.length (output_list d)) <= count_outputs card_res ->
  let fbs := map (fb_ids d) (fb_list d) in
  let cs := map (fun c => crtc_id (crtcs d c)) (crtc_list d) in
  let os := map (fun o => output_id (outputs d o)) (output_list d) in
  drm_mode_getresources put_ok d card_res =
  (0, mkCardRes (Z.of_nat (List.length (fb_list d))) (Z.of_nat (List.length (crtc_list d)))
        (Z.of_nat (List.length (output_list d)))
        (fb_id_ptr card_res) (crtc_id_ptr card_res) (output_id_ptr card_res),
   map (fun i => W_u32 (fb_id_ptr card_res) (Z.of_nat i) (nth i fbs 0))
       (seq 0 (List.length fbs)) ++
   map (fun i => W_u32 (crtc_id_ptr card_res) (Z.of_nat i) (nth i cs 0))
       (seq 0 (List.length cs)) ++
   map (fun i => W_u32 (output_id_ptr card_res) (Z.of_nat i) (nth i os 0))
       (seq 0 (List.length os))).
Proof.
  intros Hok H1 H2 H3 fbs cs os. unfold drm_mode_getresources.
  apply Z.leb_le in H1, H2, H3. rewrite H1. cbn [count_crtcs count_outputs crtc_id_ptr
    output_id_ptr fb_id_ptr count_fbs].
  rewrite put_ids_all0 by (intros i; apply Hok). cbn [negb].
  rewrite H2, put_ids_all0 by (intros i; apply Hok). cbn [negb].
  rewrite H3, put_ids_all0 by (intros i; apply Hok). cbn [negb].
  reflexivity.
Qed.

(** A request whose counts are all below the numbers of framebuffers,
    CRTCs and outputs (a size query, typically with counts 0 on a device
    that has objects of each kind) stores nothing: [drm_mode_getresources]
    returns 0 and only sets the three counts. *)
Theorem drm_mode_getresources_query (d : dev) (card_res : drm_mode_card_res) :
  count_fbs card_res < Z.of_nat (List.length (fb_list d)) ->
  count_crtcs card_res < Z.of_nat (List.length (crtc_list d)) ->
  count_outputs card_res < Z.of_nat (List.length (output_list d)) ->
  drm_mode_getresources put_ok d card_res =
  (0, mkCardRes (Z.of_nat (List.length (fb_list d))) (Z.of_nat (List.length (crtc_list d)))
        (Z.of_nat (List.length (output_list d)))
        (fb_id_ptr card_res) (crtc_id_ptr card_res) (output_id_ptr card_res), []).
Proof.
  intros H1 H2 H3. unfold drm_mode_getresources.
  replace (Z.of_nat (List.length (fb_list d)) <=? count_fbs card_res) with false
    by (symmetry; apply Z.leb_gt; exact H1).
  cbn [negb count_crtcs count_outputs crtc_id_ptr output_id_ptr fb_id_ptr count_fbs].
  replace (Z.of_nat (List.length (crtc_list d)) <=? count_crtcs card_res) with false
    by (symmetry; apply Z.leb_gt; exact H2).
  replace (Z.of_nat (List.length (output_list d)) <=? count_outputs card_res) with false
    by (symmetry; apply Z.leb_gt; exact H3).
  reflexivity.
Qed.

Lemma probe_single_status (F : drm_funcs) (o : nat) (maxX maxY : Z) (d : dev) :
  output_status_of (outputs (drm_crtc_probe_single_output_modes F o maxX maxY d) o) =
  detect F o.
Proof.
  unfold drm_crtc_probe_single_output_modes.
  destruct (output_status_eqb _ _); simpl; unfold heap_upd; rewrite Nat.eqb_refl;
    [reflexivity|].
  assert (Hf : forall out, output_status_of (probe_finish out) = output_status_of out).
  { intros out. unfold probe_finish. destruct (output_modes out); reflexivity. }
  assert (Hv : forall out, output_status_of (probe_validate F o maxX maxY out) =
                           output_status_of out).
  { intros out. unfold probe_validate. destruct (get_modes F o) as [added r].
    destruct (negb (r =? 0)); reflexivity. }
  rewrite Hf, Hv. reflexivity.
Qed.

Lemma copy_props_no_umode (pp vp k : Z) (slots : list nat) (ids : list Z) (vals : list N) :
  forall p i m, ~ In (W_umode p i m) (snd (copy_props put_ok pp vp k slots ids vals)).
Proof.
  revert k; induction slots as [|s0 slots IH]; intros k p i m; simpl; [tauto|].
  destruct (negb (nth s0 ids 0 =? 0)); [|apply IH].
  destruct (negb (put_ok pp k)); simpl; [tauto|].
  destruct (negb (put_ok vp k)); simpl; [intros [E|[]]; discriminate|].
  specialize (IH (k + 1) p i m).
  destruct (copy_props put_ok pp vp (k + 1) slots ids vals) as [ok w]. simpl in *.
  intros [E|[E|H]]; [discriminate | discriminate | contradiction].
Qed.


(** A [drm_mode_getoutput] request with [count_modes] 0 probes the output
    ([drm_crtc_probe_single_output_modes] with the configuration's maximum
    size) and copies no mode. The [count_modes] it hands back is the number
    of modes the output had before that probe, while [connection] is the
    freshly detected status. *)
Theorem drm_mode_getoutput_probe_query (F : drm_funcs) (mw mh : Z)
  (out_resp : drm_mode_get_output) (o : nat) (d : dev) :
  Idr.idr_find drm_obj (crtc_idr d) (go_output out_resp) = Some (ObjOutput o) ->
  output_id (outputs d o) = go_output out_resp ->
  go_count_modes out_resp = 0 ->
  let '((r, resp, w), d') := drm_mode_getoutput put_ok F mw mh out_resp d in
  d' = drm_crtc_probe_single_output_modes F o mw mh d /\
  go_count_modes resp = Z.of_nat (List.length (output_modes (outputs d o))) /\
  go_connection resp = detect F o /\
  (forall p i m, ~ In (W_umode p i m) w).
Proof.
  intros E Hid H0. unfold drm_mode_getoutput, bind, get, ret, modify.
  rewrite E, Hid, Z.eqb_refl. cbn [negb]. rewrite H0, Z.eqb_refl.
  cbv beta iota.
  cbn [go_count_modes go_modes_ptr go_count_props go_props_ptr go_prop_values_ptr
       go_connection go_output go_crtc go_crtcs go_clones].
  try rewrite H0.
  replace ((Z.of_nat (List.length (output_modes (outputs d o))) <=? 0) &&
           negb (Z.of_nat (List.length (output_modes (outputs d o))) =? 0)) with false
    by (destruct (List.length (output_modes (outputs d o))); reflexivity).
  cbv beta iota. cbn [negb app go_count_modes go_connection].
  destruct (_ && _).
  - match goal with
    | |- context [copy_props put_ok ?b ?c ?e ?f ?g ?h] =>
        pose proof (copy_props_no_umode b c e f g h) as Hc;
        destruct (copy_props put_ok b c e f g h) as [ok2 w2]
    end.
    simpl in Hc.
    destruct ok2; cbn [negb]; (split; [reflexivity|]);
      (split; [reflexivity|]); (split; [apply probe_single_status | exact Hc]).
  - cbn [negb]. split; [reflexivity|]. split; [reflexivity|].
    split; [apply probe_single_status | intros p i m []].
Qed.

End UserCopyFacts.

Lemma drm_mode_getresources_copies_witness :
  let d := Examples.crtc_dev in
  let card_res := mkCardRes 1 1 3 100 200 300 in
  (forall p i, (fun (_ _ : Z) => true) p i = true) /\
  Z.of_nat (List.length (fb_list d)) <= count_fbs card_res /\
  Z.of_nat (List.length (crtc_list d)) <= count_crtcs card_res /\
  Z.of_nat (List.length (output_list d)) <= count_outputs card_res /\
  drm_mode_getresources (fun (_ _ : Z) => true) d card_res =
  (0, mkCardRes 1 1 3 100 200 300,
   [W_u32 100 0 3; W_u32 200 0 1; W_u32 300 0 0; W_u32 300 1 0; W_u32 300 2 0]).
Proof.
  intros d card_res.
  assert (H0 : forall p i, (fun (_ _ : Z) => true) p i = true) by reflexivity.
  assert (H1 : Z.of_nat (List.length (fb_list d)) <= count_fbs card_res) by (simpl; lia).
  assert (H2 : Z.of_nat (List.length (crtc_list d)) <= count_crtcs card_res) by (simpl; lia).
  assert (H3 : Z.of_nat (List.length (output_list d)) <= count_outputs card_res) by (simpl; lia).
  split; [exact H0|]. split; [exact H1|]. split; [exact H2|]. split; [exact H3|].
  exact (drm_mode_getresources_copies (fun (_ _ : Z) => true) d card_res H0 H1 H2 H3).
Defined.

Lemma drm_mode_getresources_query_witness :
  let d := Examples.crtc_dev in
  let card_res := mkCardRes 0 0 0 100 200 300 in
  count_fbs card_res < Z.of_nat (List.length (fb_list d)) /\
  count_crtcs card_res < Z.of_nat (List.length (crtc_list d)) /\
  count_outputs card_res < Z.of_nat (List.length (output_list d)) /\
  drm_mode_getresources (fun (_ _ : Z) => false) d card_res =
  (0, mkCardRes 1 1 3 100 200 300, []).
Proof.
  intros d card_res.
  assert (H1 : count_fbs card_res < Z.of_nat (List.length (fb_list d))) by (simpl; lia).
  assert (H2 : count_crtcs card_res < Z.of_nat (List.length (crtc_list d))) by (simpl; lia).
  assert (H3 : count_outputs card_res < Z.of_nat (List.length (output_list d))) by (simpl; lia).
  split; [exact H1|]. split; [exact H2|]. split; [exact H3|].
  exact (drm_mode_getresources_query (fun (_ _ : Z) => false) d card_res H1 H2 H3).
Defined.


Lemma drm_mode_getoutput_probe_query_witness :
  let F := Examples.funcs_ex (fun _ => false) (fun _ => false) None in
  let req := mkGetOutput 2 output_status_unknown 0 0 0 0 500 0 600 700 in
  let d := Examples.probe_dev in
  Idr.idr_find drm_obj (crtc_idr d) (go_output req) = Some (ObjOutput 0) /\
  output_id (outputs d 0) = go_output req /\
  go_count_modes req = 0 /\
  let '((r, resp, w), d') := drm_mode_getoutput (fun (_ _ : Z) => true) F 0 0 req d in
  d' = drm_crtc_probe_single_output_modes F 0 0 0 d /\
  go_count_modes resp = 1 /\
  go_connection resp = output_status_connected /\
  (forall p i m, ~ In (W_umode p i m) w).
Proof.
  intros F req d.
  assert (H1 : Idr.idr_find drm_obj (crtc_idr d) (go_output req) = Some (ObjOutput 0))
    by reflexivity.
  assert (H2 : output_id (outputs d 0) = go_output req) by reflexivity.
  assert (H3 : go_count_modes req = 0) by reflexivity.
  split; [exact H1|]. split; [exact H2|]. split; [exact H3|].
  exact (drm_mode_getoutput_probe_query (fun (_ _ : Z) => true) F 0 0 req 0 d H1 H2 H3).
Defined.
